(** * bAUTO: the instruction-to-action pipeline

    A shallow embedding of [bauto/core/parser.py], [bauto/core/code_generator.py],
    [bauto/core/ai_interface.py], [bauto/engine/action_engine.py] and
    [bauto/core/automator.py], and the properties of the pipeline checked
    against it.

    Conventions of the embedding.
    - A Python [str] is a [string]; a character is a code point below 256.
    - A Python [dict] with [str] keys is a [gmap string _].
    - A Python list is a [list]; [append]/[extend] add at the right end.
    - A method that mutates [self] takes the object's state and returns the
      new state.
    - Logging has no effect on the values computed and is left out, but
      for this: an f-string that holds an exception runs [str] of it, which
      can raise.  Where the exception can come from a snippet the f-string
      is modelled ([exc_str]); where it comes from a library it returns
      (the laws of [Runtime], lemma [generate_faults_print]).
    - [time.sleep] is left out; the delays of the configuration are taken
      to be no less than zero. *)

From Stdlib Require Import String Ascii List NArith ZArith Bool Lia DecimalString.
From stdpp Require Import base gmap strings list.

Import ListNotations.
Local Open Scope string_scope.
Local Open Scope list_scope.

(** ** Python string primitives *)

Module Py.

(** The line feed, the separator of [str.split] and [str.join] in the
    sources. *)
Definition LF : ascii := ascii_of_nat 10.
Definition NL : string := String LF EmptyString.

(** [str.isspace] on one character: the code points below 256 that Python
    treats as white space (TAB..CR, FS..US, SPACE, NEL, NBSP). *)
Definition is_space (c : ascii) : bool :=
  let n := nat_of_ascii c in
  (((9 <=? n) && (n <=? 13)) || ((28 <=? n) && (n <=? 32))
   || (n =? 133) || (n =? 160))%nat.

Definition is_empty (s : string) : bool :=
  match s with EmptyString => true | String _ _ => false end.

Fixpoint lstrip (s : string) : string :=
  match s with
  | EmptyString => EmptyString
  | String c s' => if is_space c then lstrip s' else s
  end.

Fixpoint rstrip (s : string) : string :=
  match s with
  | EmptyString => EmptyString
  | String c s' =>
      match rstrip s' with
      | EmptyString => if is_space c then EmptyString else String c EmptyString
      | r => String c r
      end
  end.

(** [s.strip()] *)
Definition strip (s : string) : string := rstrip (lstrip s).

(** [s.startswith(p)] *)
Fixpoint startswith (p s : string) : bool :=
  match p, s with
  | EmptyString, _ => true
  | String a p', String b s' => if Ascii.eqb a b then startswith p' s' else false
  | String _ _, EmptyString => false
  end.

(** [sub in s] *)
Fixpoint contains (sub s : string) : bool :=
  startswith sub s ||
  match s with
  | EmptyString => false
  | String _ s' => contains sub s'
  end.

(** [s.split(NL)]: never empty; one empty line for the empty string. *)
Fixpoint split_lines (s : string) : list string :=
  match s with
  | EmptyString => [EmptyString]
  | String c s' =>
      if Ascii.eqb c LF then EmptyString :: split_lines s'
      else match split_lines s' with
           | [] => [String c EmptyString]
           | l :: ls => String c l :: ls
           end
  end.

(** [sep.join(l)] *)
Fixpoint join (sep : string) (l : list string) : string :=
  match l with
  | [] => EmptyString
  | [x] => x
  | x :: rest => x +:+ sep +:+ join sep rest
  end.

(** [s.split()]: the maximal runs of characters that are not white space. *)
Fixpoint split (s : string) : list string :=
  match s with
  | EmptyString => []
  | String c s' =>
      if is_space c then split s'
      else match s' with
           | EmptyString => [String c EmptyString]
           | String c' _ =>
               if is_space c' then String c EmptyString :: split s'
               else match split s' with
                    | [] => [String c EmptyString]
                    | t :: ts => String c t :: ts
                    end
           end
  end.

(** [s.split()[-1]].  Python raises [IndexError] on a string without a
    token; every call site passes a stripped, non-empty line, which has
    one (lemma [split_strip_nonempty] below), so the default is never
    used. *)
Definition last_word (s : string) : string := List.last (split s) EmptyString.

(** [c.lower()] on one character below 256: A..Z and the Latin-1 capitals
    (without the multiplication sign) move up by 32. *)
Definition lower_char (c : ascii) : ascii :=
  let n := nat_of_ascii c in
  if (((65 <=? n) && (n <=? 90))
      || ((192 <=? n) && (n <=? 222) && negb (n =? 215)))%nat
  then ascii_of_nat (n + 32) else c.

(** [s.lower()] *)
Fixpoint lower (s : string) : string :=
  match s with
  | EmptyString => EmptyString
  | String c s' => String (lower_char c) (lower s')
  end.

(** [s[n:]] *)
Fixpoint drop (n : nat) (s : string) : string :=
  match n, s with
  | O, _ => s
  | S n', String _ s' => drop n' s'
  | S _, EmptyString => EmptyString
  end.

(** [s.replace(old, new)] for a non-empty [old]: the occurrences are
    taken from the left and do not overlap.  [skip] counts the characters
    of a match still to be passed over. *)
Fixpoint replace_from (old new : string) (skip : nat) (s : string) : string :=
  match s with
  | EmptyString => EmptyString
  | String c s' =>
      match skip with
      | S k => replace_from old new k s'
      | O =>
          if startswith old s
          then new +:+ replace_from old new (String.length old - 1) s'
          else String c (replace_from old new 0 s')
      end
  end.

Definition replace (old new s : string) : string := replace_from old new 0 s.

Fixpoint take_while (f : ascii -> bool) (s : string) : string :=
  match s with
  | EmptyString => EmptyString
  | String c s' => if f c then String c (take_while f s') else EmptyString
  end.

(** The truth value of a list: false for the empty list. *)
Definition nonempty {A} (l : list A) : bool :=
  match l with [] => false | _ :: _ => true end.

(** A string without a line feed. *)
Fixpoint newline_free (s : string) : bool :=
  match s with
  | EmptyString => true
  | String c s' => negb (Ascii.eqb c LF) && newline_free s'
  end.

End Py.

(** ** [bauto/core/parser.py] *)

Module InstructionParser.
Import Py.

Definition FUNCTION_START : string := "DEFINE_FUNCTION".
Definition FUNCTION_END : string := "END_FUNCTION".
Definition CALL_FUNCTION : string := "CALL".
Definition COMMENT : string := "#".

(** The two attributes set by [__init__]. *)
Record t := mk {
  functions : gmap string (list string);
  action_queue : list string
}.

(** [InstructionParser()] *)
Definition init : t := mk ∅ [].

(** [not line or line.startswith("#")] *)
Definition skipped (line : string) : bool :=
  is_empty line || startswith COMMENT line.

(** [_extract_functions].  The source walks the lines with one index [i]
    shared by an outer and an inner [while]; [cur] is [None] in the outer
    loop and [Some (func_name, func_body)] while the inner loop collects a
    body.  The inner loop ends at a line that starts with [END_FUNCTION]
    or at the end of the input, and in both cases the body collected so
    far is stored under the name. *)
Fixpoint extract_loop (lines : list string)
         (cur : option (string * list string))
         (fs : gmap string (list string)) : gmap string (list string) :=
  match lines with
  | [] =>
      match cur with
      | Some (func_name, func_body) => <[func_name := func_body]> fs
      | None => fs
      end
  | l :: rest =>
      let line := strip l in
      match cur with
      | Some (func_name, func_body) =>
          if startswith FUNCTION_END line
          then extract_loop rest None (<[func_name := func_body]> fs)
          else if negb (is_empty line) && negb (startswith COMMENT line)
          then extract_loop rest (Some (func_name, func_body ++ [line])) fs
          else extract_loop rest cur fs
      | None =>
          if skipped line then extract_loop rest None fs
          else if startswith FUNCTION_START line
          then extract_loop rest (Some (last_word line, [])) fs
          else extract_loop rest None fs
      end
  end.

Definition _extract_functions (self : t) (lines : list string) : t :=
  mk (extract_loop lines None (functions self)) (action_queue self).

(** One iteration of the [for] loop of [_build_action_queue]: the queue
    after the line has been handled. *)
Definition build_step (fs : gmap string (list string))
           (queue : list string) (l : string) : list string :=
  let line := strip l in
  if skipped line then queue
  else if startswith FUNCTION_START line || startswith FUNCTION_END line
  then queue
  else if startswith CALL_FUNCTION line then
    match fs !! last_word line with
    | Some body => queue ++ body
    | None => queue
    end
  else queue ++ [line].

Definition _build_action_queue (self : t) (lines : list string) : t :=
  mk (functions self)
     (fold_left (build_step (functions self)) lines (action_queue self)).

(** The argument of [parse]: [str | List[str]]. *)
Inductive instructions :=
| Text (s : string)
| Lines (l : list string).

Definition lines_of (i : instructions) : list string :=
  match i with
  | Text s => split_lines (strip s)
  | Lines l => l
  end.

(** [parse]: the new state of the parser and the returned list, which is
    [self.action_queue] itself. *)
Definition parse (self : t) (i : instructions) : t * list string :=
  let lines := lines_of i in
  let self1 := _extract_functions self lines in
  let self2 := _build_action_queue self1 lines in
  (self2, action_queue self2).

Definition CONTINUATION_KEYWORDS : list string :=
  ["then"; "and"; "after that"; "next"].

Definition is_continuation (action : string) : bool :=
  let action_lower := lower action in
  existsb (fun keyword => contains keyword action_lower) CONTINUATION_KEYWORDS.

(** The [for] loop of [group_related_actions] over the two local lists
    [grouped] and [current_block]. *)
Fixpoint group_loop (actions grouped current_block : list string)
  : list string * list string :=
  match actions with
  | [] => (grouped, current_block)
  | action :: rest =>
      if is_continuation action && nonempty current_block
      then group_loop rest grouped (current_block ++ [action])
      else
        let grouped' :=
          if nonempty current_block
          then grouped ++ [join NL current_block] else grouped in
        group_loop rest grouped' [action]
  end.

(** [group_related_actions]: a method that reads and writes no attribute
    of [self]; it returns [self] as it received it, and the grouped
    blocks. *)
Definition group_related_actions (self : t) (actions : list string)
  : t * list string :=
  let '(grouped, current_block) := group_loop actions [] [] in
  (self,
   if nonempty current_block
   then grouped ++ [join NL current_block] else grouped).

(** [clear] *)
Definition clear (self : t) : t := mk ∅ [].

End InstructionParser.

(** ** Faults, the outside world and the objects of one automator *)

(** A raised Python exception: the name of its class, what [str(e)] does,
    whether the class derives from [Exception] (the others, such as
    [KeyboardInterrupt], [SystemExit] and [GeneratorExit], derive from
    [BaseException] only and pass through [except Exception]), and the text
    [traceback.format_exc()] returns while it is handled.  [str(e)] runs the
    [__str__] of the class of [e]: for [Exc] it returns the text [msg], for
    [ExcStr] it raises the exception [raised], as the [__str__] of a class
    that a snippet defines can. *)
Inductive py_exception : Type :=
| Exc (type msg : string) (is_Exception : bool) (traceback : string)
| ExcStr (type : string) (raised : py_exception) (is_Exception : bool)
         (traceback : string).

(** [type(e).__name__] *)
Definition exc_type (e : py_exception) : string :=
  match e with
  | Exc type _ _ _ => type
  | ExcStr type _ _ _ => type
  end.

(** [isinstance(e, Exception)] *)
Definition exc_is_Exception (e : py_exception) : bool :=
  match e with
  | Exc _ _ is_Exception _ => is_Exception
  | ExcStr _ _ is_Exception _ => is_Exception
  end.

(** [traceback.format_exc()] while [e] is handled *)
Definition exc_traceback (e : py_exception) : string :=
  match e with
  | Exc _ _ _ traceback => traceback
  | ExcStr _ _ _ traceback => traceback
  end.

(** The outcome of a call that may raise. *)
Inductive result (A : Type) : Type :=
| Ret (a : A)
| Raise (e : py_exception).
Arguments Ret {A} a.
Arguments Raise {A} e.

(** [str(e)] *)
Definition exc_str (e : py_exception) : result string :=
  match e with
  | Exc _ msg _ _ => Ret msg
  | ExcStr _ raised _ _ => Raise raised
  end.

(** Whether [str(e)] returns. *)
Definition prints (e : py_exception) : bool :=
  match e with
  | Exc _ _ _ _ => true
  | ExcStr _ _ _ _ => false
  end.

(** What the pipeline calls outside itself.  [W] is the state of the world
    (the remote model, the browser, the file system).
    - [generate_content]: [self.model.generate_content(prompt, ...)] followed
      by [response.text]; the generation configuration is fixed by the caller.
    - [py_exec]: [exec(code, scope)] in the scope of the engine; [None] when
      the snippet runs to its end.  A snippet can raise any exception, also
      one of a class of its own whose [__str__] raises.
    - [os_makedirs]: [os.makedirs(directory, exist_ok=True)]; [false] when
      it raised (an [OSError]), which the engine catches and logs.
    - [env_screenshot]: [self.env.screenshot(filename)]; [false] when the
      capture raised, which the engine catches and logs.
    - [create_browser]: the driver and environment factory.
    - [driver_quit]: [self.driver.quit()].
    - [library_faults], [browser_faults]: the faults of the model's client
      library and of the browser driver are exceptions of these libraries,
      whose [str] returns; so the f-strings that log such a fault in the
      handlers of the provider, of the generator and of [_execute_action]
      return, and these handlers are modelled by what they do next. *)
Class Runtime (W : Type) := {
  generate_content : W -> string -> W * result string;
  py_exec : W -> string -> W * option py_exception;
  os_makedirs : W -> string -> W * bool;
  env_screenshot : W -> string -> W * bool;
  create_browser : W -> W * option py_exception;
  driver_quit : W -> W;
  library_faults :
    forall w prompt e, snd (generate_content w prompt) = Raise e -> prints e = true;
  browser_faults :
    forall w e, snd (create_browser w) = Some e -> prints e = true
}.

(** The calls recorded while the pipeline runs, oldest first; the record
    plays the part of the call counters of a test double. *)
Inductive event :=
| CallCodeGenerator (instruction : string) (context retry_on_error : option string)
| CallGenerateWithRetry (prompt : string)
| CallProviderGenerate (prompt : string)
| CallModel (prompt : string)
| CallExecute (code : string)
| CallScreenshot (filename : string)
| CallCreateBrowser
| CallQuit.

Definition is_CallGenerateWithRetry (e : event) : bool :=
  match e with CallGenerateWithRetry _ => true | _ => false end.
Definition is_CallProviderGenerate (e : event) : bool :=
  match e with CallProviderGenerate _ => true | _ => false end.
Definition is_CallModel (e : event) : bool :=
  match e with CallModel _ => true | _ => false end.
Definition is_CallCodeGenerator (e : event) : bool :=
  match e with CallCodeGenerator _ _ _ => true | _ => false end.
Definition is_CallExecute (e : event) : bool :=
  match e with CallExecute _ => true | _ => false end.

Definition count (p : event -> bool) (l : list event) : nat :=
  List.length (List.filter p l).

(** [GeminiProvider]: the response cache. *)
Record GeminiProvider_state := {
  _cache : gmap string string
}.

(** [CodeGenerator]: [self.ai] is the automator's interface object and is
    kept once, in the heap. *)
Record CodeGenerator_state := {
  cache_enabled : bool;
  _code_cache : gmap string string
}.

(** [ActionEngine] *)
Record ActionEngine_state := {
  screenshot_on_error : bool;
  screenshot_dir : string;
  execution_count : nat
}.

(** The fields of [Config.automation] the pipeline reads. *)
Record Config := {
  retry_attempts : Z;
  cfg_cache_prompts : bool;
  cfg_screenshot_on_error : bool;
  cfg_error_screenshot_dir : string
}.

(** The objects reachable from one [BrowserAutomator], the world and the
    record of calls.  [engine] is [None] exactly when [self.driver] is. *)
Record heap (W : Type) := Heap {
  world : W;
  calls : list event;
  config : Config;
  ai : GeminiProvider_state;
  parser : InstructionParser.t;
  code_generator : CodeGenerator_state;
  engine : option ActionEngine_state
}.
Arguments Heap {W}.
Arguments world {W}.
Arguments calls {W}.
Arguments config {W}.
Arguments ai {W}.
Arguments parser {W}.
Arguments code_generator {W}.
Arguments engine {W}.

Section Monad.
Context {W : Type}.

Definition set_world (w : W) (h : heap W) : heap W :=
  Heap w (calls h) (config h) (ai h) (parser h) (code_generator h) (engine h).
Definition set_calls (c : list event) (h : heap W) : heap W :=
  Heap (world h) c (config h) (ai h) (parser h) (code_generator h) (engine h).
Definition set_ai (a : GeminiProvider_state) (h : heap W) : heap W :=
  Heap (world h) (calls h) (config h) a (parser h) (code_generator h) (engine h).
Definition set_parser (p : InstructionParser.t) (h : heap W) : heap W :=
  Heap (world h) (calls h) (config h) (ai h) p (code_generator h) (engine h).
Definition set_code_generator (g : CodeGenerator_state) (h : heap W) : heap W :=
  Heap (world h) (calls h) (config h) (ai h) (parser h) g (engine h).
Definition set_engine (e : option ActionEngine_state) (h : heap W) : heap W :=
  Heap (world h) (calls h) (config h) (ai h) (parser h) (code_generator h) e.

(** A computation on the heap that returns or raises. *)
Definition M (A : Type) : Type := heap W -> result A * heap W.

Definition ret {A} (a : A) : M A := fun h => (Ret a, h).
Definition raise {A} (e : py_exception) : M A := fun h => (Raise e, h).
Definition bind {A B} (m : M A) (k : A -> M B) : M B :=
  fun h => match m h with
           | (Ret a, h') => k a h'
           | (Raise e, h') => (Raise e, h')
           end.
Definition get : M (heap W) := fun h => (Ret h, h).
Definition modify (f : heap W -> heap W) : M unit := fun h => (Ret tt, f h).

(** The outcome of a call that does not touch the heap. *)
Definition lift {A} (r : result A) : M A := fun h => (r, h).

(** [try: m  except Exception as e: handler e].  What [m] wrote before it
    raised stays written; a fault outside [Exception] is not caught. *)
Definition try_except {A} (m : M A) (handler : py_exception -> M A) : M A :=
  fun h => match m h with
           | (Ret a, h') => (Ret a, h')
           | (Raise e, h') =>
               if exc_is_Exception e then handler e h' else (Raise e, h')
           end.

(** [try: m  finally: cleanup] *)
Definition try_finally {A} (m : M A) (cleanup : M unit) : M A :=
  fun h => match m h with
           | (r, h') =>
               match cleanup h' with
               | (Ret _, h'') => (r, h'')
               | (Raise e, h'') => (Raise e, h'')
               end
           end.

Definition record (e : event) : M unit :=
  modify (fun h => set_calls (calls h ++ [e]) h).

End Monad.

Notation "'let*' x ':=' m 'in' k" := (bind m (fun x => k))
  (at level 10, x name, m at level 100, k at level 200, only parsing).

(** ** [bauto/core/ai_interface.py] *)

Module GeminiProvider.
Import Py.
Section Methods.
Context {W : Type} {R : Runtime W}.

Definition init : GeminiProvider_state := {| _cache := ∅ |}.

(** The call of the remote model. *)
Definition call_model (prompt : string) : M (W:=W) string :=
  let* _ := record (CallModel prompt) in
  fun h => let '(w, r) := generate_content (world h) prompt in (r, set_world w h).

(** [generate(prompt, ..., use_cache)].  The handler of the source logs
    the fault, a fault of the library ([library_faults]), and raises the
    same exception again, so it is left out. *)
Definition generate (prompt : string) (use_cache : bool) : M (W:=W) string :=
  let* _ := record (CallProviderGenerate prompt) in
  let* h := get in
  match (if use_cache then _cache (ai h) !! prompt else None) with
  | Some text => ret text
  | None =>
      let* response_text := call_model prompt in
      let text := strip response_text in
      let text := strip (replace "```" EmptyString (replace "```python" EmptyString text)) in
      let* _ :=
        (if use_cache
         then modify (fun h => set_ai {| _cache := <[prompt := text]> (_cache (ai h)) |} h)
         else ret tt) in
      ret text
  end.

(** The [for attempt in range(max_retries)] loop of
    [generate_with_retry], from [attempt] on with [remaining] iterations
    left; the fault it logs is a fault of the library.  A loop that runs
    out returns Python's [None]. *)
Fixpoint retry_loop (max_retries attempt remaining : nat) (prompt : string)
  : M (W:=W) (option string) :=
  match remaining with
  | O => ret None
  | S remaining' =>
      try_except
        (let* text := generate prompt true in ret (Some text))
        (fun e =>
           if (attempt <? max_retries - 1)%nat
           then retry_loop max_retries (S attempt) remaining' prompt
           else raise e)
  end.

Definition generate_with_retry (prompt : string) (max_retries : nat)
  : M (W:=W) (option string) :=
  retry_loop max_retries 0 max_retries prompt.

Definition clear_cache : M (W:=W) unit :=
  modify (fun h => set_ai {| _cache := ∅ |} h).

End Methods.
End GeminiProvider.

Module AIModelInterface.
Section Methods.
Context {W : Type} {R : Runtime W}.

(** The default of [max_retries]; no caller in the repository passes
    another value. *)
Definition DEFAULT_MAX_RETRIES : nat := 3.

Definition generate (prompt : string) : M (W:=W) string :=
  GeminiProvider.generate prompt true.

Definition generate_with_retry (prompt : string) : M (W:=W) (option string) :=
  let* _ := record (CallGenerateWithRetry prompt) in
  GeminiProvider.generate_with_retry prompt DEFAULT_MAX_RETRIES.

End Methods.
End AIModelInterface.

(** ** [bauto/core/code_generator.py] *)

Module CodeGenerator.
Import Py.

(** The double quote. *)
Definition DQ : string := String (ascii_of_nat 34) EmptyString.

Definition SYSTEM_PROMPT : string :=
    "You are an expert Selenium automation code generator.

IMPORTANT: Generate code that EXECUTES IMMEDIATELY. Do not wrap code in functions or classes unless absolutely necessary.
If you must use functions, ALWAYS call them at the end.

You have access to an automation environment (env) with these methods:

Core Navigation:
- env.navigate(url) - Navigate to a URL
- env.wait(seconds) - Wait for specified seconds
- env.refresh() - Refresh the current page

Element Finding:
- env.find_element(by='xpath', value=None) - Find single element
- env.find_elements(by='xpath', value=None) - Find multiple elements
- env.find_visible_element(by='xpath', value=None) - Find first visible element
- env.find_element_by_text(text, tag='*') - Find element containing text

Element Interaction:
- env.click(element) - Click an element
- env.type_text(element, text) - Type text into element
- env.clear_and_type(element, text) - Clear then type
- env.select_option(element, value) - Select dropdown option
- env.check_checkbox(element, checked=True) - Check/uncheck

Page Interaction:
- env.scroll(direction) - Scroll page ('up', 'down', 'top', 'bottom')
- env.screenshot(filename) - Take screenshot
- env.get_page_text() - Get all visible text
- env.execute_script(script) - Run JavaScript

Element Properties:
- env.get_text(element) - Get element text
- env.get_attribute(element, attr) - Get element attribute
- env.is_visible(element) - Check if element is visible
- env.is_enabled(element) - Check if element is enabled

Guidelines:
1. Write DIRECT, EXECUTABLE code - no function definitions unless necessary
2. Use xpath with contains() for flexible matching: //button[contains(normalize-space(), 'Click')]
3. Always use env methods, never call element methods directly
4. Import Keys from selenium.webdriver.common.keys if needed
5. Write clean, minimal code without comments
6. Handle common cases like waiting for elements
7. If you define a function/class, ALWAYS call it immediately after

CRITICAL: Code must execute immediately. Do NOT leave functions uncalled.

Example (GOOD):
env.navigate(" +:+ DQ +:+ "https://example.com" +:+ DQ +:+ ")
element = env.find_element(by='xpath', value='//input')
env.type_text(element, " +:+ DQ +:+ "text" +:+ DQ +:+ ")

Example (BAD - function not called):
def main():
    env.navigate(" +:+ DQ +:+ "https://example.com" +:+ DQ +:+ ")
# Missing: main() call

Generate ONLY executable Python code, no explanations.
".

(** [f"{x}"] for an [Optional[str]]: [None] prints as the word. *)
Definition fmt (x : option string) : string :=
  match x with
  | Some s => s
  | None => "None"
  end.

(** [f"{instruction}:{context}:{retry_on_error}"] *)
Definition cache_key (instruction : string) (context retry_on_error : option string)
  : string :=
  instruction +:+ ":" +:+ fmt context +:+ ":" +:+ fmt retry_on_error.

(** The truth value of an [Optional[str]]: [None] and the empty string are
    false. *)
Definition truthy (x : option string) : bool :=
  match x with
  | Some s => negb (is_empty s)
  | None => false
  end.

Definition _build_prompt (instruction : string) (context error : option string)
  : string :=
  let prompt := SYSTEM_PROMPT +:+ NL +:+ NL in
  let prompt :=
    if truthy context
    then prompt +:+ "Previous context:" +:+ NL +:+ fmt context +:+ NL +:+ NL
    else prompt in
  let prompt := prompt +:+ "INSTRUCTION:" +:+ NL +:+ instruction +:+ NL +:+ NL in
  let prompt :=
    if truthy error
    then (prompt +:+ "Previous attempt failed with error:" +:+ NL +:+ fmt error +:+ NL +:+ NL)
         +:+ "Fix the error and try again." +:+ NL +:+ NL
    else prompt in
  prompt +:+ "OUTPUT (Python code only):" +:+ NL +:+ "```python" +:+ NL.

(** The loop that keeps one blank line of every run of blank lines. *)
Fixpoint drop_blank_runs (lines : list string) (prev_blank : bool) : list string :=
  match lines with
  | [] => []
  | line :: rest =>
      let is_blank := is_empty (strip line) in
      if is_blank && prev_blank then drop_blank_runs rest prev_blank
      else line :: drop_blank_runs rest is_blank
  end.

(** [line.strip().startswith(('def ', 'class ', 'import ', 'from ', '#'))] *)
Definition DEFINITION_PREFIXES : list string :=
  ["def "; "class "; "import "; "from "; "#"].

Definition is_direct_call (line : string) : bool :=
  negb (is_empty (strip line))
  && negb (existsb (fun p => startswith p (strip line)) DEFINITION_PREFIXES).

(** [\w] of [re] on one character below 256: [str.isalnum] or the
    underscore. *)
Definition is_word (c : ascii) : bool :=
  let n := nat_of_ascii c in
  (((48 <=? n) && (n <=? 57)) || ((65 <=? n) && (n <=? 90))
   || ((97 <=? n) && (n <=? 122)) || (n =? 95)
   || (n =? 170) || (n =? 178) || (n =? 179) || (n =? 181)
   || (n =? 185) || (n =? 186) || ((188 <=? n) && (n <=? 190))
   || ((192 <=? n) && (n <=? 214)) || ((216 <=? n) && (n <=? 246))
   || ((248 <=? n) && (n <=? 255)))%nat.

(** A match of [class\s+(\w+)] at the start of [s]: group 1.  White space
    and word characters are disjoint, so the greedy [\s+] never gives a
    character back. *)
Definition match_class (s : string) : option string :=
  if startswith "class" s then
    let after := drop 5 s in
    match after with
    | String c _ =>
        if is_space c then
          let name := take_while is_word (lstrip after) in
          if is_empty name then None else Some name
        else None
    | EmptyString => None
    end
  else None.

(** [re.search(r'class\s+(\w+)', code)]: the leftmost match. *)
Fixpoint search_class (code : string) : option string :=
  match match_class code with
  | Some name => Some name
  | None =>
      match code with
      | EmptyString => None
      | String _ code' => search_class code'
      end
  end.

Definition CLASS_CALL (class_name : string) : string :=
  NL +:+ NL +:+ "# Execute" +:+ NL +:+ "instance = " +:+ class_name +:+ "(env)" +:+ NL
  +:+ "if hasattr(instance, 'run'):" +:+ NL +:+ "    instance.run()" +:+ NL
  +:+ "elif hasattr(instance, '__call__'):" +:+ NL +:+ "    instance()".

Definition MAIN_CALL : string := NL +:+ NL +:+ "# Execute" +:+ NL +:+ "main(env)".
Definition AUTOMATION_CALL : string := NL +:+ NL +:+ "# Execute" +:+ NL +:+ "automation()".

Definition _clean_code (code : string) : string :=
  let code := replace "```" EmptyString (replace "```python" EmptyString code) in
  let code := strip code in
  let lines := split_lines code in
  let cleaned_lines := drop_blank_runs lines false in
  let code := strip (join NL cleaned_lines) in
  let has_def := contains "def " code || contains "class " code in
  let has_direct_calls := existsb is_direct_call (split_lines code) in
  if has_def && negb has_direct_calls then
    if contains "class " code then
      match search_class code with
      | Some class_name => code +:+ CLASS_CALL class_name
      | None => code
      end
    else if contains "def main" code || contains "def automation" code then
      if contains "def main" code then code +:+ MAIN_CALL
      else if contains "def automation" code then code +:+ AUTOMATION_CALL
      else code
    else code
  else code.

Section Methods.
Context {W : Type} {R : Runtime W}.

(** [CodeGenerator(ai, cache_enabled)] *)
Definition init (cache_enabled : bool) : CodeGenerator_state :=
  {| cache_enabled := cache_enabled; _code_cache := ∅ |}.

(** The fault of [None.replace(...)], for a provider loop that ran out. *)
Definition NONE_HAS_NO_REPLACE : py_exception :=
  Exc "AttributeError" "'NoneType' object has no attribute 'replace'" true EmptyString.

(** [generate(instruction, context, retry_on_error)].  The handler of
    the source logs the fault, whose [str] returns (lemma
    [generate_faults_print]), and raises the same exception again, so it
    is left out. *)
Definition generate (instruction : string) (context retry_on_error : option string)
  : M (W:=W) string :=
  let* _ := record (CallCodeGenerator instruction context retry_on_error) in
  let key := cache_key instruction context retry_on_error in
  let* h := get in
  match (if cache_enabled (code_generator h)
         then _code_cache (code_generator h) !! key else None) with
  | Some code => ret code
  | None =>
      let prompt := _build_prompt instruction context retry_on_error in
      let* response := AIModelInterface.generate_with_retry prompt in
      match response with
      | None => raise NONE_HAS_NO_REPLACE
      | Some code =>
          let code := _clean_code code in
          let* h := get in
          let* _ :=
            (if cache_enabled (code_generator h)
             then modify (set_code_generator
                            {| cache_enabled := cache_enabled (code_generator h);
                               _code_cache := <[key := code]> (_code_cache (code_generator h)) |})
             else ret tt) in
          ret code
      end
  end.

Definition clear_cache : M (W:=W) unit :=
  modify (fun h => set_code_generator
                     {| cache_enabled := cache_enabled (code_generator h);
                        _code_cache := ∅ |} h).

End Methods.
End CodeGenerator.

(** ** [bauto/engine/action_engine.py] *)

Module ActionEngine.
Import Py.

(** [ActionEngine(env, screenshot_on_error, screenshot_dir)] *)
Definition init (screenshot_on_error : bool) (screenshot_dir : string)
  : ActionEngine_state :=
  {| screenshot_on_error := screenshot_on_error;
     screenshot_dir := screenshot_dir;
     execution_count := 0 |}.

(** [l[-n:]] for a positive [n] *)
Definition last_n {A} (n : nat) (l : list A) : list A :=
  List.skipn (List.length l - n) l.

(** [_format_error]; [str(exception)] runs first and a fault of it leaves
    the method; [traceback.format_exc()] is the traceback of the exception
    being handled. *)
Definition _format_error (exception : py_exception) : result string :=
  let error_type := exc_type exception in
  match exc_str exception with
  | Raise e => Raise e
  | Ret error_msg =>
      let tb := exc_traceback exception in
      let lines := split_lines tb in
      let relevant_lines :=
        List.filter (fun line => contains "<string>" line || negb (contains "File" line))
                    lines in
      let formatted := error_type +:+ ": " +:+ error_msg in
      Ret (if nonempty relevant_lines
           then formatted +:+ NL +:+ join NL (last_n 5 relevant_lines)
           else formatted)
  end.

(** [str(n)] *)
Definition str_of_nat (n : nat) : string :=
  NilEmpty.string_of_uint (Nat.to_uint n).

Section Methods.
Context {W : Type} {R : Runtime W}.

Definition NO_ENGINE : py_exception :=
  Exc "AttributeError" "'NoneType' object has no attribute 'execute'" true EmptyString.

(** [exec(code, scope)] *)
Definition exec_snippet (code : string) : M (W:=W) unit :=
  fun h => let '(w, outcome) := py_exec (world h) code in
           match outcome with
           | None => (Ret tt, set_world w h)
           | Some e => (Raise e, set_world w h)
           end.

(** [_save_error_screenshot]: the directory, the capture and their
    [except Exception], which only logs: when [os.makedirs] raises, the
    capture is not tried. *)
Definition _save_error_screenshot (self : ActionEngine_state) : M (W:=W) unit :=
  let* made :=
    (fun h => let '(w, made) := os_makedirs (world h) (screenshot_dir self) in
              (Ret made, set_world w h)) in
  if made : bool then
    let filename :=
      screenshot_dir self +:+ "/error_" +:+ str_of_nat (execution_count self)
      +:+ ".png" in
    let* _ := record (CallScreenshot filename) in
    modify (fun h => set_world (fst (env_screenshot (world h) filename)) h)
  else ret tt.

(** [execute(code)] on the engine of the automator.  The optional extra
    bindings only reach [exec] through its scope and no caller of the
    pipeline passes any. *)
Definition execute (code : string) : M (W:=W) (bool * option string) :=
  let* h := get in
  match engine h with
  | None => raise NO_ENGINE
  | Some self =>
      let self :=
        {| screenshot_on_error := screenshot_on_error self;
           screenshot_dir := screenshot_dir self;
           execution_count := execution_count self + 1 |} in
      let* _ := modify (set_engine (Some self)) in
      let* _ := record (CallExecute code) in
      try_except
        (let* _ := exec_snippet code in ret (true, None))
        (fun e =>
           let* error_msg := lift (_format_error e) in
           let* _ :=
             (if screenshot_on_error self
              then _save_error_screenshot self else ret tt) in
           ret (false, Some error_msg))
  end.

End Methods.
End ActionEngine.

(** ** [bauto/core/automator.py] *)

Module BrowserAutomator.
Section Methods.
Context {W : Type} {R : Runtime W}.

(** [BrowserAutomator(config)] in the world [w]: no call made yet, empty
    caches, a fresh parser, no browser. *)
Definition init (cfg : Config) (w : W) : heap W :=
  Heap w [] cfg GeminiProvider.init InstructionParser.init
       (CodeGenerator.init (cfg_cache_prompts cfg)) None.

Definition _initialize_browser : M (W:=W) unit :=
  let* h := get in
  match engine h with
  | Some _ => ret tt
  | None =>
      let* _ := record CallCreateBrowser in
      let* _ :=
        (fun h => let '(w, outcome) := create_browser (world h) in
                  match outcome with
                  | None => (Ret tt, set_world w h)
                  | Some e => (Raise e, set_world w h)
                  end) in
      modify (fun h =>
                set_engine
                  (Some (ActionEngine.init
                           (cfg_screenshot_on_error (config h))
                           (cfg_error_screenshot_dir (config h)))) h)
  end.

(** [_cleanup]: a fault of [quit] is swallowed by the bare [except]. *)
Definition _cleanup : M (W:=W) unit :=
  let* h := get in
  match engine h with
  | Some _ =>
      let* _ := record CallQuit in
      let* _ := modify (fun h => set_world (driver_quit (world h)) h) in
      modify (set_engine None)
  | None => ret tt
  end.

(** The [for attempt in range(retry_attempts)] loop of
    [_execute_action], with [remaining] iterations left.  The handler logs
    the fault of the generator, whose [str] returns (lemma
    [generate_faults_print]), and returns [False]. *)
Fixpoint attempt_loop (remaining : nat) (action : string)
         (last_error : option string) : M (W:=W) bool :=
  match remaining with
  | O => ret false
  | S remaining' =>
      let* generated :=
        try_except
          (let* code := CodeGenerator.generate action None last_error in
           ret (Some code))
          (fun e => ret None) in
      match generated with
      | None => ret false
      | Some code =>
          let* outcome := ActionEngine.execute code in
          let '(success, error) := outcome in
          if success then ret true
          else
            let last_error := error in
            let* h := get in
            if (retry_attempts (config h) <=? 1)%Z then ret false
            else attempt_loop remaining' action last_error
      end
  end.

Definition _execute_action (action : string) : M (W:=W) bool :=
  let* h := get in
  attempt_loop (Z.to_nat (retry_attempts (config h))) action None.

(** The [for i, action in enumerate(action_queue, 1)] loop of [run]. *)
Fixpoint action_loop (action_queue : list string) (all_success : bool)
  : M (W:=W) bool :=
  match action_queue with
  | [] => ret all_success
  | action :: rest =>
      let* success := _execute_action action in
      if success then action_loop rest all_success
      else
        let* h := get in
        if (retry_attempts (config h) <=? 1)%Z then ret false
        else action_loop rest false
  end.

(** [self.parser.parse(instructions)] *)
Definition parse (i : InstructionParser.instructions) : M (W:=W) (list string) :=
  fun h => let '(p, queue) := InstructionParser.parse (parser h) i in
           (Ret queue, set_parser p h).

(** [run]; the handler evaluates [f"Automation failed: {e}"] for the log
    before it returns, and a fault of [str(e)] leaves [run]. *)
Definition run (i : InstructionParser.instructions) (close_browser : bool)
  : M (W:=W) bool :=
  try_finally
    (try_except
       (let* _ := _initialize_browser in
        let* action_queue := parse i in
        action_loop action_queue true)
       (fun e => let* _ := lift (exc_str e) in ret false))
    (let* h := get in
     if close_browser
     then match engine h with
          | Some _ => _cleanup
          | None => ret tt
          end
     else ret tt).

End Methods.
End BrowserAutomator.

(** ** A world for closed examples *)

Module Python.
Import Py.

(** Some built-in exception classes and whether they derive from
    [Exception]. *)
Definition BUILTIN_EXCEPTIONS : list (string * bool) :=
  [("BaseException", false); ("Exception", true);
   ("KeyboardInterrupt", false); ("SystemExit", false);
   ("GeneratorExit", false); ("ValueError", true);
   ("TypeError", true); ("RuntimeError", true)].

Fixpoint lookup_class (name : string) (table : list (string * bool)) : option bool :=
  match table with
  | [] => None
  | (n, b) :: rest => if String.eqb n name then Some b else lookup_class name rest
  end.

(** A printable ASCII character other than the quote and the backslash. *)
Definition is_plain (c : ascii) : bool :=
  let n := nat_of_ascii c in
  ((32 <=? n) && (n <=? 126) && negb (n =? 39) && negb (n =? 92))%nat.

(** The traceback of an exception raised at the top level of a snippet run
    by [exec] from [ActionEngine.execute]. *)
Definition traceback_of (name msg : string) : string :=
  "Traceback (most recent call last):" +:+ NL
  +:+ "  File " +:+ CodeGenerator.DQ +:+ "bauto/engine/action_engine.py"
  +:+ CodeGenerator.DQ +:+ ", line 52, in execute" +:+ NL
  +:+ "    exec(code, scope)" +:+ NL
  +:+ "  File " +:+ CodeGenerator.DQ +:+ "<string>" +:+ CodeGenerator.DQ
  +:+ ", line 1, in <module>" +:+ NL
  +:+ name +:+ ": " +:+ msg +:+ NL.

(** [exec] on the one-statement snippets [raise Name('text')] for the
    classes above: the exception raised.  [None] for any other snippet. *)
Definition raise_statement (code : string) : option py_exception :=
  if startswith "raise " code then
    let rest := drop 6 code in
    let name := take_while CodeGenerator.is_word rest in
    let args := drop (String.length name) rest in
    if startswith "('" args then
      let msg := take_while is_plain (drop 2 args) in
      if String.eqb (drop (2 + String.length msg) args) "')" then
        match lookup_class name BUILTIN_EXCEPTIONS with
        | Some b => Some (Exc name msg b (traceback_of name msg))
        | None => None
        end
      else None
    else None
  else None.

End Python.

Module Scripted.

(** A fault as a library raises it: [str] of it returns. *)
Definition library_fault (e : py_exception) : py_exception :=
  match e with
  | Exc _ _ _ _ => e
  | ExcStr type _ is_Exception traceback => Exc type EmptyString is_Exception traceback
  end.

Definition library_reply (r : result string) : result string :=
  match r with
  | Ret text => Ret text
  | Raise e => Raise (library_fault e)
  end.

Definition library_reply_prints (r : result string) (e : py_exception)
  : library_reply r = Raise e -> prints e = true.
Proof. destruct r as [text|[]]; cbn; intros [= <-]; reflexivity. Qed.

Definition library_browser_prints (browser : option py_exception) (e : py_exception)
  : option_map library_fault browser = Some e -> prints e = true.
Proof. destruct browser as [[]|]; cbn; intros [= <-]; reflexivity. Qed.

(** The state of the world is the number of calls the remote model has
    answered; [reply n prompt] is its answer to call [n], a fault of which
    is raised as a library raises it.  [exec code] is what a snippet
    raises, [browser] the fault of the start of the browser, if any;
    directories are made and pages captured without fault. *)
Definition world (exec : string -> option py_exception)
           (browser : option py_exception)
           (reply : nat -> string -> result string) : Runtime nat :=
  {| generate_content := fun n prompt => (S n, library_reply (reply n prompt));
     py_exec := fun n code => (n, exec code);
     os_makedirs := fun n _ => (n, true);
     env_screenshot := fun n _ => (n, true);
     create_browser := fun n => (n, option_map library_fault browser);
     driver_quit := fun n => n;
     library_faults := fun n prompt e => library_reply_prints (reply n prompt) e;
     browser_faults := fun n e => library_browser_prints browser e |}.

(** A snippet that is one [raise] statement raises, every other snippet
    runs to its end; the browser starts without fault. *)
Definition runtime (reply : nat -> string -> result string) : Runtime nat :=
  world Python.raise_statement None reply.

Definition config (retry : Z) (cache : bool) : Config :=
  {| retry_attempts := retry;
     cfg_cache_prompts := cache;
     cfg_screenshot_on_error := true;
     cfg_error_screenshot_dir := "error_screenshots" |}.

End Scripted.

(** * The vocabulary of the properties *)

Section ParserVocabulary.
Import Py InstructionParser.

(** A string that does not begin with white space. *)
Definition no_lead (s : string) : Prop :=
  match s with
  | EmptyString => True
  | String c _ => is_space c = false
  end.

(** The lines the queue loop appends as they are: neither blank, nor a
    comment, nor a marker, nor a call. *)
Definition is_instruction (l : string) : bool :=
  let line := strip l in
  negb (skipped line)
  && negb (startswith FUNCTION_START line || startswith FUNCTION_END line)
  && negb (startswith CALL_FUNCTION line).

(** What the parser promises of a stored line: trimmed, not empty, not
    starting with the comment marker. *)
Definition clean (s : string) : Prop :=
  strip s = s /\ skipped s = false.

Definition well_formed (self : t) : Prop :=
  Forall clean (action_queue self)
  /\ map_Forall (fun _ body => Forall clean body) (functions self).

(** The actions of a list of blocks, put end to end. *)
Definition flatten (blocks : list string) : list string :=
  concat (map split_lines blocks).

End ParserVocabulary.

Section FrameVocabulary.
Context {W : Type}.

(** Whatever the outcome, the heap after [m] is related to the heap
    before. *)
Definition preserves {A} (Rel : heap W -> heap W -> Prop) (m : M (W:=W) A)
  : Prop :=
  forall h, Rel h (snd (m h)).

(** The new calls all satisfy [ok]; the configuration, the parser, the
    engine and the caching switch are as before. *)
Definition frame (ok : event -> bool) (h h' : heap W) : Prop :=
  config h' = config h
  /\ parser h' = parser h
  /\ cache_enabled (code_generator h') = cache_enabled (code_generator h)
  /\ exists l, calls h' = calls h ++ l /\ forallb ok l = true.

(** The code generator and the engine are untouched. *)
Definition same_objects (h h' : heap W) : Prop :=
  code_generator h' = code_generator h /\ engine h' = engine h.

(** The calls below the interface: the provider and the remote model. *)
Definition is_backend (e : event) : bool :=
  is_CallProviderGenerate e || is_CallModel e.

(** Both at once, for the calls below the interface. *)
Definition provider_frame (h h' : heap W) : Prop :=
  frame is_backend h h' /\ same_objects h h'.

End FrameVocabulary.

(** ** Closed examples in the scripted world *)

Section Examples.
Import Py.

(** Scenario B of the specification, with two body lines. *)
Definition SCENARIO_B : InstructionParser.instructions :=
  InstructionParser.Text ("DEFINE_FUNCTION login" +:+ NL +:+ "Type username" +:+ NL
        +:+ "Type password" +:+ NL +:+ "END_FUNCTION" +:+ NL
        +:+ "CALL login" +:+ NL +:+ "Wait 2 seconds").

(** The text of the repository's test of the expansion of a call, which
    expects three actions. *)
Definition TEST_FUNCTION_CALL_EXPANSION : InstructionParser.instructions :=
  InstructionParser.Text
    (NL +:+ "        DEFINE_FUNCTION setup" +:+ NL
     +:+ "        Navigate to site" +:+ NL
     +:+ "        Wait 2 seconds" +:+ NL
     +:+ "        END_FUNCTION" +:+ NL
     +:+ "        " +:+ NL
     +:+ "        CALL setup" +:+ NL
     +:+ "        Click button" +:+ NL
     +:+ "        ").

(** The response of the repository's own test of the synthetic call, with
    single quotes in the snippet. *)
Definition UNCALLED_MAIN : string :=
  NL +:+ "        def main(env):" +:+ NL
  +:+ "            env.navigate('https://example.com')" +:+ NL +:+ "        ".

(** A remote model that answers a first attempt and a retry differently. *)
Definition ANSWERS (_ : nat) (prompt : string) : result string :=
  Ret (if contains "Fix the error and try again." prompt
       then "env.refresh()" else "env.wait(1)").

(** A remote model that is down. *)
Definition UNAVAILABLE (_ : nat) (_ : string) : result string :=
  Raise (Exc "RuntimeError" "503 service unavailable" true EmptyString).

(** A remote model whose snippet for the first step runs and whose
    snippets for the other steps raise. *)
Definition ONLY_STEP_ONE (_ : nat) (prompt : string) : result string :=
  Ret (if contains "Step one" prompt
       then "env.wait(1)" else "raise ValueError('boom')").

Definition THREE_STEPS : InstructionParser.instructions :=
  InstructionParser.Lines ["Step one"; "Step two"; "Step three"].

Definition generate_in (reply : nat -> string -> result string)
           (instruction : string) (context retry_on_error : option string)
  : M (W:=nat) string :=
  CodeGenerator.generate (R:=Scripted.runtime reply)
                         instruction context retry_on_error.

Definition execute_in (reply : nat -> string -> result string) (code : string)
  : M (W:=nat) (bool * option string) :=
  ActionEngine.execute (R:=Scripted.runtime reply) code.

Definition run_in (reply : nat -> string -> result string)
           (i : InstructionParser.instructions) (close_browser : bool)
  : M (W:=nat) bool :=
  BrowserAutomator.run (R:=Scripted.runtime reply) i close_browser.

(** An automator of the scripted world whose browser has been started. *)
Definition READY (reply : nat -> string -> result string) (cfg : Config) : heap nat :=
  snd (BrowserAutomator._initialize_browser
         (R:=Scripted.runtime reply) (BrowserAutomator.init cfg 0)).

(** The instructions the generator was asked for, oldest first. *)
Fixpoint generated (l : list event) : list string :=
  match l with
  | [] => []
  | CallCodeGenerator instruction _ _ :: rest => instruction :: generated rest
  | _ :: rest => generated rest
  end.

End Examples.

(** ** The vocabulary of the further properties *)

Section FurtherVocabulary.
Import Py InstructionParser.

(** The lines both passes of the parser keep, trimmed: neither blank nor a
    comment. *)
Definition kept (lines : list string) : list string :=
  map strip (List.filter (fun l => negb (skipped (strip l))) lines).

(** A line that is a marker or a call once trimmed. *)
Definition is_keyword_line (l : string) : bool :=
  startswith FUNCTION_START (strip l)
  || startswith FUNCTION_END (strip l)
  || startswith CALL_FUNCTION (strip l).

(** The blocks [group_related_actions] returns from its two local lists. *)
Definition blocks_of (state : list string * list string) : list string :=
  let '(grouped, current_block) := state in
  if nonempty current_block
  then grouped ++ [join NL current_block] else grouped.

(** The code fence of a model response. *)
Definition FENCE : string := "```".

(** What [GeminiProvider.generate] makes of the text of a response. *)
Definition clean_response (response_text : string) : string :=
  strip (replace FENCE EmptyString (replace "```python" EmptyString (strip response_text))).

Definition is_CallScreenshot (e : event) : bool :=
  match e with CallScreenshot _ => true | _ => false end.

Definition is_CallCreateBrowser (e : event) : bool :=
  match e with CallCreateBrowser => true | _ => false end.

(** A blank line of a snippet. *)
Definition is_blank (line : string) : bool := is_empty (strip line).

(** No two blank lines in a row; [prev_blank] tells whether a blank line
    stands before the list. *)
Fixpoint no_blank_run (lines : list string) (prev_blank : bool) : bool :=
  match lines with
  | [] => true
  | line :: rest =>
      negb (is_blank line && prev_blank) && no_blank_run rest (is_blank line)
  end.

(** A string without a backtick. *)
Fixpoint no_tick (s : string) : bool :=
  match s with
  | EmptyString => true
  | String c s' => negb (Ascii.eqb "`" c) && no_tick s'
  end.

(** A remote model whose call is interrupted from the keyboard. *)
Definition INTERRUPTED (_ : nat) (_ : string) : result string :=
  Raise (Exc "KeyboardInterrupt" EmptyString false EmptyString).

(** The lines of a traceback [_format_error] keeps. *)
Definition is_relevant (line : string) : bool :=
  contains "<string>" line || negb (contains "File" line).

(** The file the engine captures the page into at its [n]-th call. *)
Definition error_file (dir : string) (n : nat) : string :=
  dir +:+ "/error_" +:+ ActionEngine.str_of_nat n +:+ ".png".

Definition is_CallQuit (e : event) : bool :=
  match e with CallQuit => true | _ => false end.

(** Calls that are neither the start nor the release of the browser. *)
Definition no_browser_call (l : list event) : bool :=
  forallb (fun e => negb (is_CallCreateBrowser e || is_CallQuit e)) l.

(** A remote model whose snippets are interrupted from the keyboard. *)
Definition INTERRUPTING (_ : nat) (_ : string) : result string :=
  Ret "raise KeyboardInterrupt('stop')".

(** A remote model whose first snippet raises and whose snippet for a
    retry runs. *)
Definition SECOND_TIME (_ : nat) (prompt : string) : result string :=
  Ret (if contains "Fix the error and try again." prompt
       then "env.refresh()" else "raise ValueError('boom')").

(** The instructions the engine ran a snippet for, oldest first: a call
    of the engine counts for the instruction the generator was last asked
    for, [current]. *)
Fixpoint ran (current : option string) (l : list event) : list string :=
  match l with
  | [] => []
  | CallCodeGenerator instruction _ _ :: rest => ran (Some instruction) rest
  | CallExecute _ :: rest =>
      match current with
      | Some instruction => instruction :: ran current rest
      | None => ran current rest
      end
  | _ :: rest => ran current rest
  end.

(** The instruction the generator was last asked for. *)
Fixpoint asked (current : option string) (l : list event) : option string :=
  match l with
  | [] => current
  | CallCodeGenerator instruction _ _ :: rest => asked (Some instruction) rest
  | _ :: rest => asked current rest
  end.

(** The actions of a queue in order, each as many times as the number at
    its place says. *)
Definition repeated (queue : list string) (times : list nat) : list string :=
  concat (zip_with (fun action n => List.repeat action n) queue times).


(** A world in which no browser can be started. *)
Definition NO_BROWSER : Runtime nat :=
  Scripted.world (fun _ => None)
                 (Some (Exc "WebDriverException" "chrome not reachable" true
                            EmptyString))
                 (fun _ _ => Ret "env.wait(1)").

(** A snippet whose fault cannot be printed: [str] of a [Bad] raises a
    [Worse], and [str] of a [Worse] raises a [RuntimeError]. *)
Definition UNPRINTABLE : string :=
  "class Worse(Exception):" +:+ NL
  +:+ "    def __str__(self):" +:+ NL
  +:+ "        raise RuntimeError('no text')" +:+ NL
  +:+ "class Bad(Exception):" +:+ NL
  +:+ "    def __str__(self):" +:+ NL
  +:+ "        raise Worse()" +:+ NL
  +:+ "raise Bad()".

(** The faults of that snippet; only the traceback of the first, which
    [execute] handles, could be formatted, and [str] raises before. *)
Definition NO_TEXT : py_exception :=
  Exc "RuntimeError" "no text" true EmptyString.
Definition WORSE : py_exception := ExcStr "Worse" NO_TEXT true EmptyString.
Definition BAD : py_exception := ExcStr "Bad" WORSE true EmptyString.

(** A world whose remote model answers with that snippet. *)
Definition UNPRINTABLE_WORLD : Runtime nat :=
  Scripted.world
    (fun code => if String.eqb code UNPRINTABLE then Some BAD
                 else Python.raise_statement code)
    None
    (fun _ _ => Ret UNPRINTABLE).

(** A remote model that wraps its snippet in a code fence. *)
Definition FENCED (_ : nat) (_ : string) : result string :=
  Ret ("```python" +:+ NL +:+ "env.wait(1)" +:+ NL +:+ "```").

End FurtherVocabulary.

(** * Properties *)

(** ** The string primitives *)

Section StringFacts.
Import Py.

Lemma lstrip_no_lead s : no_lead (lstrip s).
Proof.
  induction s as [|c s IH]; simpl; [exact I|].
  destruct (is_space c) eqn:E; [exact IH | exact E].
Qed.

Lemma lstrip_fixed s : no_lead s -> lstrip s = s.
Proof.
  destruct s as [|c s]; simpl; [reflexivity|].
  intros ->. reflexivity.
Qed.

Lemma rstrip_no_lead s : no_lead s -> no_lead (rstrip s).
Proof.
  destruct s as [|c s]; simpl; [trivial|].
  intros E. destruct (rstrip s); rewrite ?E; exact E.
Qed.

Lemma rstrip_idem s : rstrip (rstrip s) = rstrip s.
Proof.
  induction s as [|c s IH]; simpl; [reflexivity|].
  destruct (rstrip s) as [|d r] eqn:E.
  - destruct (is_space c) eqn:Ec; simpl; [reflexivity|].
    rewrite Ec. reflexivity.
  - change (rstrip (String c (String d r)))
      with (match rstrip (String d r) with
            | EmptyString =>
                if is_space c then EmptyString else String c EmptyString
            | r' => String c r'
            end).
    rewrite IH. reflexivity.
Qed.

Lemma strip_idem s : strip (strip s) = strip s.
Proof.
  unfold strip.
  rewrite (lstrip_fixed (rstrip (lstrip s))).
  - apply rstrip_idem.
  - apply rstrip_no_lead, lstrip_no_lead.
Qed.

Lemma split_lines_newline_free x :
  newline_free x = true -> split_lines x = [x].
Proof.
  induction x as [|c x IH]; simpl; [reflexivity|].
  intros E. apply andb_prop in E as [Ec Ex].
  apply negb_true_iff in Ec. rewrite Ec, (IH Ex). reflexivity.
Qed.

Lemma split_lines_app x rest :
  newline_free x = true ->
  split_lines (x +:+ NL +:+ rest) = x :: split_lines rest.
Proof.
  induction x as [|c x IH]; simpl; [reflexivity|].
  intros E. apply andb_prop in E as [Ec Ex].
  apply negb_true_iff in Ec. rewrite Ec.
  change (String.append x (String LF rest)) with (x +:+ NL +:+ rest).
  rewrite (IH Ex). reflexivity.
Qed.

(** Splitting a joined block gives the block back. *)
Lemma split_lines_join x xs :
  Forall (fun a => newline_free a = true) (x :: xs) ->
  split_lines (join NL (x :: xs)) = x :: xs.
Proof.
  revert x. induction xs as [|y ys IH]; intros x Hall.
  - simpl. apply split_lines_newline_free. now inversion Hall.
  - inversion Hall as [|? ? Hx Hrest]; subst.
    change (join NL (x :: y :: ys)) with (x +:+ NL +:+ join NL (y :: ys)).
    rewrite (split_lines_app _ _ Hx), (IH y Hrest). reflexivity.
Qed.

Lemma startswith_app p rest : startswith p (p +:+ rest) = true.
Proof.
  induction p as [|c p IH]; simpl; [reflexivity|].
  rewrite Ascii.eqb_refl. exact IH.
Qed.

Lemma contains_here sub s : startswith sub s = true -> contains sub s = true.
Proof. destruct s; simpl; intros ->; reflexivity. Qed.

Lemma contains_app_r pre sub s :
  contains sub s = true -> contains sub (pre +:+ s) = true.
Proof.
  induction pre as [|c pre IH]; simpl; [trivial|].
  intros E. rewrite (IH E). apply orb_true_r.
Qed.

(** A string contains each of its pieces. *)
Lemma contains_middle pre sub post :
  contains sub (pre +:+ sub +:+ post) = true.
Proof. apply contains_app_r, contains_here, startswith_app. Qed.

End StringFacts.

(** ** The instruction parser *)

Section ParserFacts.
Import Py InstructionParser.

(** [split()[-1]] is defined on every line the parser takes a name from. *)
Lemma split_strip_nonempty l :
  is_empty (strip l) = false -> split (strip l) <> [].
Proof.
  unfold strip. intros E.
  pose proof (rstrip_no_lead _ (lstrip_no_lead l)) as Hlead.
  destruct (rstrip (lstrip l)) as [|c s]; [discriminate|].
  simpl in Hlead. simpl. rewrite Hlead.
  destruct s as [|d s]; [discriminate|].
  destruct (is_space d); [discriminate|].
  destruct (split (String d s)); discriminate.
Qed.

(** Each iteration of the queue loop only appends. *)
Lemma build_step_app fs queue l :
  build_step fs queue l = queue ++ build_step fs [] l.
Proof.
  unfold build_step.
  destruct (skipped (strip l)); [now rewrite app_nil_r|].
  destruct (startswith FUNCTION_START (strip l) || startswith FUNCTION_END (strip l));
    [now rewrite app_nil_r|].
  destruct (startswith CALL_FUNCTION (strip l)); [|reflexivity].
  destruct (fs !! last_word (strip l)); [reflexivity | now rewrite app_nil_r].
Qed.

Lemma build_fold fs lines queue :
  fold_left (build_step fs) lines queue
  = queue ++ concat (map (build_step fs []) lines).
Proof.
  revert queue. induction lines as [|l lines IH]; intros queue; simpl.
  - now rewrite app_nil_r.
  - rewrite IH, (build_step_app fs queue l), <- app_assoc. reflexivity.
Qed.

(** A line that starts with the call marker is no comment and no
    definition marker. *)
Lemma call_line line :
  startswith CALL_FUNCTION line = true ->
  skipped line = false
  /\ startswith FUNCTION_START line || startswith FUNCTION_END line = false.
Proof.
  unfold CALL_FUNCTION, skipped, FUNCTION_START, FUNCTION_END, COMMENT.
  destruct line as [|a line]; cbn [startswith]; [discriminate|].
  destruct (Ascii.eqb_spec "C"%char a) as [<-|]; [|discriminate].
  intros _. split; reflexivity.
Qed.

Lemma build_step_instruction fs l :
  is_instruction l = true -> build_step fs [] l = [strip l].
Proof.
  unfold is_instruction, build_step. intros E.
  apply andb_prop in E as [E E3]. apply andb_prop in E as [E1 E2].
  apply negb_true_iff in E1, E2, E3. rewrite E1, E2, E3. reflexivity.
Qed.

Lemma instructions_sublist fs lines :
  map strip (List.filter is_instruction lines)
    `sublist_of` concat (map (build_step fs []) lines).
Proof.
  induction lines as [|l lines IH]; simpl; [constructor|].
  destruct (is_instruction l) eqn:E.
  - rewrite (build_step_instruction fs l E). simpl. now constructor.
  - now apply sublist_inserts_l.
Qed.

Lemma clean_strip l : skipped (strip l) = false -> clean (strip l).
Proof. intros E. split; [apply strip_idem | exact E]. Qed.

Lemma extract_loop_clean lines :
  forall cur fs,
    map_Forall (fun _ body => Forall clean body) fs ->
    match cur with Some (_, body) => Forall clean body | None => True end ->
    map_Forall (fun (_ : string) body => Forall clean body)
               (extract_loop lines cur fs).
Proof.
  induction lines as [|l lines IH]; intros cur fs Hfs Hcur; cbn [extract_loop].
  - destruct cur as [[name body]|]; [|exact Hfs].
    now apply map_Forall_insert_2.
  - destruct cur as [[name body]|].
    + destruct (startswith FUNCTION_END (strip l)).
      * apply IH; [now apply map_Forall_insert_2 | exact I].
      * destruct (negb (is_empty (strip l)) && negb (startswith COMMENT (strip l)))
          eqn:E.
        -- apply IH; [exact Hfs|].
           apply Forall_app. split; [exact Hcur|].
           constructor; [|constructor].
           apply clean_strip. unfold skipped.
           apply andb_prop in E as [E1 E2].
           apply negb_true_iff in E1, E2. now rewrite E1, E2.
        -- now apply IH.
    + destruct (skipped (strip l)); [now apply IH|].
      destruct (startswith FUNCTION_START (strip l)); apply IH;
        try exact Hfs; try exact I. constructor.
Qed.

Lemma build_step_clean fs queue l :
  map_Forall (fun (_ : string) body => Forall clean body) fs ->
  Forall clean queue -> Forall clean (build_step fs queue l).
Proof.
  intros Hfs Hq. unfold build_step.
  destruct (skipped (strip l)) eqn:E; [exact Hq|].
  destruct (startswith FUNCTION_START (strip l) || startswith FUNCTION_END (strip l));
    [exact Hq|].
  destruct (startswith CALL_FUNCTION (strip l)).
  - destruct (fs !! last_word (strip l)) as [body|] eqn:Hb; [|exact Hq].
    apply Forall_app. split; [exact Hq|]. exact (Hfs _ _ Hb).
  - apply Forall_app. split; [exact Hq|].
    constructor; [|constructor]. now apply clean_strip.
Qed.

Lemma build_fold_clean fs lines :
  map_Forall (fun (_ : string) body => Forall clean body) fs ->
  forall queue, Forall clean queue ->
                Forall clean (fold_left (build_step fs) lines queue).
Proof.
  intros Hfs. induction lines as [|l lines IH]; intros queue Hq; simpl.
  - exact Hq.
  - apply IH. now apply build_step_clean.
Qed.

Lemma flatten_snoc blocks x xs :
  Forall (fun a => newline_free a = true) (x :: xs) ->
  flatten (blocks ++ [join NL (x :: xs)]) = flatten blocks ++ x :: xs.
Proof.
  intros Hall. unfold flatten.
  rewrite map_app, concat_app. cbn [map concat].
  rewrite (split_lines_join x xs Hall), app_nil_r. reflexivity.
Qed.

Lemma group_loop_flatten actions :
  forall grouped current_block,
    Forall (fun a => newline_free a = true) actions ->
    Forall (fun a => newline_free a = true) current_block ->
    let '(g, c) := group_loop actions grouped current_block in
    flatten g ++ c = flatten grouped ++ current_block ++ actions
    /\ Forall (fun a => newline_free a = true) c.
Proof.
  induction actions as [|a actions IH]; intros grouped cb Hact Hcb;
    cbn [group_loop].
  - rewrite app_nil_r. split; [reflexivity | exact Hcb].
  - inversion Hact as [|? ? Ha Hrest]; subst.
    destruct (is_continuation a && nonempty cb) eqn:E.
    + specialize (IH grouped (cb ++ [a]) Hrest).
      destruct (group_loop actions grouped (cb ++ [a])) as [g c].
      destruct IH as [IH1 IH2].
      { apply Forall_app. split; [exact Hcb | now constructor]. }
      split; [|exact IH2]. rewrite IH1, <- app_assoc. reflexivity.
    + destruct cb as [|x xs]; cbn [nonempty].
      * specialize (IH grouped [a] Hrest).
        destruct (group_loop actions grouped [a]) as [g c].
        destruct IH as [IH1 IH2]; [now constructor|].
        split; [exact IH1 | exact IH2].
      * specialize (IH (grouped ++ [join NL (x :: xs)]) [a] Hrest).
        destruct (group_loop actions (grouped ++ [join NL (x :: xs)]) [a])
          as [g c].
        destruct IH as [IH1 IH2]; [now constructor|].
        split; [|exact IH2].
        rewrite IH1, (flatten_snoc grouped x xs Hcb), <- app_assoc.
        reflexivity.
Qed.

End ParserFacts.

Section ParserClaims.
Import Py InstructionParser.

(** C1: on the input of scenario B a fresh parser returns five entries,
    not three: the queue loop skips the two marker lines of a definition
    but not the body between them, so the two body lines are queued once
    where they are defined and once more where the macro is called.  The
    same holds on the text of the repository's own test, which expects
    three actions. *)
Theorem scenario_B_queue :
  snd (parse init SCENARIO_B)
  = ["Type username"; "Type password";
     "Type username"; "Type password"; "Wait 2 seconds"]
  /\ snd (parse init TEST_FUNCTION_CALL_EXPANSION)
     = ["Navigate to site"; "Wait 2 seconds";
        "Navigate to site"; "Wait 2 seconds"; "Click button"].
Proof. split; vm_compute; reflexivity. Qed.

Lemma parse_extends_queue self i :
  exists added, snd (parse self i) = action_queue self ++ added.
Proof.
  unfold parse, _build_action_queue, _extract_functions. cbn [snd action_queue functions].
  rewrite build_fold. eauto.
Qed.

(** C8: a call to a name that no definition of the input binds adds
    nothing to the queue: the queue is the one built from the other
    lines, with the same definitions, and every plain instruction around
    the call is in it, in the order of the input. *)
Theorem undefined_call_skipped (self : t) (i : instructions)
        (pre post : list string) (c : string) :
  lines_of i = pre ++ c :: post ->
  startswith CALL_FUNCTION (strip c) = true ->
  functions (_extract_functions self (lines_of i)) !! last_word (strip c) = None ->
  snd (parse self i)
  = action_queue
      (_build_action_queue (_extract_functions self (lines_of i)) (pre ++ post))
  /\ map strip (List.filter is_instruction (pre ++ post))
       `sublist_of` snd (parse self i).
Proof.
  intros Hlines Hcall Hundef.
  destruct (call_line _ Hcall) as [Hskip Hmark].
  unfold parse. cbn zeta. cbn [snd].
  set (self1 := _extract_functions self (lines_of i)) in *.
  assert (Hstep : build_step (functions self1) [] c = []).
  { unfold build_step. rewrite Hskip, Hmark, Hcall, Hundef. reflexivity. }
  unfold _build_action_queue. cbn [action_queue functions].
  rewrite !build_fold, Hlines.
  rewrite !map_app, !concat_app. cbn [map concat].
  rewrite Hstep. cbn [app]. split; [reflexivity|].
  rewrite <- concat_app, <- map_app.
  apply sublist_inserts_l, instructions_sublist.
Qed.

Lemma undefined_call_skipped_witness :
  snd (parse init (Lines ["Open page"; "  CALL undefined_function"; "Navigate to site"]))
  = ["Open page"; "Navigate to site"]
  /\ ["Open page"; "Navigate to site"]
       `sublist_of`
       snd (parse init (Lines ["Open page"; "  CALL undefined_function"; "Navigate to site"])).
Proof.
  exact (undefined_call_skipped
           init (Lines ["Open page"; "  CALL undefined_function"; "Navigate to site"])
           ["Open page"] ["Navigate to site"] "  CALL undefined_function"
           eq_refl eq_refl eq_refl).
Defined.

(** C9, as stated, fails: a comment marker inside a line stays in the
    queued instruction. *)
Lemma comment_marker_inside_line :
  ~ (forall (i : instructions) (a : string),
        In a (snd (parse init i)) ->
        strip a = a /\ contains COMMENT a = false).
Proof.
  intros Hall.
  destruct (Hall (Lines ["Click #submit"]) "Click #submit") as [_ Hno].
  - vm_compute. now left.
  - vm_compute in Hno. discriminate.
Qed.

(** C9, amended: every instruction in the queue and every recorded body
    line is trimmed, is not empty and does not begin with the comment
    marker; [parse] keeps it so, and returns the queue of the parser. *)
Theorem parse_keeps_lines_clean (self : t) (i : instructions) :
  well_formed self ->
  well_formed (fst (parse self i))
  /\ Forall clean (snd (parse self i)).
Proof.
  intros [Hq Hfs].
  assert (Hfs' : map_Forall (fun (_ : string) body => Forall clean body)
                            (extract_loop (lines_of i) None (functions self))).
  { now apply extract_loop_clean. }
  assert (Hq' : Forall clean (snd (parse self i))).
  { unfold parse, _build_action_queue, _extract_functions.
    cbn [snd action_queue functions]. now apply build_fold_clean. }
  split; [|exact Hq'].
  split; [exact Hq' | exact Hfs'].
Qed.

Lemma parse_keeps_lines_clean_witness :
  well_formed (fst (parse init SCENARIO_B))
  /\ Forall clean (snd (parse init SCENARIO_B)).
Proof.
  apply (parse_keeps_lines_clean init SCENARIO_B).
  split; [constructor | apply map_Forall_empty].
Defined.

(** C10: for actions without a line break, the blocks of
    [group_related_actions], split at line breaks and put end to end, are
    the actions again; the method leaves the parser as it was. *)
Theorem group_related_actions_preserves (self : t) (actions : list string) :
  Forall (fun a => newline_free a = true) actions ->
  fst (group_related_actions self actions) = self
  /\ concat (map split_lines (snd (group_related_actions self actions))) = actions.
Proof.
  intros Hall. unfold group_related_actions.
  pose proof (group_loop_flatten actions [] [] Hall (List.Forall_nil _)) as Hloop.
  destruct (group_loop actions [] []) as [g c].
  destruct Hloop as [Hflat Hc]. cbn [fst snd]. split; [reflexivity|].
  destruct c as [|x xs]; cbn [nonempty].
  - rewrite app_nil_r in Hflat. exact Hflat.
  - fold (flatten (g ++ [join NL (x :: xs)])).
    rewrite (flatten_snoc g x xs Hc). exact Hflat.
Qed.

Lemma group_related_actions_preserves_witness :
  fst (group_related_actions
         init ["Navigate to site"; "Then click button"; "And type text";
               "Take screenshot"]) = init
  /\ concat (map split_lines
                 (snd (group_related_actions
                         init ["Navigate to site"; "Then click button";
                               "And type text"; "Take screenshot"])))
     = ["Navigate to site"; "Then click button"; "And type text";
        "Take screenshot"].
Proof.
  apply (group_related_actions_preserves init).
  repeat constructor.
Defined.

End ParserClaims.

(** ** Frames: what a computation leaves as it was *)

Section Preserves.
Context {W : Type}.
Variable Rel : heap W -> heap W -> Prop.
Hypothesis Rel_refl : forall h, Rel h h.
Hypothesis Rel_trans : forall h1 h2 h3, Rel h1 h2 -> Rel h2 h3 -> Rel h1 h3.

Lemma preserves_ret {A} (a : A) : preserves Rel (ret a).
Proof. intros h. apply Rel_refl. Qed.

Lemma preserves_raise {A} e : preserves Rel (raise (A:=A) e).
Proof. intros h. apply Rel_refl. Qed.

Lemma preserves_get : preserves Rel get.
Proof. intros h. apply Rel_refl. Qed.

Lemma preserves_modify f : (forall h, Rel h (f h)) -> preserves Rel (modify f).
Proof. intros Hf h. apply Hf. Qed.

Lemma preserves_bind {A B} (m : M A) (k : A -> M B) :
  preserves Rel m -> (forall a, preserves Rel (k a)) -> preserves Rel (bind m k).
Proof.
  intros Hm Hk h. unfold bind. specialize (Hm h).
  destruct (m h) as [[a|e] h1]; cbn [snd] in *.
  - eapply Rel_trans; [exact Hm | apply Hk].
  - exact Hm.
Qed.

Lemma preserves_try_except {A} (m : M A) handler :
  preserves Rel m -> (forall e, preserves Rel (handler e)) ->
  preserves Rel (try_except m handler).
Proof.
  intros Hm Hk h. unfold try_except. specialize (Hm h).
  destruct (m h) as [[a|e] h1]; cbn [snd] in *; [exact Hm|].
  destruct (exc_is_Exception e); [|exact Hm].
  eapply Rel_trans; [exact Hm | apply Hk].
Qed.

End Preserves.

Section Frames.
Context {W : Type} {R : Runtime W}.

Lemma frame_refl ok (h : heap W) : frame ok h h.
Proof.
  repeat split. exists []. now rewrite app_nil_r.
Qed.

Lemma frame_trans ok (h1 h2 h3 : heap W) :
  frame ok h1 h2 -> frame ok h2 h3 -> frame ok h1 h3.
Proof.
  intros (C1 & P1 & G1 & l1 & L1 & O1) (C2 & P2 & G2 & l2 & L2 & O2).
  repeat split; try congruence.
  exists (l1 ++ l2). split.
  - rewrite L2, L1, <- app_assoc. reflexivity.
  - rewrite forallb_app, O1, O2. reflexivity.
Qed.

Lemma frame_weaken (ok ok' : event -> bool) (h h' : heap W) :
  (forall e, ok e = true -> ok' e = true) -> frame ok h h' -> frame ok' h h'.
Proof.
  intros Himp (C1 & P1 & G1 & l1 & L1 & O1).
  repeat split; try assumption.
  exists l1. split; [exact L1|].
  apply forallb_forall. intros e He.
  apply Himp. rewrite forallb_forall in O1. now apply O1.
Qed.

Lemma frame_record ok e : ok e = true -> preserves (frame ok) (record (W:=W) e).
Proof.
  intros He h. repeat split. exists [e]. split; [reflexivity|].
  cbn. now rewrite He.
Qed.

Lemma same_objects_refl (h : heap W) : same_objects h h.
Proof. split; reflexivity. Qed.

Lemma same_objects_trans (h1 h2 h3 : heap W) :
  same_objects h1 h2 -> same_objects h2 h3 -> same_objects h1 h3.
Proof. intros [A1 B1] [A2 B2]. split; congruence. Qed.

Lemma provider_frame_refl (h : heap W) : provider_frame h h.
Proof. split; [apply frame_refl | apply same_objects_refl]. Qed.

Lemma provider_frame_trans (h1 h2 h3 : heap W) :
  provider_frame h1 h2 -> provider_frame h2 h3 -> provider_frame h1 h3.
Proof.
  intros [A1 B1] [A2 B2].
  split; [eapply frame_trans | eapply same_objects_trans]; eassumption.
Qed.

Lemma provider_record e :
  is_backend e = true -> preserves provider_frame (record (W:=W) e).
Proof.
  intros He h. split; [now apply frame_record | split; reflexivity].
Qed.

Lemma provider_frame_world (h : heap W) w : provider_frame h (set_world w h).
Proof.
  split; [|split; reflexivity].
  repeat split. exists []. cbn. now rewrite app_nil_r.
Qed.

Lemma provider_frame_ai (h : heap W) a : provider_frame h (set_ai a h).
Proof.
  split; [|split; reflexivity].
  repeat split. exists []. cbn. now rewrite app_nil_r.
Qed.

Lemma provider_call_model prompt :
  preserves provider_frame (GeminiProvider.call_model prompt).
Proof.
  apply preserves_bind;
    [apply provider_frame_trans | now apply provider_record |].
  intros _ h. destruct (generate_content (world h) prompt) as [w r].
  apply provider_frame_world.
Qed.

Lemma provider_generate prompt use_cache :
  preserves provider_frame (GeminiProvider.generate prompt use_cache).
Proof.
  unfold GeminiProvider.generate.
  apply preserves_bind;
    [apply provider_frame_trans | now apply provider_record |].
  intros _. apply preserves_bind;
    [apply provider_frame_trans | apply preserves_get, provider_frame_refl |].
  intros h0.
  destruct (if use_cache then _cache (ai h0) !! prompt else None);
    [apply preserves_ret, provider_frame_refl|].
  apply preserves_bind;
    [apply provider_frame_trans | apply provider_call_model |].
  intros text. apply preserves_bind;
    [apply provider_frame_trans | | intros; apply preserves_ret, provider_frame_refl].
  destruct use_cache; [|apply preserves_ret, provider_frame_refl].
  apply preserves_modify. intros h. apply provider_frame_ai.
Qed.

Lemma provider_retry_loop max_retries remaining prompt :
  forall attempt,
    preserves provider_frame
              (GeminiProvider.retry_loop max_retries attempt remaining prompt).
Proof.
  induction remaining as [|remaining IH]; intros attempt;
    cbn [GeminiProvider.retry_loop].
  - apply preserves_ret, provider_frame_refl.
  - apply preserves_try_except; [apply provider_frame_trans | |].
    + apply preserves_bind;
        [apply provider_frame_trans | apply provider_generate |].
      intros. apply preserves_ret, provider_frame_refl.
    + intros e. destruct (attempt <? max_retries - 1)%nat; [apply IH|].
      apply preserves_raise, provider_frame_refl.
Qed.

(** One call of the interface records itself and then only calls below
    it. *)
Lemma interface_generate_with_retry prompt (h : heap W) :
  let h' := snd (AIModelInterface.generate_with_retry prompt h) in
  config h' = config h
  /\ parser h' = parser h
  /\ code_generator h' = code_generator h
  /\ engine h' = engine h
  /\ exists l, calls h' = calls h ++ CallGenerateWithRetry prompt :: l
               /\ forallb is_backend l = true.
Proof.
  unfold AIModelInterface.generate_with_retry, bind, record, modify.
  cbn zeta.
  pose proof (provider_retry_loop
                AIModelInterface.DEFAULT_MAX_RETRIES
                AIModelInterface.DEFAULT_MAX_RETRIES prompt 0
                (set_calls (calls h ++ [CallGenerateWithRetry prompt]) h))
    as [(C & P & _ & l & L & O) [G E]].
  unfold GeminiProvider.generate_with_retry.
  repeat split; try assumption.
  exists l. split; [|exact O].
  rewrite L. cbn [calls set_calls]. rewrite <- app_assoc. reflexivity.
Qed.

End Frames.

Section GeneratorFacts.
Context {W : Type} {R : Runtime W}.
Import CodeGenerator.

Lemma generate_spec instruction context retry_on_error (h : heap W) :
  let key := cache_key instruction context retry_on_error in
  let r := fst (generate instruction context retry_on_error h) in
  let h1 := snd (generate instruction context retry_on_error h) in
  config h1 = config h
  /\ parser h1 = parser h
  /\ engine h1 = engine h
  /\ cache_enabled (code_generator h1) = cache_enabled (code_generator h)
  /\ exists l,
      calls h1 = calls h ++ CallCodeGenerator instruction context retry_on_error :: l
      /\ (cache_enabled (code_generator h) = true ->
          forall code, _code_cache (code_generator h) !! key = Some code ->
                       r = Ret code /\ l = []
                       /\ code_generator h1 = code_generator h)
      /\ (cache_enabled (code_generator h) = false
          \/ _code_cache (code_generator h) !! key = None ->
          exists l', l = CallGenerateWithRetry
                           (_build_prompt instruction context retry_on_error) :: l'
                     /\ forallb is_backend l' = true)
      /\ (cache_enabled (code_generator h) = true ->
          forall code, r = Ret code ->
                       _code_cache (code_generator h1) !! key = Some code).
Proof.
  intros key r h1. subst r h1.
  unfold generate, bind, record, modify, get. cbn zeta.
  set (h0 := set_calls (calls h ++ [CallCodeGenerator instruction context retry_on_error]) h).
  fold key.
  change (code_generator h0) with (code_generator h).
  assert (Hc0 : calls h0 = calls h ++ [CallCodeGenerator instruction context retry_on_error])
    by reflexivity.
  pose proof (interface_generate_with_retry
                (_build_prompt instruction context retry_on_error) h0)
    as (C & P & G & E & l & L & O).
  cbn zeta in C, P, G, E, L.
  destruct (AIModelInterface.generate_with_retry
              (_build_prompt instruction context retry_on_error) h0)
    as [res h'] eqn:Hgen.
  cbn [snd] in C, P, G, E, L.
  change (config h0) with (config h) in C.
  change (parser h0) with (parser h) in P.
  change (code_generator h0) with (code_generator h) in G.
  change (engine h0) with (engine h) in E.
  assert (L' : calls h' = calls h ++ CallCodeGenerator instruction context retry_on_error
                                :: CallGenerateWithRetry
                                     (_build_prompt instruction context retry_on_error)
                                :: l).
  { rewrite L, Hc0, <- app_assoc. reflexivity. }
  destruct (cache_enabled (code_generator h)) eqn:Hen.
  - destruct (_code_cache (code_generator h) !! key) as [cached|] eqn:Hlook.
    + cbn [ret fst snd].
      split; [reflexivity|]. split; [reflexivity|].
      split; [reflexivity|]. split; [exact Hen|].
      exists []. split; [exact Hc0|]. split; [|split].
      * intros _ code [= <-]. repeat split.
      * intros [?|?]; discriminate.
      * intros _ code [= <-]. exact Hlook.
    + cbn beta. rewrite Hgen.
      destruct res as [[code|]|e]; cbn [raise ret fst snd];
        [rewrite G, Hen;
         cbn [ret fst snd set_code_generator config parser engine
                  code_generator cache_enabled _code_cache calls]|..];
        (split; [exact C|]); (split; [exact P|]); (split; [exact E|]);
        (split; [congruence|]);
        exists (CallGenerateWithRetry
                  (_build_prompt instruction context retry_on_error) :: l);
        (split; [exact L'|]); (split; [|split]);
        [intros _ ? ?; discriminate | intros _; eauto | intros _ code' Hr
        |intros _ ? ?; discriminate | intros _; eauto | intros _ code' Hr
        |intros _ ? ?; discriminate | intros _; eauto | intros _ code' Hr];
        try discriminate Hr.
      injection Hr as <-. apply lookup_insert_eq.
  - cbn beta. rewrite Hgen.
    destruct res as [[code|]|e]; cbn [raise ret fst snd];
      [rewrite G, Hen; cbn [ret fst snd]|..];
      (split; [exact C|]); (split; [exact P|]); (split; [exact E|]);
      (split; [congruence|]);
      exists (CallGenerateWithRetry
                (_build_prompt instruction context retry_on_error) :: l);
      (split; [exact L'|]); (split; [|split]);
      [discriminate | eauto | discriminate
       | discriminate | eauto | discriminate
       | discriminate | eauto | discriminate].
Qed.

End GeneratorFacts.

Section Counting.

Lemma count_app p l1 l2 : count p (l1 ++ l2) = count p l1 + count p l2.
Proof.
  unfold count. rewrite List.filter_app, List.length_app. reflexivity.
Qed.

Lemma count_none p q l :
  (forall e, q e = true -> p e = false) ->
  forallb q l = true -> count p l = 0.
Proof.
  intros Hpq. induction l as [|e l IH]; [reflexivity|].
  cbn [forallb]. intros Hall. apply andb_prop in Hall as [He Hl].
  unfold count in *. cbn [List.filter]. rewrite (Hpq e He). now apply IH.
Qed.

Lemma backend_not_interface e :
  is_backend e = true -> is_CallGenerateWithRetry e = false.
Proof. destruct e; cbn; congruence. Qed.

Lemma backend_not_generator e :
  is_backend e = true -> is_CallCodeGenerator e = false.
Proof. destruct e; cbn; congruence. Qed.

Lemma backend_not_execute e :
  is_backend e = true -> is_CallExecute e = false.
Proof. destruct e; cbn; congruence. Qed.

End Counting.

(** ** The code generator *)

Section GeneratorClaims.
Import Py CodeGenerator.

(** C6: post-processing leaves a snippet that only defines [main]
    without the call: the indented body line counts as a direct call, so
    the snippet is returned as it is and running it invokes nothing. *)
Theorem uncalled_main_stays_uncalled :
  _clean_code UNCALLED_MAIN
  = "def main(env):" +:+ NL +:+ "            env.navigate('https://example.com')"
  /\ contains "def main" (_clean_code UNCALLED_MAIN) = true
  /\ existsb is_direct_call (split_lines (_clean_code UNCALLED_MAIN)) = true
  /\ contains "# Execute" (_clean_code UNCALLED_MAIN) = false.
Proof. vm_compute. repeat split. Qed.

(** C7: the key is the three texts joined by colons, with [None] printed
    as a word, and two different tuples can have the same key: after a
    first attempt, a retry whose error text is the word None is answered
    from the cache with the snippet of the first attempt, and the provider
    is not asked, although the two prompts differ and a generator with an
    empty cache returns another snippet for the retry. *)
Theorem cache_key_collision :
  (("Click login", None, None) : string * option string * option string)
    <> ("Click login", None, Some "None")
  /\ cache_key "Click login" None None = cache_key "Click login" None (Some "None")
  /\ _build_prompt "Click login" None None
     <> _build_prompt "Click login" None (Some "None")
  /\ (let h0 := BrowserAutomator.init (Scripted.config 3 true) 0 in
      let h1 := snd (generate_in ANSWERS "Click login" None None h0) in
      let second := generate_in ANSWERS "Click login" None (Some "None") in
      fst (generate_in ANSWERS "Click login" None None h0) = Ret "env.wait(1)"
      /\ fst (second h0) = Ret "env.refresh()"
      /\ fst (second h1) = Ret "env.wait(1)"
      /\ count is_CallGenerateWithRetry (calls (snd (second h1))) = 1).
Proof.
  split; [discriminate|]. split; [reflexivity|]. split.
  - intros Heq.
    assert (Hc : contains "Fix the error and try again."
                          (_build_prompt "Click login" None None)
                 = contains "Fix the error and try again."
                            (_build_prompt "Click login" None (Some "None")))
      by (rewrite Heq; reflexivity).
    vm_compute in Hc. discriminate.
  - vm_compute. repeat split.
Qed.

(** C3, as stated, fails: with caching enabled, two calls with the same
    tuple invoke the provider twice when the first call faults, since a
    fault leaves nothing in the cache. *)
Lemma failed_generation_is_not_cached :
  cache_enabled (code_generator (BrowserAutomator.init (Scripted.config 3 true) 0))
  = true
  /\ ~ (count is_CallGenerateWithRetry
              (calls (snd (generate_in UNAVAILABLE "Click button" None None
                             (snd (generate_in UNAVAILABLE "Click button" None None
                                     (BrowserAutomator.init (Scripted.config 3 true) 0))))))
        <= 1).
Proof. vm_compute. split; [reflexivity | lia]. Qed.

(** With caching disabled in the generator the provider still keeps its
    own cache of responses by prompt: of two calls with the same tuple both
    reach the provider, and the second is answered there without a call of
    the remote model. *)
Lemma provider_cache_answers_second_call :
  let h2 := snd (generate_in ANSWERS "Click button" None None
                   (snd (generate_in ANSWERS "Click button" None None
                           (BrowserAutomator.init (Scripted.config 3 false) 0)))) in
  count is_CallGenerateWithRetry (calls h2) = 2
  /\ count is_CallProviderGenerate (calls h2) = 2
  /\ count is_CallModel (calls h2) = 1.
Proof. vm_compute. repeat split. Qed.

(** C3, amended: two calls with the same tuple.  With caching enabled, if
    the first call returns a snippet, the second returns the same snippet
    and the two calls invoke the provider at most once; with caching
    disabled they invoke it exactly twice. *)
Theorem generate_twice {W : Type} {R : Runtime W} (h : heap W)
        (instruction : string) (context retry_on_error : option string) :
  let m := generate instruction context retry_on_error in
  let h1 := snd (m h) in
  let h2 := snd (m h1) in
  let invoked :=
    count is_CallGenerateWithRetry (calls h2)
    - count is_CallGenerateWithRetry (calls h) in
  (cache_enabled (code_generator h) = true ->
   forall code, fst (m h) = Ret code ->
                fst (m h1) = Ret code /\ invoked <= 1)
  /\ (cache_enabled (code_generator h) = false -> invoked = 2).
Proof.
  intros m h1 h2 invoked. subst invoked h2 h1 m.
  pose proof (generate_spec instruction context retry_on_error h)
    as (_ & _ & _ & En1 & l1 & L1 & Hit1 & Miss1 & Post1).
  pose proof (generate_spec instruction context retry_on_error
                            (snd (generate instruction context retry_on_error h)))
    as (_ & _ & _ & _ & l2 & L2 & Hit2 & Miss2 & _).
  cbn zeta in *. rewrite En1 in Hit2, Miss2.
  rewrite L2, L1, !count_app.
  change (?a :: ?l) with ([a] ++ l).
  rewrite !count_app. split.
  - intros Hen code Hr.
    destruct (Hit2 Hen code (Post1 Hen code Hr)) as (Hr2 & -> & _).
    split; [exact Hr2|].
    destruct (_code_cache (code_generator h)
                !! cache_key instruction context retry_on_error) as [cached|] eqn:Hlook.
    + destruct (Hit1 Hen cached eq_refl) as (_ & -> & _). cbn. lia.
    + destruct (Miss1 (or_intror eq_refl)) as (l' & -> & Hl').
      change (?a :: l') with ([a] ++ l'). rewrite count_app.
      rewrite (count_none _ _ l' backend_not_interface Hl'). cbn. lia.
  - intros Hen.
    destruct (Miss1 (or_introl Hen)) as (l1' & -> & Hl1).
    destruct (Miss2 (or_introl Hen)) as (l2' & -> & Hl2).
    change (?a :: l1') with ([a] ++ l1'). change (?a :: l2') with ([a] ++ l2').
    rewrite !count_app.
    rewrite (count_none _ _ l1' backend_not_interface Hl1).
    rewrite (count_none _ _ l2' backend_not_interface Hl2). cbn. lia.
Qed.

Lemma generate_twice_witness :
  (fst (generate_in ANSWERS "Click button" None None
          (snd (generate_in ANSWERS "Click button" None None
                  (BrowserAutomator.init (Scripted.config 3 true) 0))))
   = Ret "env.wait(1)"
   /\ count is_CallGenerateWithRetry
            (calls (snd (generate_in ANSWERS "Click button" None None
                           (snd (generate_in ANSWERS "Click button" None None
                                   (BrowserAutomator.init (Scripted.config 3 true) 0))))))
      - count is_CallGenerateWithRetry
              (calls (BrowserAutomator.init (W:=nat) (Scripted.config 3 true) 0))
      <= 1)
  /\ count is_CallGenerateWithRetry
           (calls (snd (generate_in ANSWERS "Click button" None None
                          (snd (generate_in ANSWERS "Click button" None None
                                  (BrowserAutomator.init (Scripted.config 3 false) 0))))))
     - count is_CallGenerateWithRetry
             (calls (BrowserAutomator.init (W:=nat) (Scripted.config 3 false) 0))
     = 2.
Proof.
  split.
  - exact (proj1 (generate_twice (R:=Scripted.runtime ANSWERS)
                                 (BrowserAutomator.init (Scripted.config 3 true) 0)
                                 "Click button" None None)
                 eq_refl "env.wait(1)" eq_refl).
  - exact (proj2 (generate_twice (R:=Scripted.runtime ANSWERS)
                                 (BrowserAutomator.init (Scripted.config 3 false) 0)
                                 "Click button" None None)
                 eq_refl).
Defined.

End GeneratorClaims.

(** ** The execution engine *)

Section EngineFacts.
Import Py ActionEngine.

Lemma startswith_refl s : startswith s s = true.
Proof. induction s as [|c s IH]; cbn; [reflexivity|]. now rewrite Ascii.eqb_refl. Qed.

Lemma startswith_app_l p s t :
  startswith p s = true -> startswith p (s +:+ t) = true.
Proof.
  revert s. induction p as [|a p IH]; intros s; [reflexivity|].
  destruct s as [|b s]; [cbn [startswith]; discriminate|].
  change (String b s +:+ t) with (String b (s +:+ t)). cbn [startswith].
  destruct (Ascii.eqb a b); [apply IH | discriminate].
Qed.

Lemma contains_app_l sub s t :
  contains sub s = true -> contains sub (s +:+ t) = true.
Proof.
  induction s as [|c s IH].
  - cbn. rewrite orb_false_r. destruct sub; [|discriminate].
    intros _. destruct t; reflexivity.
  - intros H. change (String c s +:+ t) with (String c (s +:+ t)).
    cbn [contains] in H |- *. apply orb_prop in H as [H|H].
    + apply (startswith_app_l _ _ t) in H.
      change (String c s +:+ t) with (String c (s +:+ t)) in H.
      rewrite H. reflexivity.
    + rewrite (IH H). apply orb_true_r.
Qed.

(** The formatted message shows the class of the fault and its text. *)
Lemma format_error_contains e text :
  exc_str e = Ret text ->
  exists msg,
    _format_error e = Ret msg
    /\ contains (exc_type e) msg = true
    /\ contains text msg = true.
Proof.
  intros Hstr. unfold _format_error. cbn zeta. rewrite Hstr.
  assert (Ht : contains (exc_type e) (exc_type e +:+ ": " +:+ text) = true)
    by apply contains_here, startswith_app.
  assert (Hm : contains text (exc_type e +:+ ": " +:+ text) = true)
    by apply contains_app_r, contains_app_r, contains_here, startswith_refl.
  eexists. split; [reflexivity|].
  destruct (nonempty _); split;
    try assumption; now apply contains_app_l.
Qed.

(** A fault of [str] leaves [_format_error]. *)
Lemma format_error_raises e e' :
  exc_str e = Raise e' -> _format_error e = Raise e'.
Proof. intros Hstr. unfold _format_error. cbn zeta. now rewrite Hstr. Qed.

End EngineFacts.

Section EngineClaims.
Import Py ActionEngine.


(** It fails in a second way: when [str] of the fault raises, the fault of
    [str] leaves [execute], from the handler and before any capture, also
    when both faults derive from [Exception]. *)
Lemma unprintable_fault_leaves_execute :
  let out := execute (R:=UNPRINTABLE_WORLD) UNPRINTABLE
                     (READY ANSWERS (Scripted.config 3 true)) in
  fst out = Raise WORSE
  /\ exc_is_Exception BAD = true /\ exc_is_Exception WORSE = true
  /\ calls (snd out) = [CallCreateBrowser; CallExecute UNPRINTABLE].
Proof. vm_compute. repeat split. Qed.



End EngineClaims.

(** ** The orchestrator *)

Section OrchestratorFacts.
Context {W : Type} {R : Runtime W}.
Import BrowserAutomator.

(** What one call of the generator records. *)
Lemma generate_calls instruction context retry_on_error (h : heap W) :
  let h1 := snd (CodeGenerator.generate instruction context retry_on_error h) in
  config h1 = config h
  /\ engine h1 = engine h
  /\ exists l,
      calls h1 = calls h ++ CallCodeGenerator instruction context retry_on_error :: l
      /\ count is_CallCodeGenerator l = 0
      /\ count is_CallExecute l = 0.
Proof.
  pose proof (generate_spec instruction context retry_on_error h)
    as (C & _ & E & _ & l & L & Hit & Miss & _).
  cbn zeta in *. split; [exact C|]. split; [exact E|].
  exists l. split; [exact L|].
  destruct (cache_enabled (code_generator h)) eqn:Hen.
  - destruct (_code_cache (code_generator h)
                !! CodeGenerator.cache_key instruction context retry_on_error)
      as [cached|] eqn:Hlook.
    + destruct (Hit eq_refl cached eq_refl) as (_ & -> & _). split; reflexivity.
    + destruct (Miss (or_intror eq_refl)) as (l' & -> & Hl').
      change (?a :: l') with ([a] ++ l'). rewrite !count_app.
      rewrite (count_none _ _ l' backend_not_generator Hl').
      rewrite (count_none _ _ l' backend_not_execute Hl'). split; reflexivity.
  - destruct (Miss (or_introl eq_refl)) as (l' & -> & Hl').
    change (?a :: l') with ([a] ++ l'). rewrite !count_app.
    rewrite (count_none _ _ l' backend_not_generator Hl').
    rewrite (count_none _ _ l' backend_not_execute Hl'). split; reflexivity.
Qed.

(** What one call of the engine does, case by case. *)
Lemma execute_outcome code (h : heap W) (self : ActionEngine_state) :
  engine h = Some self ->
  let self' := {| screenshot_on_error := screenshot_on_error self;
                  screenshot_dir := screenshot_dir self;
                  execution_count := execution_count self + 1 |} in
  let h0 := set_calls (calls h ++ [CallExecute code]) (set_engine (Some self') h) in
  let filename :=
    screenshot_dir self +:+ "/error_"
    +:+ ActionEngine.str_of_nat (execution_count self + 1) +:+ ".png" in
  let w := fst (py_exec (world h) code) in
  match snd (py_exec (world h) code) with
  | None => ActionEngine.execute code h = (Ret (true, None), set_world w h0)
  | Some e =>
      if exc_is_Exception e
      then match exc_str e with
           | Raise e' => ActionEngine.execute code h = (Raise e', set_world w h0)
           | Ret text =>
               exists msg,
                 ActionEngine._format_error e = Ret msg
                 /\ if screenshot_on_error self
                    then if snd (os_makedirs w (screenshot_dir self))
                         then exists w',
                             ActionEngine.execute code h
                             = (Ret (false, Some msg),
                                set_world w'
                                  (set_calls (calls h ++ [CallExecute code;
                                                          CallScreenshot filename])
                                             (set_engine (Some self') h)))
                         else exists w',
                             ActionEngine.execute code h
                             = (Ret (false, Some msg), set_world w' h0)
                    else ActionEngine.execute code h
                         = (Ret (false, Some msg), set_world w h0)
           end
      else ActionEngine.execute code h = (Raise e, set_world w h0)
  end.
Proof.
  intros Heng. cbn zeta.
  unfold ActionEngine.execute, bind, get, modify, record, try_except,
    ActionEngine.exec_snippet, lift.
  rewrite Heng. cbn [modify world set_calls set_engine snd fst].
  destruct (py_exec (world h) code) as [w [e|]]; cbn [snd fst ret]; [|reflexivity].
  destruct (exc_is_Exception e); [|reflexivity].
  destruct (exc_str e) as [text|e'] eqn:Hstr.
  - destruct (format_error_contains e text Hstr) as (msg & Hmsg & _).
    exists msg. split; [exact Hmsg|]. rewrite Hmsg.
    cbn [screenshot_on_error screenshot_dir execution_count].
    destruct (screenshot_on_error self); [|reflexivity].
    unfold ActionEngine._save_error_screenshot, bind, record, modify, ret.
    cbn [world set_calls set_world screenshot_dir execution_count calls].
    destruct (os_makedirs w (screenshot_dir self)) as [w1 []]; cbn [snd fst];
      unfold set_world, set_calls, set_engine;
      cbn [world calls config ai parser code_generator engine].
    + eexists. rewrite <- app_assoc. reflexivity.
    + eexists. reflexivity.
  - rewrite (format_error_raises e e' Hstr). reflexivity.
Qed.

(** What one call of the engine records. *)
Lemma execute_calls code (h : heap W) :
  let h1 := snd (ActionEngine.execute code h) in
  config h1 = config h
  /\ exists l,
      calls h1 = calls h ++ l
      /\ count is_CallCodeGenerator l = 0
      /\ count is_CallExecute l <= 1
      /\ (engine h <> None -> count is_CallExecute l = 1).
Proof.
  cbn zeta. destruct (engine h) as [self|] eqn:Heng.
  2:{ unfold ActionEngine.execute, bind, get. rewrite Heng. cbn [raise snd].
      split; [reflexivity|]. exists []. rewrite app_nil_r. cbn.
      repeat split; [lia | congruence]. }
  pose proof (execute_outcome code h self Heng) as H. cbn zeta in H.
  destruct (snd (py_exec (world h) code)) as [e|].
  2:{ rewrite H. split; [reflexivity|]. exists [CallExecute code]. cbn.
      repeat split. lia. }
  destruct (exc_is_Exception e).
  2:{ rewrite H. split; [reflexivity|]. exists [CallExecute code]. cbn.
      repeat split. lia. }
  destruct (exc_str e) as [text|e'].
  2:{ rewrite H. split; [reflexivity|]. exists [CallExecute code]. cbn.
      repeat split. lia. }
  destruct H as (msg & _ & H).
  destruct (screenshot_on_error self);
    [destruct (snd (os_makedirs _ _)); destruct H as [w' H]|]; rewrite H;
    (split; [reflexivity|]).
  - eexists [CallExecute code; _]. split; [reflexivity|]. cbn. repeat split. lia.
  - exists [CallExecute code]. cbn. repeat split. lia.
  - exists [CallExecute code]. cbn. repeat split. lia.
Qed.

(** The retry loop leaves the configuration as it was. *)
Lemma attempt_loop_config remaining action :
  forall last_error (h : heap W),
    config (snd (attempt_loop remaining action last_error h)) = config h.
Proof.
  induction remaining as [|remaining IH]; intros last_error h;
    cbn [attempt_loop]; [reflexivity|].
  unfold bind, try_except, ret, get.
  pose proof (generate_calls action None last_error h) as [Cg _].
  cbn zeta in Cg.
  destruct (CodeGenerator.generate action None last_error h) as [[code|e] h1];
    cbn [snd] in Cg.
  - pose proof (execute_calls code h1) as [Ce _]. cbn zeta in Ce.
    destruct (ActionEngine.execute code h1) as [[[success error]|e] h2];
      cbn [snd] in Ce |- *; [|congruence].
    destruct success; cbn [snd]; [congruence|].
    destruct (retry_attempts (config h2) <=? 1)%Z; cbn [snd]; [congruence|].
    rewrite IH. congruence.
  - destruct (exc_is_Exception e); exact Cg.
Qed.

Lemma execute_action_config action (h : heap W) :
  config (snd (_execute_action action h)) = config h.
Proof. unfold _execute_action, bind, get. apply attempt_loop_config. Qed.

Lemma action_loop_config action_queue :
  forall all_success (h : heap W),
    config (snd (action_loop action_queue all_success h)) = config h.
Proof.
  induction action_queue as [|action rest IH]; intros all_success h;
    cbn [action_loop]; [reflexivity|].
  unfold bind, get, ret.
  pose proof (execute_action_config action h) as C.
  destruct (_execute_action action h) as [[success|e] h1]; cbn [snd] in C;
    [|exact C].
  destruct success; [rewrite IH; exact C|].
  destruct (retry_attempts (config h1) <=? 1)%Z; [exact C|].
  rewrite IH. exact C.
Qed.

(** Once an action has failed the loop never answers [True]. *)
Lemma action_loop_false action_queue :
  forall (h h' : heap W),
    action_loop action_queue false h <> (Ret true, h').
Proof.
  induction action_queue as [|action rest IH]; intros h h';
    cbn [action_loop]; [discriminate|].
  unfold bind, get, ret.
  destruct (_execute_action action h) as [[success|e] h1]; [|discriminate].
  destruct success; [apply IH|].
  destruct (retry_attempts (config h1) <=? 1)%Z; [discriminate | apply IH].
Qed.

(** A prefix of the queue that was processed without a failure hands the
    rest of the queue to the same loop. *)
Lemma action_loop_app pre rest :
  forall all_success (h h' : heap W),
    action_loop pre all_success h = (Ret true, h') ->
    action_loop (pre ++ rest) all_success h = action_loop rest true h'.
Proof.
  induction pre as [|action pre IH]; intros all_success h h';
    cbn [action_loop app].
  - unfold ret. intros [= -> ->]. reflexivity.
  - unfold bind, get, ret.
    destruct (_execute_action action h) as [[success|e] h1]; [|discriminate].
    destruct success; [apply IH|].
    destruct (retry_attempts (config h1) <=? 1)%Z; [discriminate|].
    intros Hloop. now apply action_loop_false in Hloop.
Qed.

(** With one attempt allowed, an action is generated once and executed at
    most once: once when the generator returned a snippet, not at all when
    it raised. *)
Lemma execute_action_once action (h : heap W) :
  retry_attempts (config h) = 1%Z ->
  exists l,
    calls (snd (_execute_action action h)) = calls h ++ l
    /\ count is_CallCodeGenerator l = 1
    /\ count is_CallExecute l <= 1
    /\ (forall code,
           fst (CodeGenerator.generate action None None h) = Ret code ->
           engine h <> None -> count is_CallExecute l = 1).
Proof.
  intros Hone. unfold _execute_action, bind, get. rewrite Hone.
  change (Z.to_nat 1) with 1%nat. cbn [attempt_loop].
  unfold bind, try_except, ret, get.
  pose proof (generate_calls action None None h) as (Cg & Eng & lg & Lg & Gg & Eg).
  cbn zeta in Cg, Eng, Lg.
  destruct (CodeGenerator.generate action None None h) as [[code|e] h1];
    cbn [snd fst] in Cg, Eng, Lg |- *.
  - pose proof (execute_calls code h1) as (Ce & le & Le & Ge & Ee & Ee1).
    cbn zeta in Ce, Le. rewrite Eng in Ee1.
    assert (Hl : calls (snd (ActionEngine.execute code h1))
                 = calls h ++ (CallCodeGenerator action None None :: lg) ++ le).
    { rewrite Le, Lg, <- app_assoc. reflexivity. }
    assert (Hcount : count is_CallCodeGenerator
                           ((CallCodeGenerator action None None :: lg) ++ le) = 1
                     /\ count is_CallExecute
                              ((CallCodeGenerator action None None :: lg) ++ le) <= 1
                     /\ (forall code' : string,
                            Ret code = Ret code' -> engine h <> None ->
                            count is_CallExecute
                                  ((CallCodeGenerator action None None :: lg) ++ le) = 1)).
    { change (?a :: lg) with ([a] ++ lg). rewrite !count_app, Gg, Eg, Ge.
      cbn. repeat split; [lia|]. intros _ _ Hsome. rewrite (Ee1 Hsome). reflexivity. }
    destruct (ActionEngine.execute code h1) as [[[success error]|e] h2];
      cbn [snd] in Hl |- *.
    + destruct success; cbn [snd]; [eauto|].
      destruct (retry_attempts (config h2) <=? 1)%Z; cbn [snd]; eauto.
    + eauto.
  - assert (Hcount : count is_CallCodeGenerator (CallCodeGenerator action None None :: lg) = 1
                     /\ count is_CallExecute (CallCodeGenerator action None None :: lg) <= 1
                     /\ (forall code' : string,
                            @Raise string e = Ret code' -> engine h <> None ->
                            count is_CallExecute
                                  (CallCodeGenerator action None None :: lg) = 1)).
    { change (?a :: lg) with ([a] ++ lg). rewrite !count_app, Gg, Eg. cbn.
      repeat split; [lia | discriminate]. }
    destruct (exc_is_Exception e); cbn [snd]; eauto.
Qed.

End OrchestratorFacts.

Section OrchestratorClaims.
Import Py BrowserAutomator.

(** C2: with [retry_attempts = 1], processing an instruction makes one
    attempt: the generator is asked once and the engine runs at most once,
    exactly once when the generator returned a snippet.  When that
    processing returns [False] the loop of [run] ends there, in the same
    state, and [run] returns [False]: nothing is generated or executed for
    the instructions that follow. *)
Theorem retry_one_is_fail_fast {W : Type} {R : Runtime W} (h : heap W)
        (action : string) :
  retry_attempts (config h) = 1%Z ->
  (exists l,
      calls (snd (_execute_action action h)) = calls h ++ l
      /\ count is_CallCodeGenerator l = 1
      /\ count is_CallExecute l <= 1
      /\ (forall code,
             fst (CodeGenerator.generate action None None h) = Ret code ->
             engine h <> None -> count is_CallExecute l = 1))
  /\ (forall h' rest all_success,
         _execute_action action h = (Ret false, h') ->
         action_loop (action :: rest) all_success h = (Ret false, h'))
  /\ (forall i close_browser pre post,
         let ha := snd (_initialize_browser h) in
         let hp := snd (parse i ha) in
         let hb := snd (action_loop pre true hp) in
         let hc := snd (_execute_action action hb) in
         fst (_initialize_browser h) = Ret tt ->
         fst (parse i ha) = Ret (pre ++ action :: post) ->
         fst (action_loop pre true hp) = Ret true ->
         fst (_execute_action action hb) = Ret false ->
         fst (run i close_browser h) = Ret false
         /\ exists tail,
             calls (snd (run i close_browser h)) = calls hc ++ tail
             /\ count is_CallCodeGenerator tail = 0
             /\ count is_CallExecute tail = 0).
Proof.
  intros Hone.
  assert (Hstop : forall (h1 h' : heap W) rest all_success,
             retry_attempts (config h1) = 1%Z ->
             _execute_action action h1 = (Ret false, h') ->
             action_loop (action :: rest) all_success h1 = (Ret false, h')).
  { intros h1 h' rest all_success Hone1 Hfail. cbn [action_loop].
    unfold bind, get, ret.
    pose proof (execute_action_config action h1) as C.
    rewrite Hfail in C |- *. cbn [snd] in C. rewrite C, Hone1. reflexivity. }
  split; [now apply execute_action_once|].
  split; [intros h' rest all_success; now apply Hstop|].
  intros i close_browser pre post ha hp hb hc Hinit Hparse Hpre Hfail.
  assert (Hinit' : _initialize_browser h = (Ret tt, ha))
    by (rewrite <- Hinit; subst ha; now destruct (_initialize_browser h)).
  assert (Hparse' : parse i ha = (Ret (pre ++ action :: post), hp))
    by (rewrite <- Hparse; subst hp; now destruct (parse i ha)).
  assert (Hpre' : action_loop pre true hp = (Ret true, hb))
    by (rewrite <- Hpre; subst hb; now destruct (action_loop pre true hp)).
  assert (Hfail' : _execute_action action hb = (Ret false, hc))
    by (rewrite <- Hfail; subst hc; now destruct (_execute_action action hb)).
  clear Hinit Hparse Hpre Hfail.
  rename Hinit' into Hinit, Hparse' into Hparse, Hpre' into Hpre, Hfail' into Hfail.
  clearbody ha hp hb hc.
  assert (Hcfg : retry_attempts (config hb) = 1%Z).
  { pose proof (action_loop_config pre true hp) as C1. rewrite Hpre in C1.
    cbn [snd] in C1. rewrite C1.
    unfold parse in Hparse.
    destruct (InstructionParser.parse (parser ha) i) as [p q].
    injection Hparse as _ <-. cbn [config set_parser].
    unfold _initialize_browser, bind, get, record, modify in Hinit.
    destruct (engine h).
    - injection Hinit as <-. exact Hone.
    - cbn [world set_calls] in Hinit.
      destruct (create_browser (world h)) as [w [e|]]; [discriminate|].
      injection Hinit as <-. exact Hone. }
  assert (Hloop : action_loop (pre ++ action :: post) true hp = (Ret false, hc)).
  { rewrite (action_loop_app pre (action :: post) true hp hb Hpre).
    now apply Hstop. }
  unfold run, try_finally, try_except, bind.
  rewrite Hinit, Hparse, Hloop. unfold get, ret.
  destruct close_browser; [destruct (engine hc) as [self|] eqn:Heng|].
  - unfold _cleanup, bind, get, record, modify. rewrite Heng.
    cbn [fst snd calls set_engine set_world set_calls].
    split; [reflexivity|]. exists [CallQuit]. repeat split.
  - cbn [fst snd]. split; [reflexivity|]. exists []. rewrite app_nil_r.
    repeat split.
  - cbn [fst snd]. split; [reflexivity|]. exists []. rewrite app_nil_r.
    repeat split.
Qed.

Lemma retry_one_is_fail_fast_witness :
  fst (run_in ONLY_STEP_ONE THREE_STEPS true
              (BrowserAutomator.init (Scripted.config 1 true) 0))
  = Ret false
  /\ generated (calls (snd (run_in ONLY_STEP_ONE THREE_STEPS true
                                   (BrowserAutomator.init (Scripted.config 1 true) 0))))
     = ["Step one"; "Step two"].
Proof.
  split; [|vm_compute; reflexivity].
  exact (proj1 (proj2 (proj2 (retry_one_is_fail_fast
                                (R:=Scripted.runtime ONLY_STEP_ONE)
                                (BrowserAutomator.init (Scripted.config 1 true) 0)
                                "Step two" eq_refl))
                      THREE_STEPS true ["Step one"] ["Step three"]
                      ltac:(vm_compute; reflexivity) ltac:(vm_compute; reflexivity)
                      ltac:(vm_compute; reflexivity) ltac:(vm_compute; reflexivity))).
Defined.

(** C5: the parser of an automator keeps its queue from one [parse] to
    the next, and [run] never clears it: the queue returned by a second
    [parse] starts with the whole queue of the first, and a second [run]
    generates and executes the instructions of the first run again
    before its own. *)
Theorem second_run_repeats_first :
  (forall self i,
      exists added,
        snd (InstructionParser.parse self i)
        = InstructionParser.action_queue self ++ added)
  /\ snd (InstructionParser.parse
            (fst (InstructionParser.parse
                    InstructionParser.init
                    (InstructionParser.Text "Navigate to https://example.com")))
            (InstructionParser.Text "Wait 2 seconds"))
     = ["Navigate to https://example.com"; "Wait 2 seconds"]
  /\ (let h0 := BrowserAutomator.init (Scripted.config 3 true) 0 in
      let h1 := snd (run_in ANSWERS
                            (InstructionParser.Text "Navigate to https://example.com")
                            true h0) in
      let h2 := snd (run_in ANSWERS (InstructionParser.Text "Wait 2 seconds")
                            true h1) in
      generated (calls h1) = ["Navigate to https://example.com"]
      /\ generated (List.skipn (List.length (calls h1)) (calls h2))
         = ["Navigate to https://example.com"; "Wait 2 seconds"]).
Proof.
  split; [exact parse_extends_queue|].
  split; vm_compute; repeat split.
Qed.

End OrchestratorClaims.

(** * Further properties *)

(** ** The instruction parser *)

Section ParserFurther.
Import Py InstructionParser.

Lemma keyword_line_not_skipped line :
  startswith FUNCTION_START line = true -> skipped line = false.
Proof.
  unfold skipped, FUNCTION_START, COMMENT.
  destruct line as [|a line]; cbn [startswith]; [discriminate|].
  destruct (Ascii.eqb_spec "D"%char a) as [<-|]; [|discriminate].
  intros _. reflexivity.
Qed.

Lemma end_line_not_skipped line :
  startswith FUNCTION_END line = true -> skipped line = false.
Proof.
  unfold skipped, FUNCTION_END, COMMENT.
  destruct line as [|a line]; cbn [startswith]; [discriminate|].
  destruct (Ascii.eqb_spec "E"%char a) as [<-|]; [|discriminate].
  intros _. reflexivity.
Qed.

Lemma build_plain fs lines :
  Forall (fun l => is_keyword_line l = false) lines ->
  concat (map (build_step fs []) lines) = kept lines.
Proof.
  unfold kept. induction lines as [|l lines IH]; intros Hall; [reflexivity|].
  inversion Hall as [|? ? Hl Hrest]; subst.
  cbn [map concat List.filter]. rewrite (IH Hrest).
  unfold is_keyword_line in Hl.
  apply orb_false_elim in Hl as [Hl Hcall].
  unfold build_step. destruct (skipped (strip l)); [reflexivity|].
  rewrite Hl, Hcall. reflexivity.
Qed.

(** X1: on an input without marker and call lines the queue grows by the
    lines that are neither blank nor comments, trimmed, in input order. *)
Theorem parse_plain_lines (self : t) (i : instructions) :
  Forall (fun l => is_keyword_line l = false) (lines_of i) ->
  snd (parse self i) = action_queue self ++ kept (lines_of i)
  /\ functions (fst (parse self i)) = functions self.
Proof.
  intros Hall. unfold parse, _build_action_queue, _extract_functions.
  cbn [snd fst action_queue functions].
  assert (Hfs : extract_loop (lines_of i) None (functions self) = functions self).
  { induction (lines_of i) as [|l lines IH]; [reflexivity|].
    inversion Hall as [|? ? Hl Hrest]; subst. cbn [extract_loop].
    destruct (skipped (strip l)); [now apply IH|].
    unfold is_keyword_line in Hl.
    apply orb_false_elim in Hl as [Hl _]. apply orb_false_elim in Hl as [Hl _].
    rewrite Hl. now apply IH. }
  rewrite Hfs, build_fold, (build_plain _ _ Hall). split; reflexivity.
Qed.

Lemma parse_plain_lines_witness :
  snd (parse init (Text ("Navigate to https://example.com" +:+ NL +:+ "Wait 2 seconds")))
  = action_queue init
    ++ kept (lines_of (Text ("Navigate to https://example.com" +:+ NL
                             +:+ "Wait 2 seconds")))
  /\ functions (fst (parse init (Text ("Navigate to https://example.com" +:+ NL
                                       +:+ "Wait 2 seconds"))))
     = functions init.
Proof.
  apply (parse_plain_lines init).
  vm_compute. repeat constructor.
Defined.

(** The inner loop of the extraction over lines without an end marker. *)
Lemma extract_body body :
  forall name acc fs rest,
    Forall (fun l => startswith FUNCTION_END (strip l) = false) body ->
    extract_loop (body ++ rest) (Some (name, acc)) fs
    = extract_loop rest (Some (name, acc ++ kept body)) fs.
Proof.
  unfold kept.
  induction body as [|l body IH]; intros name acc fs rest Hall.
  - cbn [app map List.filter]. now rewrite app_nil_r.
  - inversion Hall as [|? ? Hl Hrest]; subst.
    cbn [app extract_loop List.filter]. rewrite Hl.
    unfold skipped.
    destruct (is_empty (strip l)); cbn [negb andb orb].
    + now apply IH.
    + destruct (startswith COMMENT (strip l)); cbn [negb map].
      * now apply IH.
      * rewrite (IH name (acc ++ [strip l]) fs rest Hrest), <- app_assoc.
        reflexivity.
Qed.

(** One definition block at the head of the lines still to be read. *)
Lemma extract_block (d e : string) (body rest : list string)
      (fs : gmap string (list string)) :
  startswith FUNCTION_START (strip d) = true ->
  Forall (fun l => startswith FUNCTION_END (strip l) = false) body ->
  startswith FUNCTION_END (strip e) = true ->
  extract_loop (d :: body ++ e :: rest) None fs
  = extract_loop rest None (<[last_word (strip d) := kept body]> fs).
Proof.
  intros Hd Hbody He. cbn [extract_loop].
  rewrite (keyword_line_not_skipped _ Hd), Hd.
  rewrite (extract_body body _ [] fs (e :: rest) Hbody).
  cbn [extract_loop app]. rewrite He. reflexivity.
Qed.

(** X2: a definition block (start marker, body without an end marker, end
    marker) binds the last word of its first line to the kept lines of the
    body, in order, and leaves every other name as it was. *)
Theorem extract_definition_block (self : t) (d e : string) (body : list string) :
  startswith FUNCTION_START (strip d) = true ->
  Forall (fun l => startswith FUNCTION_END (strip l) = false) body ->
  startswith FUNCTION_END (strip e) = true ->
  functions (_extract_functions self (d :: body ++ [e]))
  = <[last_word (strip d) := kept body]> (functions self)
  /\ action_queue (_extract_functions self (d :: body ++ [e])) = action_queue self.
Proof.
  intros Hd Hbody He. unfold _extract_functions. cbn [functions action_queue].
  rewrite (extract_block d e body [] _ Hd Hbody He). split; reflexivity.
Qed.

Lemma extract_definition_block_witness :
  functions (_extract_functions
               init ("DEFINE_FUNCTION search"
                       :: ["  Find search box"; "# the query"; "Type query"]
                       ++ ["END_FUNCTION"]))
  = <[last_word (strip "DEFINE_FUNCTION search")
      := kept ["  Find search box"; "# the query"; "Type query"]]> (functions init)
  /\ action_queue (_extract_functions
                     init ("DEFINE_FUNCTION search"
                             :: ["  Find search box"; "# the query"; "Type query"]
                             ++ ["END_FUNCTION"]))
     = action_queue init.
Proof.
  apply (extract_definition_block init); [reflexivity | | reflexivity].
  repeat constructor.
Defined.

(** X3: a definition whose end marker is missing runs to the end of the
    input: every kept line after the start marker becomes its body. *)
Theorem extract_unclosed_definition (self : t) (d : string) (body : list string) :
  startswith FUNCTION_START (strip d) = true ->
  Forall (fun l => startswith FUNCTION_END (strip l) = false) body ->
  functions (_extract_functions self (d :: body))
  = <[last_word (strip d) := kept body]> (functions self).
Proof.
  intros Hd Hbody. unfold _extract_functions. cbn [functions extract_loop].
  rewrite (keyword_line_not_skipped _ Hd), Hd.
  rewrite <- (app_nil_r body) at 1.
  rewrite (extract_body body _ [] (functions self) [] Hbody).
  reflexivity.
Qed.

Lemma extract_unclosed_definition_witness :
  functions (_extract_functions init ["DEFINE_FUNCTION login"; "Type username";
                                      "CALL other"; " Type password "])
  = <[last_word (strip "DEFINE_FUNCTION login")
      := kept ["Type username"; "CALL other"; " Type password "]]> (functions init).
Proof.
  apply extract_unclosed_definition; [reflexivity|].
  repeat constructor.
Defined.

(** X4: of two definition blocks with the same name the later one wins. *)
Theorem later_definition_wins (self : t) (d1 e1 d2 e2 : string)
        (body1 body2 : list string) :
  startswith FUNCTION_START (strip d1) = true ->
  startswith FUNCTION_START (strip d2) = true ->
  last_word (strip d1) = last_word (strip d2) ->
  Forall (fun l => startswith FUNCTION_END (strip l) = false) body1 ->
  Forall (fun l => startswith FUNCTION_END (strip l) = false) body2 ->
  startswith FUNCTION_END (strip e1) = true ->
  startswith FUNCTION_END (strip e2) = true ->
  functions (_extract_functions self (d1 :: body1 ++ e1 :: d2 :: body2 ++ [e2]))
    !! last_word (strip d1)
  = Some (kept body2).
Proof.
  intros Hd1 Hd2 Hname Hb1 Hb2 He1 He2. unfold _extract_functions.
  cbn [functions].
  rewrite (extract_block d1 e1 body1 _ _ Hd1 Hb1 He1).
  rewrite (extract_block d2 e2 body2 [] _ Hd2 Hb2 He2).
  cbn [extract_loop]. rewrite Hname. apply lookup_insert_eq.
Qed.

Lemma later_definition_wins_witness :
  functions (_extract_functions
               init ("DEFINE_FUNCTION go" :: ["Open page"] ++ "END_FUNCTION"
                       :: "DEFINE_FUNCTION go" :: ["Open menu"; "Click item"]
                       ++ ["END_FUNCTION"]))
    !! last_word (strip "DEFINE_FUNCTION go")
  = Some (kept ["Open menu"; "Click item"]).
Proof.
  apply (later_definition_wins init "DEFINE_FUNCTION go" "END_FUNCTION"
                               "DEFINE_FUNCTION go" "END_FUNCTION");
    try reflexivity; repeat constructor.
Defined.

(** The extraction never unbinds a name. *)
Lemma extract_loop_keeps lines :
  forall cur fs name,
    is_Some (fs !! name) -> is_Some (extract_loop lines cur fs !! name).
Proof.
  induction lines as [|l lines IH]; intros cur fs name Hin; cbn [extract_loop].
  - destruct cur as [[n b]|]; [|exact Hin].
    rewrite lookup_insert_is_Some. destruct (decide (n = name)); auto.
  - destruct cur as [[n b]|].
    + destruct (startswith FUNCTION_END (strip l)).
      * apply IH. rewrite lookup_insert_is_Some.
        destruct (decide (n = name)); auto.
      * destruct (negb (is_empty (strip l)) && negb (startswith COMMENT (strip l)));
          now apply IH.
    + destruct (skipped (strip l)); [now apply IH|].
      destruct (startswith FUNCTION_START (strip l)); now apply IH.
Qed.

(** X5: a call of a bound name puts the recorded body into the queue at
    the place of the call, as it is recorded: the queue is the one built
    from the lines before the call, then the body, then what the lines
    after the call add. *)
Theorem defined_call_expands_in_place (self : t) (i : instructions)
        (pre post body : list string) (c : string) :
  lines_of i = pre ++ c :: post ->
  startswith CALL_FUNCTION (strip c) = true ->
  functions (_extract_functions self (lines_of i)) !! last_word (strip c) = Some body ->
  snd (parse self i)
  = action_queue (_build_action_queue (_extract_functions self (lines_of i)) pre)
    ++ body
    ++ concat (map (build_step (functions (_extract_functions self (lines_of i))) [])
                   post).
Proof.
  intros Hlines Hcall Hbody.
  destruct (call_line _ Hcall) as [Hskip Hmark].
  unfold parse. cbn zeta. cbn [snd].
  set (self1 := _extract_functions self (lines_of i)) in *.
  assert (Hstep : build_step (functions self1) [] c = body).
  { unfold build_step. rewrite Hskip, Hmark, Hcall, Hbody. reflexivity. }
  unfold _build_action_queue. cbn [action_queue functions].
  rewrite !build_fold, Hlines.
  rewrite !map_app, !concat_app. cbn [map concat].
  rewrite Hstep, <- app_assoc. reflexivity.
Qed.

Lemma defined_call_expands_in_place_witness :
  snd (parse (mk {["greet" := ["Say hello"; "CALL other"]]} [])
             (Lines ["Open page"; "CALL greet"; "Close page"]))
  = action_queue
      (_build_action_queue
         (_extract_functions (mk {["greet" := ["Say hello"; "CALL other"]]} [])
                             (lines_of (Lines ["Open page"; "CALL greet"; "Close page"])))
         ["Open page"])
    ++ ["Say hello"; "CALL other"]
    ++ concat (map (build_step
                      (functions
                         (_extract_functions
                            (mk {["greet" := ["Say hello"; "CALL other"]]} [])
                            (lines_of (Lines ["Open page"; "CALL greet"; "Close page"]))))
                      [])
                   ["Close page"]).
Proof.
  apply (defined_call_expands_in_place
           (mk {["greet" := ["Say hello"; "CALL other"]]} [])
           (Lines ["Open page"; "CALL greet"; "Close page"])
           ["Open page"] ["Close page"] ["Say hello"; "CALL other"] "CALL greet");
    reflexivity.
Defined.

(** X6: [parse] never forgets a definition: a name bound before the call is
    bound after it, so a later input can call a macro of an earlier one. *)
Theorem parse_keeps_definitions (self : t) (i : instructions) (name : string) :
  is_Some (functions self !! name) ->
  is_Some (functions (fst (parse self i)) !! name).
Proof.
  intros Hin. unfold parse, _build_action_queue, _extract_functions.
  cbn [fst functions]. now apply extract_loop_keeps.
Qed.

Lemma parse_keeps_definitions_witness :
  is_Some (functions
             (fst (parse (fst (parse init SCENARIO_B)) (Lines ["CALL login"])))
             !! "login").
Proof.
  apply parse_keeps_definitions. vm_compute. eauto.
Defined.

Lemma group_related_actions_blocks (self : t) actions :
  snd (group_related_actions self actions) = blocks_of (group_loop actions [] []).
Proof.
  unfold group_related_actions, blocks_of.
  destruct (group_loop actions [] []) as [g c]. reflexivity.
Qed.

(** The grouping loop when no action is a continuation. *)
Lemma group_loop_independent actions :
  forall grouped x,
    Forall (fun a => is_continuation a = false) actions ->
    blocks_of (group_loop actions grouped [x]) = grouped ++ x :: actions.
Proof.
  induction actions as [|a actions IH]; intros grouped x Hall;
    cbn [group_loop]; [reflexivity|].
  inversion Hall as [|? ? Ha Hrest]; subst.
  rewrite Ha. cbn [andb nonempty join].
  rewrite (IH (grouped ++ [x]) a Hrest), <- app_assoc. reflexivity.
Qed.

(** X7: actions none of which holds a continuation cue come back as they
    are, one block each. *)
Theorem group_independent_actions (self : t) (actions : list string) :
  Forall (fun a => is_continuation a = false) actions ->
  snd (group_related_actions self actions) = actions.
Proof.
  intros Hall. rewrite group_related_actions_blocks.
  destruct actions as [|a actions]; [reflexivity|].
  inversion Hall as [|? ? Ha Hrest]; subst.
  cbn [group_loop]. rewrite Ha. cbn [andb nonempty].
  apply (group_loop_independent actions [] a Hrest).
Qed.

Lemma group_independent_actions_witness :
  snd (group_related_actions init ["Navigate to site"; "Wait 2 seconds"; "Click button"])
  = ["Navigate to site"; "Wait 2 seconds"; "Click button"].
Proof.
  apply group_independent_actions.
  repeat constructor.
Defined.

(** The number of blocks once a block is open. *)
Lemma group_loop_length actions :
  forall grouped x xs,
    List.length (blocks_of (group_loop actions grouped (x :: xs)))
    = List.length grouped + 1
      + List.length (List.filter (fun a => negb (is_continuation a)) actions).
Proof.
  induction actions as [|a actions IH]; intros grouped x xs; cbn [group_loop].
  - cbn [blocks_of nonempty List.filter List.length].
    rewrite List.length_app. cbn [List.length]. lia.
  - cbn [nonempty List.filter]. rewrite andb_true_r.
    destruct (is_continuation a); cbn [negb].
    + change ((x :: xs) ++ [a]) with (x :: xs ++ [a]). apply IH.
    + rewrite IH, List.length_app. cbn [List.length]. lia.
Qed.

(** X8: the first action opens a block whatever it says, and after it
    exactly the actions without a continuation cue open one: the number of
    blocks is one more than the number of those actions. *)
Theorem group_block_count (self : t) (a : string) (actions : list string) :
  List.length (snd (group_related_actions self (a :: actions)))
  = 1 + List.length (List.filter (fun b => negb (is_continuation b)) actions).
Proof.
  rewrite group_related_actions_blocks.
  cbn [group_loop nonempty]. rewrite andb_false_r.
  rewrite group_loop_length. reflexivity.
Qed.

End ParserFurther.

(** ** The provider *)

Section ProviderFurther.
Context {W : Type} {R : Runtime W}.
Import Py.

(** A call of the provider whose prompt is in its cache. *)
Lemma provider_generate_hit prompt text (h : heap W) :
  _cache (ai h) !! prompt = Some text ->
  GeminiProvider.generate prompt true h
  = (Ret text, set_calls (calls h ++ [CallProviderGenerate prompt]) h).
Proof.
  intros Hhit. unfold GeminiProvider.generate, bind, record, modify, get.
  cbn [ai set_calls]. rewrite Hhit. reflexivity.
Qed.

(** A call of the provider that reaches the remote model. *)
Lemma provider_generate_miss prompt (use_cache : bool) (h : heap W) :
  (if use_cache then _cache (ai h) !! prompt else @None string) = None ->
  GeminiProvider.generate prompt use_cache h
  = let h1 := set_calls (calls h ++ [CallProviderGenerate prompt; CallModel prompt]) h in
    let '(w, r) := generate_content (world h) prompt in
    match r return result string * heap W with
    | Ret response_text =>
        (Ret (clean_response response_text),
         if use_cache
         then set_ai {| _cache := <[prompt := clean_response response_text]>
                                    (_cache (ai h)) |} (set_world w h1)
         else set_world w h1)
    | Raise e => (Raise e, set_world w h1)
    end.
Proof.
  intros Hmiss.
  unfold GeminiProvider.generate, GeminiProvider.call_model,
    bind, record, modify, get.
  cbn [ai set_calls world calls]. rewrite Hmiss.
  unfold clean_response, FENCE. cbn -[strip replace].
  destruct (generate_content (world h) prompt) as [w [text|e]];
    cbn -[strip replace]; rewrite <- app_assoc; [|reflexivity].
  destruct use_cache; reflexivity.
Qed.

(** X9: the provider answers a prompt it has answered before from its own
    cache: after a call that returned a text, the same call returns the
    same text, records itself and changes nothing else; the remote model
    is not called. *)
Theorem provider_cache_round_trip prompt text (h : heap W) :
  fst (GeminiProvider.generate prompt true h) = Ret text ->
  let h1 := snd (GeminiProvider.generate prompt true h) in
  _cache (ai h1) !! prompt = Some text
  /\ GeminiProvider.generate prompt true h1
     = (Ret text, set_calls (calls h1 ++ [CallProviderGenerate prompt]) h1).
Proof.
  intros Hret. cbn zeta.
  assert (Hcached : _cache (ai (snd (GeminiProvider.generate prompt true h))) !! prompt
                    = Some text).
  { destruct (_cache (ai h) !! prompt) as [cached|] eqn:Hlook.
    - rewrite (provider_generate_hit prompt cached h Hlook) in Hret |- *.
      cbn [fst snd ai set_calls] in *. congruence.
    - rewrite (provider_generate_miss prompt true h Hlook) in Hret |- *.
      cbn zeta in *.
      destruct (generate_content (world h) prompt) as [w [response_text|e]];
        cbn [fst snd] in *; [|discriminate].
      injection Hret as <-. cbn [ai set_ai _cache]. apply lookup_insert_eq. }
  split; [exact Hcached|]. now apply provider_generate_hit.
Qed.

(** A fault that leaves the provider is a fault of the library: [str] of
    it returns. *)
Lemma provider_faults_print prompt (use_cache : bool) (h : heap W) e :
  fst (GeminiProvider.generate prompt use_cache h) = Raise e -> prints e = true.
Proof.
  destruct (if use_cache then _cache (ai h) !! prompt else @None string)
    as [cached|] eqn:Hlook.
  - destruct use_cache; [|discriminate].
    rewrite (provider_generate_hit prompt cached h Hlook). discriminate.
  - rewrite (provider_generate_miss prompt use_cache h Hlook). cbn zeta.
    pose proof (library_faults (world h) prompt) as Hlaw.
    destruct (generate_content (world h) prompt) as [w [text|e0]];
      cbn [fst snd] in *; [discriminate|].
    intros [= <-]. now apply Hlaw.
Qed.

Lemma retry_loop_faults_print max_retries prompt remaining :
  forall attempt (h : heap W) e,
    fst (GeminiProvider.retry_loop max_retries attempt remaining prompt h) = Raise e ->
    prints e = true.
Proof.
  induction remaining as [|remaining IH]; intros attempt h e;
    cbn [GeminiProvider.retry_loop]; [discriminate|].
  unfold try_except, bind, ret, raise.
  pose proof (provider_faults_print prompt true h) as Hp.
  destruct (GeminiProvider.generate prompt true h) as [[text|e0] h1];
    cbn [fst] in *; [discriminate|].
  destruct (exc_is_Exception e0); [|intros [= <-]; now apply Hp].
  destruct (attempt <? max_retries - 1)%nat; [apply IH|].
  cbn [fst]. intros [= <-]. now apply Hp.
Qed.

(** The calls one call of the provider records. *)
Lemma provider_generate_shape prompt (h : heap W) :
  exists l,
    calls (snd (GeminiProvider.generate prompt true h))
    = calls h ++ CallProviderGenerate prompt :: l
    /\ (l = [] \/ l = [CallModel prompt]).
Proof.
  destruct (_cache (ai h) !! prompt) as [cached|] eqn:Hlook.
  - rewrite (provider_generate_hit prompt cached h Hlook). exists []. auto.
  - rewrite (provider_generate_miss prompt true h Hlook). cbn zeta.
    exists [CallModel prompt].
    destruct (generate_content (world h) prompt) as [w [response_text|e]]; auto.
Qed.

Lemma retry_loop_bound max_retries prompt remaining :
  forall attempt (h : heap W),
  exists l,
    calls (snd (GeminiProvider.retry_loop max_retries attempt remaining prompt h))
    = calls h ++ l
    /\ count is_CallProviderGenerate l <= remaining
    /\ count is_CallModel l <= count is_CallProviderGenerate l
    /\ (1 <= remaining -> 1 <= count is_CallProviderGenerate l).
Proof.
  induction remaining as [|remaining IH]; intros attempt h;
    cbn [GeminiProvider.retry_loop].
  - exists []. cbn. rewrite app_nil_r. repeat split; lia.
  - unfold try_except, bind, ret, raise.
    destruct (provider_generate_shape prompt h) as (l1 & L1 & Hl1).
    assert (Hc1 : count is_CallProviderGenerate (CallProviderGenerate prompt :: l1) = 1
                  /\ count is_CallModel (CallProviderGenerate prompt :: l1) <= 1).
    { destruct Hl1 as [-> | ->]; cbn; lia. }
    destruct Hc1 as [Hpg Hmodel].
    destruct (GeminiProvider.generate prompt true h) as [[text|e] h1];
      cbn [snd] in L1 |- *.
    + exists (CallProviderGenerate prompt :: l1). repeat split; try assumption; lia.
    + destruct (exc_is_Exception e);
        [destruct (attempt <? max_retries - 1)%nat|]; cbn [snd].
      * destruct (IH (S attempt) h1) as (l2 & L2 & B2 & M2 & _).
        exists ((CallProviderGenerate prompt :: l1) ++ l2).
        rewrite L2, L1, <- app_assoc, !count_app. repeat split; lia.
      * exists (CallProviderGenerate prompt :: l1). repeat split; try assumption; lia.
      * exists (CallProviderGenerate prompt :: l1). repeat split; try assumption; lia.
Qed.

(** X10: one call of the interface reaches the provider at least once and
    at most three times, and the remote model no more often than the
    provider. *)
Theorem retry_is_bounded prompt (h : heap W) :
  exists l,
    calls (snd (AIModelInterface.generate_with_retry prompt h))
    = calls h ++ CallGenerateWithRetry prompt :: l
    /\ 1 <= count is_CallProviderGenerate l <= AIModelInterface.DEFAULT_MAX_RETRIES
    /\ count is_CallModel l <= count is_CallProviderGenerate l.
Proof.
  unfold AIModelInterface.generate_with_retry, GeminiProvider.generate_with_retry,
    bind, record, modify.
  destruct (retry_loop_bound AIModelInterface.DEFAULT_MAX_RETRIES prompt
                             AIModelInterface.DEFAULT_MAX_RETRIES 0
                             (set_calls (calls h ++ [CallGenerateWithRetry prompt]) h))
    as (l & L & B & M & One).
  exists l. rewrite L. cbn [calls set_calls]. rewrite <- app_assoc.
  unfold AIModelInterface.DEFAULT_MAX_RETRIES in *.
  repeat split; try lia; try assumption.
Qed.

(** The attempts of a provider whose model faults at every call. *)
Lemma retry_loop_exhausted max_retries prompt remaining :
  (forall w, exists w' e,
      generate_content w prompt = (w', Raise e) /\ exc_is_Exception e = true) ->
  forall attempt (h : heap W),
    attempt + remaining = max_retries ->
    1 <= remaining ->
    _cache (ai h) !! prompt = None ->
    let out := GeminiProvider.retry_loop max_retries attempt remaining prompt h in
    (exists e, fst out = Raise e /\ exc_is_Exception e = true)
    /\ ai (snd out) = ai h
    /\ calls (snd out)
       = calls h
         ++ concat (List.repeat [CallProviderGenerate prompt; CallModel prompt] remaining).
Proof.
  intros Hdown.
  induction remaining as [|remaining IH]; intros attempt h Hsum Hone Hmiss; [lia|].
  cbn zeta. cbn [GeminiProvider.retry_loop].
  unfold try_except, bind, ret, raise.
  rewrite (provider_generate_miss prompt true h Hmiss). cbn zeta.
  destruct (Hdown (world h)) as (w & e & Hcall & Hexc).
  rewrite Hcall, Hexc.
  destruct (Nat.ltb_spec attempt (max_retries - 1)) as [Hlt|Hge].
  - destruct (IH (S attempt)
                 (set_world w
                    (set_calls (calls h ++ [CallProviderGenerate prompt; CallModel prompt]) h)))
      as (Hraise & Hai & Hcalls); [lia | lia | exact Hmiss |].
    cbn zeta in Hraise, Hai, Hcalls.
    split; [exact Hraise|]. split; [exact Hai|].
    rewrite Hcalls. cbn [calls set_world set_calls List.repeat concat].
    rewrite <- !app_assoc. reflexivity.
  - assert (remaining = 0) as -> by lia.
    cbn [fst snd ai set_world set_calls calls List.repeat concat].
    rewrite app_nil_r. split; [eauto|]. split; reflexivity.
Qed.

(** X11: when the remote model faults at every call, with faults derived
    from [Exception], one call of the interface tries three times, raises
    a fault of the model and caches nothing. *)
Theorem retry_exhausted prompt (h : heap W) :
  (forall w, exists w' e,
      generate_content w prompt = (w', Raise e) /\ exc_is_Exception e = true) ->
  _cache (ai h) !! prompt = None ->
  let out := AIModelInterface.generate_with_retry prompt h in
  (exists e, fst out = Raise e /\ exc_is_Exception e = true)
  /\ ai (snd out) = ai h
  /\ calls (snd out)
     = calls h
       ++ [CallGenerateWithRetry prompt;
           CallProviderGenerate prompt; CallModel prompt;
           CallProviderGenerate prompt; CallModel prompt;
           CallProviderGenerate prompt; CallModel prompt].
Proof.
  intros Hdown Hmiss. cbn zeta.
  unfold AIModelInterface.generate_with_retry, GeminiProvider.generate_with_retry,
    bind, record, modify.
  destruct (retry_loop_exhausted AIModelInterface.DEFAULT_MAX_RETRIES prompt
                                 AIModelInterface.DEFAULT_MAX_RETRIES Hdown 0
                                 (set_calls (calls h ++ [CallGenerateWithRetry prompt]) h))
    as (Hraise & Hai & Hcalls);
    [reflexivity | unfold AIModelInterface.DEFAULT_MAX_RETRIES; lia | exact Hmiss |].
  cbn zeta in Hraise, Hai, Hcalls.
  split; [exact Hraise|]. split; [exact Hai|].
  rewrite Hcalls. cbn [calls set_calls List.repeat concat app
                       AIModelInterface.DEFAULT_MAX_RETRIES].
  rewrite <- app_assoc. reflexivity.
Qed.

(** X12: a fault of the remote model outside [Exception] is not retried:
    it leaves the interface after the first attempt. *)
Theorem interrupt_is_not_retried prompt (h : heap W) w e :
  generate_content (world h) prompt = (w, Raise e) ->
  exc_is_Exception e = false ->
  _cache (ai h) !! prompt = None ->
  AIModelInterface.generate_with_retry prompt h
  = (Raise e,
     set_world w
       (set_calls (calls h ++ [CallGenerateWithRetry prompt;
                               CallProviderGenerate prompt; CallModel prompt]) h)).
Proof.
  intros Hcall Hexc Hmiss.
  unfold AIModelInterface.generate_with_retry, GeminiProvider.generate_with_retry,
    bind, record, modify.
  cbn [GeminiProvider.retry_loop AIModelInterface.DEFAULT_MAX_RETRIES].
  unfold try_except, bind, ret.
  set (h0 := set_calls (calls h ++ [CallGenerateWithRetry prompt]) h).
  assert (Hmiss0 : _cache (ai h0) !! prompt = None) by exact Hmiss.
  rewrite (provider_generate_miss prompt true h0 Hmiss0). cbn zeta.
  change (world h0) with (world h). rewrite Hcall, Hexc.
  subst h0. cbn [calls set_calls]. rewrite <- app_assoc. reflexivity.
Qed.

End ProviderFurther.

Section ProviderWitnesses.

Lemma provider_cache_round_trip_witness :
  _cache (ai (snd (GeminiProvider.generate
                     (R:=Scripted.runtime ANSWERS) "Click button" true
                     (BrowserAutomator.init (Scripted.config 3 true) 0))))
    !! "Click button" = Some "env.wait(1)"
  /\ GeminiProvider.generate
       (R:=Scripted.runtime ANSWERS) "Click button" true
       (snd (GeminiProvider.generate
               (R:=Scripted.runtime ANSWERS) "Click button" true
               (BrowserAutomator.init (Scripted.config 3 true) 0)))
     = (Ret "env.wait(1)",
        set_calls
          (calls (snd (GeminiProvider.generate
                         (R:=Scripted.runtime ANSWERS) "Click button" true
                         (BrowserAutomator.init (Scripted.config 3 true) 0)))
           ++ [CallProviderGenerate "Click button"])
          (snd (GeminiProvider.generate
                  (R:=Scripted.runtime ANSWERS) "Click button" true
                  (BrowserAutomator.init (Scripted.config 3 true) 0)))).
Proof.
  apply (provider_cache_round_trip
           (R:=Scripted.runtime ANSWERS) "Click button" "env.wait(1)"
           (BrowserAutomator.init (Scripted.config 3 true) 0)).
  reflexivity.
Defined.

Lemma retry_exhausted_witness :
  (exists e,
      fst (AIModelInterface.generate_with_retry
             (R:=Scripted.runtime UNAVAILABLE) "Click button"
             (BrowserAutomator.init (Scripted.config 3 true) 0)) = Raise e
      /\ exc_is_Exception e = true)
  /\ count is_CallModel
           (calls (snd (AIModelInterface.generate_with_retry
                          (R:=Scripted.runtime UNAVAILABLE) "Click button"
                          (BrowserAutomator.init (Scripted.config 3 true) 0))))
     = 3.
Proof.
  destruct (retry_exhausted
              (R:=Scripted.runtime UNAVAILABLE) "Click button"
              (BrowserAutomator.init (Scripted.config 3 true) 0))
    as (Hraise & _ & Hcalls).
  - intros w. exists (S w), (Exc "RuntimeError" "503 service unavailable" true EmptyString).
    split; reflexivity.
  - reflexivity.
  - split; [exact Hraise|]. cbn zeta in Hcalls. rewrite Hcalls. reflexivity.
Defined.

Lemma interrupt_is_not_retried_witness :
  AIModelInterface.generate_with_retry
    (R:=Scripted.runtime INTERRUPTED) "Click button"
    (BrowserAutomator.init (Scripted.config 3 true) 0)
  = (Raise (Exc "KeyboardInterrupt" EmptyString false EmptyString),
     set_world 1
       (set_calls
          (calls (BrowserAutomator.init (W:=nat) (Scripted.config 3 true) 0)
           ++ [CallGenerateWithRetry "Click button";
               CallProviderGenerate "Click button"; CallModel "Click button"])
          (BrowserAutomator.init (Scripted.config 3 true) 0))).
Proof.
  apply (interrupt_is_not_retried (R:=Scripted.runtime INTERRUPTED)); reflexivity.
Defined.

End ProviderWitnesses.

(** ** Code fences and white space in a response *)

Section FenceFacts.
Import Py.

Lemma replace_from_skip old new s :
  forall k, replace_from old new k s = replace_from old new 0 (drop k s).
Proof.
  induction s as [|c s IH]; intros k.
  - destruct k; reflexivity.
  - destruct k as [|k]; [reflexivity|].
    cbn [replace_from drop]. apply IH.
Qed.

Lemma drop_length k : forall s, String.length (drop k s) <= String.length s.
Proof.
  induction k as [|k IH]; intros s; [cbn; lia|].
  destruct s as [|c s]; cbn [drop String.length]; [lia|].
  specialize (IH s). lia.
Qed.

Lemma replace_fence_match c s :
  startswith FENCE (String c s) = true ->
  replace FENCE EmptyString (String c s) = replace FENCE EmptyString (drop 2 s).
Proof.
  intros Hm. unfold replace. cbn [replace_from]. rewrite Hm.
  cbn [FENCE String.length Nat.sub String.append].
  apply replace_from_skip.
Qed.

Lemma replace_fence_other c s :
  startswith FENCE (String c s) = false ->
  replace FENCE EmptyString (String c s) = String c (replace FENCE EmptyString s).
Proof. intros Hm. unfold replace. cbn [replace_from]. rewrite Hm. reflexivity. Qed.

Lemma replace_fence_one s :
  startswith "`" (replace FENCE EmptyString s) = true -> startswith "`" s = true.
Proof.
  destruct s as [|c s]; [cbn; discriminate|].
  destruct (startswith FENCE (String c s)) eqn:Hm.
  - intros _. unfold FENCE in Hm. cbn [startswith] in Hm |- *.
    destruct (Ascii.eqb "`" c); [reflexivity | discriminate].
  - rewrite (replace_fence_other c s Hm). cbn [startswith]. trivial.
Qed.

Lemma replace_fence_two s :
  startswith "``" (replace FENCE EmptyString s) = true -> startswith "``" s = true.
Proof.
  destruct s as [|c s]; [cbn; discriminate|].
  destruct (startswith FENCE (String c s)) eqn:Hm.
  - intros _. unfold FENCE in Hm. cbn [startswith] in Hm |- *.
    destruct (Ascii.eqb "`" c); [|discriminate].
    destruct s as [|d s]; [discriminate|]. cbn [startswith] in Hm |- *.
    destruct (Ascii.eqb "`" d); [reflexivity | discriminate].
  - rewrite (replace_fence_other c s Hm). cbn [startswith].
    destruct (Ascii.eqb "`" c); [|discriminate].
    apply replace_fence_one.
Qed.

Lemma startswith_fence_cons c s :
  startswith FENCE (String c s)
  = if Ascii.eqb "`" c then startswith "``" s else false.
Proof. reflexivity. Qed.

(** Taking the fences out leaves no fence. *)
Lemma replace_fence_none s : contains FENCE (replace FENCE EmptyString s) = false.
Proof.
  remember (String.length s) as n eqn:Hn.
  assert (Hle : String.length s <= n) by lia. clear Hn.
  revert s Hle. induction n as [|n IH]; intros s Hle.
  - destruct s; [reflexivity | cbn in Hle; lia].
  - destruct s as [|c s]; [reflexivity|].
    cbn [String.length] in Hle.
    destruct (startswith FENCE (String c s)) eqn:Hm.
    + rewrite (replace_fence_match c s Hm). apply IH.
      pose proof (drop_length 2 s). lia.
    + rewrite (replace_fence_other c s Hm). cbn [contains].
      rewrite (IH s) by lia. rewrite orb_false_r.
      rewrite startswith_fence_cons in Hm |- *.
      destruct (Ascii.eqb "`" c); [|reflexivity].
      destruct (startswith "``" (replace FENCE EmptyString s)) eqn:Hr; [|reflexivity].
      apply replace_fence_two in Hr. congruence.
Qed.

Lemma contains_lstrip p s : contains p (lstrip s) = true -> contains p s = true.
Proof.
  induction s as [|c s IH]; cbn [lstrip]; [trivial|].
  destruct (is_space c); [|trivial].
  intros H. cbn [contains]. rewrite (IH H). apply orb_true_r.
Qed.

Lemma rstrip_prefix s : exists t, s = rstrip s +:+ t.
Proof.
  induction s as [|c s [t IH]]; [exists EmptyString; reflexivity|].
  cbn [rstrip]. destruct (rstrip s) as [|d r] eqn:Hr.
  - destruct (is_space c).
    + exists (String c s). reflexivity.
    + exists s. reflexivity.
  - exists t. change (String c s = String c (String d r +:+ t)). now rewrite <- IH.
Qed.

(** What [strip] returns is a piece of its argument. *)
Lemma contains_strip p s : contains p (strip s) = true -> contains p s = true.
Proof.
  unfold strip. intros H. apply contains_lstrip.
  destruct (rstrip_prefix (lstrip s)) as [t Ht]. rewrite Ht.
  now apply contains_app_l.
Qed.

Lemma not_contains_strip p s : contains p s = false -> contains p (strip s) = false.
Proof.
  intros H. destruct (contains p (strip s)) eqn:E; [|reflexivity].
  apply contains_strip in E. congruence.
Qed.

(** What the provider makes of a response is trimmed and holds no code
    fence. *)
Lemma clean_response_clean (response_text : string) :
  strip (clean_response response_text) = clean_response response_text
  /\ contains FENCE (clean_response response_text) = false.
Proof.
  unfold clean_response. split; [apply strip_idem|].
  apply not_contains_strip, replace_fence_none.
Qed.

End FenceFacts.

Section ProviderText.
Context {W : Type} {R : Runtime W}.
Import Py.

(** X13: a text the provider returns from the remote model is trimmed and
    holds no code fence, whatever the model answered, and with the cache in
    use this text is what the cache holds for the prompt afterwards. *)
Theorem provider_returns_clean_text prompt (use_cache : bool) (h : heap W) text :
  (if use_cache then _cache (ai h) !! prompt else @None string) = None ->
  fst (GeminiProvider.generate prompt use_cache h) = Ret text ->
  strip text = text
  /\ contains FENCE text = false
  /\ (use_cache = true ->
      _cache (ai (snd (GeminiProvider.generate prompt use_cache h))) !! prompt
      = Some text).
Proof.
  intros Hmiss. rewrite (provider_generate_miss prompt use_cache h Hmiss). cbn zeta.
  destruct (generate_content (world h) prompt) as [w [response_text|e]];
    cbn [fst snd]; [|discriminate].
  intros [= <-]. destruct (clean_response_clean response_text) as [Hs Hf].
  split; [exact Hs|]. split; [exact Hf|].
  intros ->. cbn [ai set_ai _cache]. apply lookup_insert_eq.
Qed.

End ProviderText.

Section ProviderTextWitness.
Import Py.

Lemma provider_returns_clean_text_witness :
  strip "env.wait(1)" = "env.wait(1)"
  /\ contains FENCE "env.wait(1)" = false
  /\ (true = true ->
      _cache (ai (snd (GeminiProvider.generate
                         (R:=Scripted.runtime FENCED) "Wait" true
                         (BrowserAutomator.init (Scripted.config 3 true) 0))))
        !! "Wait"
      = Some "env.wait(1)").
Proof.
  apply (provider_returns_clean_text
           (R:=Scripted.runtime FENCED) "Wait" true
           (BrowserAutomator.init (Scripted.config 3 true) 0));
    reflexivity.
Defined.

End ProviderTextWitness.

(** ** The post-processing of a snippet *)

Section CleanCodeFacts.
Import Py CodeGenerator.

Lemma startswith_before_newline p :
  newline_free p = true ->
  forall a b, startswith p (a +:+ NL +:+ b) = true -> startswith p a = true.
Proof.
  induction p as [|c p IH]; intros Hp a b; [reflexivity|].
  cbn [newline_free] in Hp. apply andb_prop in Hp as [Hc Hp].
  apply negb_true_iff in Hc.
  destruct a as [|x a].
  - change (EmptyString +:+ NL +:+ b) with (String LF b).
    cbn [startswith]. rewrite Hc. discriminate.
  - change (String x a +:+ NL +:+ b) with (String x (a +:+ NL +:+ b)).
    cbn [startswith]. destruct (Ascii.eqb c x); [apply (IH Hp) | discriminate].
Qed.

(** A piece without a line feed lies on one side of a line feed. *)
Lemma contains_across_newline p a b :
  newline_free p = true -> p <> EmptyString ->
  contains p (a +:+ NL +:+ b) = true ->
  contains p a = true \/ contains p b = true.
Proof.
  intros Hp Hne. induction a as [|x a IH].
  - change (EmptyString +:+ NL +:+ b) with (String LF b).
    cbn [contains]. intros H.
    apply orb_prop in H as [H|H]; [|now right].
    destruct p as [|c p]; [congruence|].
    cbn [newline_free] in Hp. apply andb_prop in Hp as [Hc _].
    apply negb_true_iff in Hc. cbn [startswith] in H.
    rewrite Hc in H. discriminate.
  - change (String x a +:+ NL +:+ b) with (String x (a +:+ NL +:+ b)).
    cbn [contains]. intros H. apply orb_prop in H as [H|H].
    + left.
      change (String x (a +:+ NL +:+ b)) with (String x a +:+ NL +:+ b) in H.
      rewrite (startswith_before_newline p Hp _ _ H). reflexivity.
    + destruct (IH H) as [Ha|Hb]; [left | now right].
      rewrite Ha. apply orb_true_r.
Qed.

Lemma contains_join p ls :
  newline_free p = true -> p <> EmptyString ->
  contains p (join NL ls) = true ->
  exists l, In l ls /\ contains p l = true.
Proof.
  intros Hp Hne. induction ls as [|x ls IH].
  - cbn [join contains]. destruct p; [congruence | discriminate].
  - destruct ls as [|y ls].
    + cbn [join]. intros H. exists x. split; [now left | exact H].
    + change (join NL (x :: y :: ls)) with (x +:+ NL +:+ join NL (y :: ls)).
      intros H.
      destruct (contains_across_newline p _ _ Hp Hne H) as [Hx|Hrest].
      * exists x. split; [now left | exact Hx].
      * destruct (IH Hrest) as (l & Hin & Hl). exists l. split; [now right | exact Hl].
Qed.

Lemma join_contains p ls l :
  In l ls -> contains p l = true -> contains p (join NL ls) = true.
Proof.
  induction ls as [|x ls IH]; intros Hin Hl; [destruct Hin|].
  destruct ls as [|y ls].
  - destruct Hin as [<-|[]]. exact Hl.
  - change (join NL (x :: y :: ls)) with (x +:+ NL +:+ join NL (y :: ls)).
    destruct Hin as [<-|Hin].
    + now apply contains_app_l.
    + apply contains_app_r, contains_app_r. now apply IH.
Qed.

Lemma split_lines_nonempty s : split_lines s <> [].
Proof.
  destruct s as [|c s]; cbn [split_lines]; [discriminate|].
  destruct (Ascii.eqb c LF); [discriminate|].
  destruct (split_lines s); discriminate.
Qed.

(** Joining the lines of a text gives the text back. *)
Lemma join_split_lines s : join NL (split_lines s) = s.
Proof.
  induction s as [|c s IH]; [reflexivity|].
  cbn [split_lines]. destruct (Ascii.eqb_spec c LF) as [->|Hc].
  - pose proof (split_lines_nonempty s) as Hne.
    destruct (split_lines s) as [|l ls]; [congruence|].
    change (join NL (EmptyString :: l :: ls))
      with (EmptyString +:+ NL +:+ join NL (l :: ls)).
    rewrite IH. reflexivity.
  - pose proof (split_lines_nonempty s) as Hne.
    destruct (split_lines s) as [|l ls]; [congruence|].
    rewrite <- IH. destruct ls; reflexivity.
Qed.

Lemma drop_blank_runs_subset lines :
  forall prev_blank l, In l (drop_blank_runs lines prev_blank) -> In l lines.
Proof.
  induction lines as [|x lines IH]; intros prev_blank l; cbn [drop_blank_runs];
    [trivial|].
  destruct (is_empty (strip x) && prev_blank).
  - intros H. right. now apply (IH prev_blank).
  - intros [<-|H]; [now left | right; now apply (IH (is_empty (strip x)) l)].
Qed.

(** Dropping blank lines of a text brings no new piece into it. *)
Lemma contains_blank_runs p s prev_blank :
  newline_free p = true -> p <> EmptyString ->
  contains p (join NL (drop_blank_runs (split_lines s) prev_blank)) = true ->
  contains p s = true.
Proof.
  intros Hp Hne H.
  destruct (contains_join p _ Hp Hne H) as (l & Hin & Hl).
  apply drop_blank_runs_subset in Hin.
  rewrite <- (join_split_lines s). now apply (join_contains p _ l).
Qed.

Lemma no_tick_app a b : no_tick (a +:+ b) = no_tick a && no_tick b.
Proof.
  induction a as [|c a IH]; [reflexivity|].
  change (String c a +:+ b) with (String c (a +:+ b)).
  cbn [no_tick]. rewrite IH. apply andb_assoc.
Qed.

Lemma no_tick_no_fence s : no_tick s = true -> contains FENCE s = false.
Proof.
  induction s as [|c s IH]; [reflexivity|].
  cbn [no_tick]. intros H. apply andb_prop in H as [Hc Hs].
  apply negb_true_iff in Hc. cbn [contains].
  rewrite (IH Hs), startswith_fence_cons, Hc. reflexivity.
Qed.

Lemma word_is_no_tick c : is_word c = true -> Ascii.eqb "`" c = false.
Proof.
  destruct (Ascii.eqb_spec "`" c) as [<-|]; [vm_compute; discriminate | reflexivity].
Qed.

Lemma take_while_word_no_tick s : no_tick (take_while is_word s) = true.
Proof.
  induction s as [|c s IH]; [reflexivity|].
  cbn [take_while]. destruct (is_word c) eqn:Hw; [|reflexivity].
  cbn [no_tick]. rewrite (word_is_no_tick c Hw), IH. reflexivity.
Qed.

Lemma match_class_no_tick s name : match_class s = Some name -> no_tick name = true.
Proof.
  unfold match_class. destruct (startswith "class" s); [|discriminate].
  destruct (drop 5 s) as [|c after]; [discriminate|].
  destruct (is_space c); [|discriminate].
  destruct (is_empty (take_while is_word (lstrip (String c after)))); [discriminate|].
  intros [= <-]. apply take_while_word_no_tick.
Qed.

(** The name the search finds is made of word characters. *)
Lemma search_class_no_tick code name :
  search_class code = Some name -> no_tick name = true.
Proof.
  induction code as [|c code IH]; cbn [search_class].
  - destruct (match_class EmptyString) eqn:Hm; [|discriminate].
    intros [= <-]. now apply (match_class_no_tick EmptyString).
  - destruct (match_class (String c code)) eqn:Hm; [|exact IH].
    intros [= <-]. now apply (match_class_no_tick (String c code)).
Qed.

Lemma append_fence_free code rest :
  contains FENCE code = false -> no_tick rest = true ->
  contains FENCE (code +:+ NL +:+ rest) = false.
Proof.
  intros Hcode Hrest.
  destruct (contains FENCE (code +:+ NL +:+ rest)) eqn:H; [|reflexivity].
  apply contains_across_newline in H as [H|H]; [congruence | | reflexivity | discriminate].
  rewrite (no_tick_no_fence rest Hrest) in H. discriminate.
Qed.

(** The snippet that leaves the post-processing holds no code fence. *)
Lemma clean_code_fence_free (code : string) :
  contains FENCE (_clean_code code) = false.
Proof.
  unfold _clean_code. cbn zeta.
  set (code1 := strip (replace "```" EmptyString (replace "```python" EmptyString code))).
  set (code2 := strip (join NL (drop_blank_runs (split_lines code1) false))).
  assert (H1 : contains FENCE code1 = false)
    by apply not_contains_strip, replace_fence_none.
  assert (H2 : contains FENCE code2 = false).
  { apply not_contains_strip.
    destruct (contains FENCE (join NL (drop_blank_runs (split_lines code1) false)))
      eqn:H; [|reflexivity].
    apply contains_blank_runs in H; [congruence | reflexivity | discriminate]. }
  destruct ((contains "def " code2 || contains "class " code2)
            && negb (existsb is_direct_call (split_lines code2))); [|exact H2].
  destruct (contains "class " code2).
  - destruct (search_class code2) as [name|] eqn:Hs; [|exact H2].
    apply append_fence_free; [exact H2|].
    apply search_class_no_tick in Hs.
    rewrite !no_tick_app, Hs. reflexivity.
  - destruct (contains "def main" code2 || contains "def automation" code2);
      [|exact H2].
    destruct (contains "def main" code2); [now apply append_fence_free|].
    destruct (contains "def automation" code2); [now apply append_fence_free|].
    exact H2.
Qed.

Lemma rstrip_app a b :
  rstrip b = b -> b <> EmptyString -> rstrip (a +:+ b) = a +:+ b.
Proof.
  intros Hb Hne. induction a as [|c a IH]; [exact Hb|].
  change (String c a +:+ b) with (String c (a +:+ b)).
  cbn [rstrip]. rewrite IH.
  destruct (a +:+ b) eqn:E; [|reflexivity].
  destruct a; [change (b = EmptyString) in E; congruence | discriminate].
Qed.

Lemma strip_app a b :
  strip a = a -> a <> EmptyString -> rstrip b = b -> b <> EmptyString ->
  strip (a +:+ b) = a +:+ b.
Proof.
  intros Ha Hane Hb Hbne. unfold strip.
  assert (Hlead : lstrip (a +:+ b) = a +:+ b).
  { pose proof (rstrip_no_lead _ (lstrip_no_lead a)) as Hl.
    fold (strip a) in Hl. rewrite Ha in Hl.
    destruct a as [|c a]; [congruence|]. cbn [no_lead] in Hl.
    change (String c a +:+ b) with (String c (a +:+ b)).
    cbn [lstrip]. rewrite Hl. reflexivity. }
  rewrite Hlead. now apply rstrip_app.
Qed.

Lemma contains_nonempty p s :
  p <> EmptyString -> contains p s = true -> s <> EmptyString.
Proof.
  intros Hp H ->. destruct p; [congruence | discriminate].
Qed.

Lemma class_call_trimmed name :
  rstrip (CLASS_CALL name) = CLASS_CALL name /\ CLASS_CALL name <> EmptyString.
Proof.
  split; [|discriminate].
  unfold CLASS_CALL.
  repeat (apply rstrip_app; [|discriminate]).
  apply rstrip_app; [|destruct name; discriminate].
  apply rstrip_app; [reflexivity | discriminate].
Qed.

(** The snippet that leaves the post-processing is trimmed. *)
Lemma clean_code_trimmed (code : string) :
  strip (_clean_code code) = _clean_code code.
Proof.
  unfold _clean_code. cbn zeta.
  set (code1 := strip (replace "```" EmptyString (replace "```python" EmptyString code))).
  set (code2 := strip (join NL (drop_blank_runs (split_lines code1) false))).
  assert (H2 : strip code2 = code2) by apply strip_idem.
  destruct (contains "def " code2 || contains "class " code2) eqn:Hdef;
    cbn [andb]; [|exact H2].
  assert (Hne : code2 <> EmptyString).
  { apply orb_prop in Hdef as [H|H];
      [apply (contains_nonempty "def ") in H | apply (contains_nonempty "class ") in H];
      try assumption; discriminate. }
  destruct (negb (existsb is_direct_call (split_lines code2))); [|exact H2].
  destruct (contains "class " code2).
  - destruct (search_class code2) as [name|]; [|exact H2].
    destruct (class_call_trimmed name) as [Ht Hn]. now apply strip_app.
  - destruct (contains "def main" code2 || contains "def automation" code2);
      [|exact H2].
    destruct (contains "def main" code2);
      [apply strip_app; try assumption; [reflexivity | discriminate]|].
    destruct (contains "def automation" code2);
      [apply strip_app; try assumption; [reflexivity | discriminate]|].
    exact H2.
Qed.

(** X14: the snippet that leaves the post-processing is trimmed and holds
    no code fence, whatever the model answered and whether or not a call
    was appended. *)
Theorem clean_code_output (code : string) :
  strip (_clean_code code) = _clean_code code
  /\ contains FENCE (_clean_code code) = false.
Proof.
  split; [apply clean_code_trimmed | apply clean_code_fence_free].
Qed.

Lemma drop_blank_runs_no_run lines :
  forall prev_blank,
    no_blank_run (drop_blank_runs lines prev_blank) prev_blank = true.
Proof.
  induction lines as [|x lines IH]; intros prev_blank; [reflexivity|].
  cbn [drop_blank_runs]. fold (is_blank x).
  destruct (is_blank x && prev_blank) eqn:E; [apply IH|].
  cbn [no_blank_run]. rewrite E, IH. reflexivity.
Qed.

Lemma drop_blank_runs_keeps lines :
  forall prev_blank,
    List.filter (fun l => negb (is_blank l)) (drop_blank_runs lines prev_blank)
    = List.filter (fun l => negb (is_blank l)) lines.
Proof.
  induction lines as [|x lines IH]; intros prev_blank; [reflexivity|].
  cbn [drop_blank_runs List.filter]. fold (is_blank x).
  destruct (is_blank x) eqn:E; cbn [andb negb].
  - destruct prev_blank; [apply IH|].
    cbn [List.filter]. rewrite E. cbn [negb]. apply IH.
  - cbn [List.filter]. rewrite E. cbn [negb]. now rewrite IH.
Qed.

(** X15: the loop over the lines of a snippet keeps every line that is not
    blank, in order, and leaves no two blank lines in a row. *)
Theorem blank_runs_collapse (lines : list string) :
  no_blank_run (drop_blank_runs lines false) false = true
  /\ List.filter (fun l => negb (is_blank l)) (drop_blank_runs lines false)
     = List.filter (fun l => negb (is_blank l)) lines.
Proof.
  split; [apply drop_blank_runs_no_run | apply drop_blank_runs_keeps].
Qed.

End CleanCodeFacts.

(** ** The code generator *)

Section GeneratorFurther.
Context {W : Type} {R : Runtime W}.
Import Py CodeGenerator.

(** X16: the prompt begins with the system prompt, holds the instruction,
    holds the context when there is one and the error with the directive to
    fix it when there is one, and ends with the header of the answer; an
    empty context or error counts as none. *)
Theorem build_prompt_contents (instruction : string) (context error : option string) :
  let prompt := _build_prompt instruction context error in
  startswith SYSTEM_PROMPT prompt = true
  /\ contains instruction prompt = true
  /\ (truthy context = true -> contains (fmt context) prompt = true)
  /\ (truthy error = true ->
      contains (fmt error) prompt = true
      /\ contains "Fix the error and try again." prompt = true)
  /\ (exists before,
         prompt = before +:+ "OUTPUT (Python code only):" +:+ NL +:+ "```python" +:+ NL)
  /\ _build_prompt instruction (Some EmptyString) error
     = _build_prompt instruction None error
  /\ _build_prompt instruction context (Some EmptyString)
     = _build_prompt instruction context None.
Proof.
  unfold _build_prompt. cbn zeta. generalize SYSTEM_PROMPT. intros sp.
  split; [|split; [|split; [|split; [|split]]]].
  - repeat apply startswith_app_l.
    destruct (truthy error), (truthy context);
      repeat apply startswith_app_l; apply startswith_refl.
  - apply contains_app_l.
    destruct (truthy error); [do 2 apply contains_app_l|];
      apply contains_app_r, contains_app_r, contains_app_r, contains_here,
        startswith_app.
  - intros Hc. rewrite Hc. apply contains_app_l.
    destruct (truthy error); [do 2 apply contains_app_l|]; apply contains_app_l;
      apply contains_app_r, contains_app_r, contains_app_r, contains_here,
        startswith_app.
  - intros He. rewrite He. split; apply contains_app_l.
    + apply contains_app_l, contains_app_r, contains_app_r, contains_app_r,
        contains_here, startswith_app.
    + apply contains_app_r, contains_here, startswith_app.
  - eexists. reflexivity.
  - split; reflexivity.
Qed.

Lemma build_prompt_contents_witness :
  contains "Element not found"
           (_build_prompt "Click button" None (Some "Element not found")) = true
  /\ contains "Fix the error and try again."
              (_build_prompt "Click button" None (Some "Element not found")) = true.
Proof.
  exact (proj1 (proj2 (proj2 (proj2 (build_prompt_contents
                                       "Click button" None (Some "Element not found")))))
               eq_refl).
Defined.

(** A fault that leaves the generator is a fault of the library or the
    [AttributeError] of a loop that ran out: [str] of it returns, and so
    do the f-strings that log it. *)
Lemma generate_faults_print instruction context retry_on_error (h : heap W) e :
  fst (generate instruction context retry_on_error h) = Raise e -> prints e = true.
Proof.
  unfold generate, bind, record, modify, get. cbn zeta.
  set (h0 := set_calls (calls h ++ [CallCodeGenerator instruction context retry_on_error]) h).
  change (code_generator h0) with (code_generator h).
  assert (Hai : forall e0,
             fst (AIModelInterface.generate_with_retry
                    (_build_prompt instruction context retry_on_error) h0) = Raise e0 ->
             prints e0 = true).
  { intros e0. unfold AIModelInterface.generate_with_retry,
      GeminiProvider.generate_with_retry, bind, record, modify.
    apply retry_loop_faults_print. }
  assert (Hmiss :
            fst ((let* response :=
                   AIModelInterface.generate_with_retry
                     (_build_prompt instruction context retry_on_error) in
                 match response with
                 | None => raise NONE_HAS_NO_REPLACE
                 | Some code =>
                     let code := _clean_code code in
                     let* h := get in
                     let* _ :=
                       (if cache_enabled (code_generator h)
                        then modify (set_code_generator
                                       {| cache_enabled := cache_enabled (code_generator h);
                                          _code_cache :=
                                            <[cache_key instruction context retry_on_error
                                              := code]> (_code_cache (code_generator h)) |})
                        else ret tt) in
                     ret code
                 end) h0) = Raise e -> prints e = true).
  { unfold bind, get, modify, ret, raise.
    destruct (AIModelInterface.generate_with_retry
                (_build_prompt instruction context retry_on_error) h0)
      as [[[code|]|e0] h1]; cbn [fst] in Hai |- *.
    - destruct (cache_enabled (code_generator h1)); discriminate.
    - intros [= <-]. reflexivity.
    - intros [= <-]. now apply Hai. }
  destruct (cache_enabled (code_generator h));
    [destruct (_code_cache (code_generator h) !! _); [discriminate|]|];
    exact Hmiss.
Qed.

(** What one call of the generator does to the cache of snippets. *)
Lemma generate_cache instruction context retry_on_error (h : heap W) :
  let key := cache_key instruction context retry_on_error in
  let r := fst (generate instruction context retry_on_error h) in
  let h1 := snd (generate instruction context retry_on_error h) in
  (cache_enabled (code_generator h) = false -> code_generator h1 = code_generator h)
  /\ (forall k, k <> key ->
                _code_cache (code_generator h1) !! k
                = _code_cache (code_generator h) !! k)
  /\ (forall e, r = Raise e -> code_generator h1 = code_generator h)
  /\ (cache_enabled (code_generator h) = false
      \/ _code_cache (code_generator h) !! key = None ->
      forall code, r = Ret code -> exists text, code = _clean_code text).
Proof.
  intros key r h1. subst r h1.
  unfold generate, bind, record, modify, get. cbn zeta.
  set (h0 := set_calls (calls h ++ [CallCodeGenerator instruction context retry_on_error]) h).
  fold key.
  change (code_generator h0) with (code_generator h).
  pose proof (interface_generate_with_retry
                (_build_prompt instruction context retry_on_error) h0)
    as (_ & _ & G & _).
  cbn zeta in G.
  destruct (AIModelInterface.generate_with_retry
              (_build_prompt instruction context retry_on_error) h0)
    as [res h'] eqn:Hgen.
  cbn [snd] in G.
  change (code_generator h0) with (code_generator h) in G.
  destruct (cache_enabled (code_generator h)) eqn:Hen.
  - destruct (_code_cache (code_generator h) !! key) as [cached|] eqn:Hlook.
    + cbn [ret fst snd]. split; [discriminate|]. split; [reflexivity|].
      split; [reflexivity|]. intros [?|?]; discriminate.
    + cbn beta. rewrite Hgen.
      destruct res as [[code|]|e]; cbn [raise ret fst snd];
        [rewrite G, Hen;
         cbn [ret fst snd set_code_generator code_generator cache_enabled _code_cache]|..];
        (split; [discriminate|]);
        (split; [intros k Hk;
                 first [now rewrite G | apply lookup_insert_ne; congruence]|]);
        (split; [first [discriminate | intros; exact G]|]);
        intros _ code' Hr; first [discriminate Hr | injection Hr as <-; eauto].
  - cbn beta. rewrite Hgen.
    destruct res as [[code|]|e]; cbn [raise ret fst snd];
      [rewrite G, Hen; cbn [ret fst snd]|..];
      (split; [intros _; first [exact G | now rewrite G]|]);
      (split; [intros; now rewrite G|]);
      (split; [intros; first [exact G | now rewrite G]|]);
      intros _ code' Hr; first [discriminate Hr | injection Hr as <-; eauto].
Qed.

(** X17: a call of the generator writes at most the entry of its own key:
    the entry of every other key is as before, nothing is written when
    caching is disabled, and nothing is written when the call faults. *)
Theorem generate_writes_own_key instruction context retry_on_error (h : heap W) :
  let h1 := snd (generate instruction context retry_on_error h) in
  (forall k, k <> cache_key instruction context retry_on_error ->
             _code_cache (code_generator h1) !! k
             = _code_cache (code_generator h) !! k)
  /\ (cache_enabled (code_generator h) = false -> code_generator h1 = code_generator h)
  /\ (forall e, fst (generate instruction context retry_on_error h) = Raise e ->
                code_generator h1 = code_generator h).
Proof.
  pose proof (generate_cache instruction context retry_on_error h)
    as (Hoff & Hother & Hraise & _).
  cbn zeta in *. repeat split; assumption.
Qed.

(** X18: a snippet the generator gets from the provider is post-processed:
    when the call is not answered from the cache, the snippet returned is
    trimmed and holds no code fence. *)
Theorem generate_returns_clean_snippet instruction context retry_on_error
        (h : heap W) (code : string) :
  cache_enabled (code_generator h) = false
  \/ _code_cache (code_generator h) !! cache_key instruction context retry_on_error
     = None ->
  fst (generate instruction context retry_on_error h) = Ret code ->
  strip code = code /\ contains FENCE code = false.
Proof.
  intros Hmiss Hret.
  pose proof (generate_cache instruction context retry_on_error h)
    as (_ & _ & _ & Hclean).
  cbn zeta in Hclean. destruct (Hclean Hmiss code Hret) as [text ->].
  split; [apply clean_code_trimmed | apply clean_code_fence_free].
Qed.

(** X19: after [clear_cache] the cache of snippets is empty, and the next
    call of the generator, whatever its tuple, invokes the provider once. *)
Theorem clear_cache_forces_query instruction context retry_on_error (h : heap W) :
  let h0 := snd (clear_cache h) in
  _code_cache (code_generator h0) = ∅
  /\ cache_enabled (code_generator h0) = cache_enabled (code_generator h)
  /\ exists l,
      calls (snd (generate instruction context retry_on_error h0))
      = calls h
        ++ CallCodeGenerator instruction context retry_on_error
        :: CallGenerateWithRetry (_build_prompt instruction context retry_on_error)
        :: l
      /\ forallb is_backend l = true.
Proof.
  cbn zeta. unfold clear_cache, modify. cbn [snd].
  split; [reflexivity|]. split; [reflexivity|].
  match goal with
  | |- context [generate _ _ _ ?h0] =>
      pose proof (generate_spec instruction context retry_on_error h0)
        as (_ & _ & _ & _ & l & L & _ & Miss & _)
  end.
  cbn zeta in L, Miss.
  destruct Miss as (l' & -> & Hl'); [right; apply lookup_empty|].
  exists l'. split; [exact L | exact Hl'].
Qed.

End GeneratorFurther.

Section GeneratorWitnesses.
Import Py CodeGenerator.

Lemma generate_writes_own_key_witness :
  _code_cache
    (code_generator
       (snd (generate_in ANSWERS "Click login" None None
               (snd (generate_in ANSWERS "Open page" None None
                       (BrowserAutomator.init (Scripted.config 3 true) 0))))))
    !! cache_key "Open page" None None
  = _code_cache
      (code_generator
         (snd (generate_in ANSWERS "Open page" None None
                 (BrowserAutomator.init (Scripted.config 3 true) 0))))
      !! cache_key "Open page" None None.
Proof.
  apply (proj1 (generate_writes_own_key
                  (R:=Scripted.runtime ANSWERS) "Click login" None None
                  (snd (generate_in ANSWERS "Open page" None None
                          (BrowserAutomator.init (Scripted.config 3 true) 0))))).
  vm_compute. discriminate.
Defined.

Lemma generate_returns_clean_snippet_witness :
  strip "env.wait(1)" = "env.wait(1)" /\ contains FENCE "env.wait(1)" = false.
Proof.
  apply (generate_returns_clean_snippet
           (R:=Scripted.runtime ANSWERS) "Click button" None None
           (BrowserAutomator.init (Scripted.config 3 true) 0)).
  - right. reflexivity.
  - reflexivity.
Defined.

End GeneratorWitnesses.

(** ** The engine *)

Section EngineFurther.
Context {W : Type} {R : Runtime W}.
Import Py ActionEngine.

(** X20: every call of [execute] advances the count of the engine by one,
    whether the snippet runs to its end, raises a fault the engine reports
    or raises one that leaves the engine, and leaves the engine's settings
    and the other objects of the automator as they were.  It captures the
    page exactly when the snippet raised a fault derived from [Exception]
    whose [str] returns, the engine was built with [screenshot_on_error]
    and [os.makedirs] made the directory; the file is named after the
    advanced count.  A snippet that runs to its end, a fault outside
    [Exception], a fault whose [str] raises, an engine built without the
    flag and a directory that cannot be made capture nothing. *)
Theorem execute_counts_and_captures (h : heap W) (self : ActionEngine_state)
        (code : string) :
  engine h = Some self ->
  let h1 := snd (execute code h) in
  let out := py_exec (world h) code in
  engine h1 = Some {| screenshot_on_error := screenshot_on_error self;
                      screenshot_dir := screenshot_dir self;
                      execution_count := execution_count self + 1 |}
  /\ config h1 = config h /\ ai h1 = ai h /\ parser h1 = parser h
  /\ code_generator h1 = code_generator h
  /\ calls h1
     = calls h
       ++ CallExecute code
       :: match snd out with
          | Some e =>
              if exc_is_Exception e && prints e && screenshot_on_error self
                 && snd (os_makedirs (fst out) (screenshot_dir self))
              then [CallScreenshot
                      (error_file (screenshot_dir self) (execution_count self + 1))]
              else []
          | None => []
          end.
Proof.
  intros Heng. cbn zeta.
  pose proof (execute_outcome code h self Heng) as H. cbn zeta in H.
  unfold error_file.
  destruct (snd (py_exec (world h) code)) as [[t m b tb|t r b tb]|];
    cbn [exc_is_Exception exc_str prints andb] in *.
  - destruct b; cbn [andb]; [|rewrite H; repeat split].
    destruct H as (msg & _ & H).
    destruct (screenshot_on_error self); cbn [andb];
      [destruct (snd (os_makedirs _ _)); destruct H as [w' H]|];
      rewrite H; repeat split.
  - destruct b; cbn [andb]; rewrite H; repeat split.
  - rewrite H. repeat split.
Qed.

Lemma last_n_length {A} n (l : list A) :
  List.length (last_n n l) = Nat.min n (List.length l).
Proof. unfold last_n. rewrite List.length_skipn. lia. Qed.

Lemma last_n_suffix {A} n (l : list A) : exists pre, l = pre ++ last_n n l.
Proof.
  unfold last_n. exists (List.firstn (List.length l - n) l).
  symmetry. apply List.firstn_skipn.
Qed.

Lemma append_assoc (a b c : string) : (a +:+ b) +:+ c = a +:+ b +:+ c.
Proof.
  induction a as [|x a IH]; [reflexivity|].
  change (String x ((a +:+ b) +:+ c) = String x (a +:+ b +:+ c)). now rewrite IH.
Qed.

Lemma append_nil_r (a : string) : a +:+ EmptyString = a.
Proof.
  induction a as [|x a IH]; [reflexivity|].
  change (String x (a +:+ EmptyString) = String x a). now rewrite IH.
Qed.

(** X21: when [str] of the fault returns, the message [_format_error]
    builds is the name of the class, a colon and the text of the fault,
    followed by the last five (all, when there are fewer) of the lines of
    the traceback that name the snippet or name no file, in the order of
    the traceback, each on a line of its own; when [str] of the fault
    raises, that fault leaves [_format_error]. *)
Theorem format_error_shape (exception : py_exception) :
  let relevant :=
    List.filter is_relevant (split_lines (exc_traceback exception)) in
  match exc_str exception with
  | Ret text =>
      exists kept_lines,
        _format_error exception
        = Ret (exc_type exception +:+ ": " +:+ text
               +:+ (if nonempty kept_lines
                    then NL +:+ join NL kept_lines else EmptyString))
        /\ List.length kept_lines = Nat.min 5 (List.length relevant)
        /\ (exists pre, relevant = pre ++ kept_lines)
  | Raise e => _format_error exception = Raise e
  end.
Proof.
  cbn zeta. unfold _format_error. cbn zeta. fold is_relevant.
  destruct (exc_str exception) as [text|e]; [|reflexivity].
  set (relevant := List.filter is_relevant (split_lines (exc_traceback exception))).
  exists (last_n 5 relevant).
  split; [|split; [apply last_n_length | apply last_n_suffix]].
  f_equal.
  destruct relevant as [|x relevant'] eqn:E.
  - cbn [nonempty last_n List.skipn List.length Nat.sub].
    now rewrite append_nil_r.
  - assert (Hn : nonempty (last_n 5 (x :: relevant')) = true).
    { pose proof (last_n_length 5 (x :: relevant')) as Hl.
      destruct (last_n 5 (x :: relevant')); [|reflexivity].
      cbn [List.length] in Hl. lia. }
    rewrite Hn. cbn [nonempty]. now rewrite !append_assoc.
Qed.

End EngineFurther.

Section EngineWitnesses.
Import Py ActionEngine.

Lemma execute_counts_and_captures_witness :
  let h := READY ANSWERS (Scripted.config 3 true) in
  let h1 := snd (execute_in ANSWERS "raise ValueError('boom')" h) in
  engine h1 = Some {| screenshot_on_error := true;
                      screenshot_dir := "error_screenshots";
                      execution_count := 0 + 1 |}
  /\ config h1 = config h /\ ai h1 = ai h /\ parser h1 = parser h
  /\ code_generator h1 = code_generator h
  /\ calls h1
     = [CallCreateBrowser; CallExecute "raise ValueError('boom')";
        CallScreenshot "error_screenshots/error_1.png"].
Proof.
  exact (execute_counts_and_captures
           (R:=Scripted.runtime ANSWERS) (READY ANSWERS (Scripted.config 3 true))
           (ActionEngine.init true "error_screenshots")
           "raise ValueError('boom')" eq_refl).
Defined.

End EngineWitnesses.

(** ** The orchestrator *)

Section OrchestratorFurther.
Context {W : Type} {R : Runtime W}.
Import Py BrowserAutomator.

(** [execute] answers only on an automator whose browser is up. *)
Lemma execute_returns_engine code (h : heap W) outcome :
  fst (ActionEngine.execute code h) = Ret outcome -> engine h <> None.
Proof.
  unfold ActionEngine.execute, bind, get. intros Hret Hnone.
  rewrite Hnone in Hret. discriminate.
Qed.

Lemma count_cons p e l :
  count p (e :: l) = (if p e then 1 else 0) + count p l.
Proof. unfold count. cbn [List.filter]. destruct (p e); reflexivity. Qed.

(** The calls of the retry loop of one action. *)
Lemma attempt_trace remaining action :
  forall last_error (h : heap W),
  exists l,
    calls (snd (attempt_loop remaining action last_error h)) = calls h ++ l
    /\ count is_CallCodeGenerator l <= remaining
    /\ count is_CallExecute l <= count is_CallCodeGenerator l
    /\ (1 <= remaining -> 1 <= count is_CallCodeGenerator l)
    /\ (fst (attempt_loop remaining action last_error h) = Ret true ->
        1 <= count is_CallExecute l)
    /\ (1 <= remaining ->
        exists l', l = CallCodeGenerator action None last_error :: l').
Proof.
  induction remaining as [|remaining IH]; intros last_error h;
    cbn [attempt_loop].
  { exists []. rewrite app_nil_r. cbn. repeat split; try lia; discriminate. }
  unfold bind, try_except, ret, get.
  pose proof (generate_calls action None last_error h) as (_ & _ & lg & Lg & Gg & Eg).
  cbn zeta in Lg.
  destruct (CodeGenerator.generate action None last_error h) as [[code|e] h1];
    cbn [snd fst] in Lg |- *.
  - pose proof (execute_calls code h1) as (_ & le & Le & Ge & Ee & _).
    pose proof (execute_returns_engine code h1) as Hup.
    pose proof (execute_calls code h1) as (_ & le' & Le' & _ & _ & Ee1).
    cbn zeta in Le, Le'. rewrite Le in Le'. apply app_inv_head in Le'. subst le'.
    destruct (ActionEngine.execute code h1) as [[[success error]|e] h2];
      cbn [snd fst] in Le, Hup |- *.
    + destruct success; cbn [snd fst].
      * exists ((CallCodeGenerator action None last_error :: lg) ++ le).
        rewrite Le, Lg, <- app_assoc. split; [reflexivity|].
        rewrite !count_app, !count_cons, Gg, Eg, Ge,
          (Ee1 (Hup _ eq_refl)). cbn. repeat split; try lia. eauto.
      * destruct (retry_attempts (config h2) <=? 1)%Z; cbn [snd fst].
        -- exists ((CallCodeGenerator action None last_error :: lg) ++ le).
           rewrite Le, Lg, <- app_assoc. split; [reflexivity|].
           rewrite !count_app, !count_cons, Gg, Eg, Ge. cbn.
           repeat split; try lia; [discriminate | eauto].
        -- destruct (IH error h2) as (l' & L' & B' & X' & _ & T' & _).
           exists (((CallCodeGenerator action None last_error :: lg) ++ le) ++ l').
           rewrite L', Le, Lg, <- !app_assoc. split; [reflexivity|].
           rewrite !count_app, !count_cons, Gg, Eg, Ge. cbn.
           repeat split; try lia; [intros Ht; specialize (T' Ht); lia | eauto].
    + exists ((CallCodeGenerator action None last_error :: lg) ++ le).
      rewrite Le, Lg, <- app_assoc. split; [reflexivity|].
      rewrite !count_app, !count_cons, Gg, Eg, Ge. cbn.
      repeat split; try lia; [discriminate | eauto].
  - exists (CallCodeGenerator action None last_error :: lg).
    assert (Hc : calls (snd (if exc_is_Exception e
                             then (@Ret (option string) None, h1)
                             else (Raise e, h1)))
                 = calls h ++ CallCodeGenerator action None last_error :: lg)
      by (destruct (exc_is_Exception e); exact Lg).
    destruct (exc_is_Exception e); cbn [snd fst] in Hc |- *;
      (split; [exact Hc|]); rewrite !count_cons, Gg, Eg; cbn;
      repeat split; try lia; try discriminate; eauto.
Qed.

(** X22: when the generator returns a snippet at the first attempt and the
    snippet runs to its end, the action succeeds at once: the generator
    was asked once, the engine ran once, and nothing else was recorded. *)
Theorem first_attempt_succeeds action code (h : heap W) :
  (1 <= retry_attempts (config h))%Z ->
  engine h <> None ->
  fst (CodeGenerator.generate action None None h) = Ret code ->
  let h1 := snd (CodeGenerator.generate action None None h) in
  snd (py_exec (world h1) code) = None ->
  fst (_execute_action action h) = Ret true
  /\ calls (snd (_execute_action action h)) = calls h1 ++ [CallExecute code].
Proof.
  intros Hretry Hup Hgen h1 Hrun. subst h1.
  unfold _execute_action, bind, get.
  destruct (Z.to_nat (retry_attempts (config h))) as [|n] eqn:Hn; [lia|].
  cbn [attempt_loop]. unfold bind, try_except, ret, get.
  pose proof (generate_calls action None None h) as (_ & Eng & _).
  cbn zeta in Eng.
  destruct (CodeGenerator.generate action None None h) as [[code'|e] h1];
    cbn [fst snd] in Hgen, Hrun, Eng |- *; [|discriminate].
  injection Hgen as ->.
  unfold ActionEngine.execute, bind, get, modify, record, try_except,
    ActionEngine.exec_snippet.
  destruct (engine h1) as [self|]; [|congruence].
  cbn [modify world set_calls set_engine snd fst].
  destruct (py_exec (world h1) code) as [w [e|]]; cbn [snd] in Hrun;
    [discriminate|].
  cbn [snd fst ret]. split; reflexivity.
Qed.

(** X23: after an attempt that failed, with more than one attempt allowed,
    the generator is asked again for the same action and is handed the
    message of the failure. *)
Theorem retry_passes_error action code error (h : heap W) :
  (2 <= retry_attempts (config h))%Z ->
  fst (CodeGenerator.generate action None None h) = Ret code ->
  let h1 := snd (CodeGenerator.generate action None None h) in
  fst (ActionEngine.execute code h1) = Ret (false, error) ->
  let h2 := snd (ActionEngine.execute code h1) in
  exists l,
    calls (snd (_execute_action action h))
    = calls h2 ++ CallCodeGenerator action None error :: l.
Proof.
  intros Hretry Hgen h1 Hexec h2. subst h1 h2.
  unfold _execute_action, bind, get.
  destruct (Z.to_nat (retry_attempts (config h))) as [|[|n]] eqn:Hn; [lia | lia |].
  cbn [attempt_loop]. fold (attempt_loop (S n)).
  unfold bind at 1. unfold try_except at 1. unfold bind at 1. unfold ret at 1.
  pose proof (generate_calls action None None h) as (Cg & _).
  cbn zeta in Cg.
  destruct (CodeGenerator.generate action None None h) as [[code'|e] h1];
    cbn [fst snd] in Hgen, Hexec, Cg |- *; [|discriminate].
  injection Hgen as ->.
  pose proof (execute_calls code h1) as (Ce & _). cbn zeta in Ce.
  unfold bind at 1.
  destruct (ActionEngine.execute code h1) as [[[success error']|e] h2];
    cbn [fst snd] in Hexec, Ce |- *; [|discriminate].
  injection Hexec as -> ->.
  unfold bind at 1. unfold get at 1.
  assert (Hcfg : (retry_attempts (config h2) <=? 1)%Z = false)
    by (apply Z.leb_gt; rewrite Ce, Cg; lia).
  rewrite Hcfg.
  destruct (attempt_trace (S n) action error h2) as (l & L & _ & _ & _ & _ & Hd).
  destruct Hd as [l' ->]; [lia|]. eauto.
Qed.


(** X25: when the browser cannot be started, with a fault derived from
    [Exception], [run] returns [False] after the one attempt to start it:
    the instructions are not parsed, nothing is generated and nothing
    runs. *)
Theorem run_without_browser (i : InstructionParser.instructions)
        (close_browser : bool) (h : heap W) w e :
  engine h = None ->
  create_browser (world h) = (w, Some e) ->
  exc_is_Exception e = true ->
  run i close_browser h
  = (Ret false, set_world w (set_calls (calls h ++ [CallCreateBrowser]) h)).
Proof.
  intros Hdown Hcreate He.
  assert (Hstr : exists text, exc_str e = Ret text).
  { pose proof (browser_faults (world h) e) as Hp. rewrite Hcreate in Hp.
    specialize (Hp eq_refl). destruct e; [eauto | discriminate]. }
  destruct Hstr as [text Hstr].
  unfold run, try_finally, try_except, _initialize_browser, bind, get, record,
    modify, ret, lift.
  rewrite Hdown. cbn [world set_calls]. rewrite Hcreate, He, Hstr.
  cbn [engine set_world set_calls]. rewrite Hdown.
  destruct close_browser; reflexivity.
Qed.

(** X26: [run] with [close_browser] leaves no browser behind, whatever
    happened: also when the browser could not be started, when an action
    failed and when a fault left [run]. *)
Theorem run_closes_browser (i : InstructionParser.instructions) (h : heap W) :
  engine (snd (run i true h)) = None.
Proof.
  unfold run, try_finally.
  destruct (try_except _ _ h) as [r h'].
  unfold _cleanup, record, modify, bind, get, ret. cbv beta.
  destruct (engine h') as [self|] eqn:Heng; rewrite ?Heng;
    cbn [snd fst engine set_engine]; [reflexivity | exact Heng].
Qed.

(** X27: the browser is started once: after a call of
    [_initialize_browser] that returned, the browser is up and a second
    call does nothing. *)
Theorem initialize_browser_once (h : heap W) :
  fst (_initialize_browser h) = Ret tt ->
  let h1 := snd (_initialize_browser h) in
  engine h1 <> None /\ _initialize_browser h1 = (Ret tt, h1).
Proof.
  intros Hret. cbn zeta.
  assert (Hup : engine (snd (_initialize_browser h)) <> None).
  { revert Hret. unfold _initialize_browser, bind, get, record, modify, ret.
    destruct (engine h) as [self|] eqn:Heng; [intros _; cbn [snd]; congruence|].
    cbn [world set_calls].
    destruct (create_browser (world h)) as [w [e|]]; cbn [fst snd];
      [discriminate | intros _; discriminate]. }
  split; [exact Hup|].
  unfold _initialize_browser at 1. unfold bind, get, ret.
  destruct (engine (snd (_initialize_browser h))); [reflexivity | congruence].
Qed.

(** The calls of the processing of one action. *)
Lemma execute_action_trace action (h : heap W) :
  exists l,
    calls (snd (_execute_action action h)) = calls h ++ l
    /\ count is_CallCodeGenerator l <= Z.to_nat (retry_attempts (config h))
    /\ count is_CallExecute l <= count is_CallCodeGenerator l
    /\ ((1 <= retry_attempts (config h))%Z -> 1 <= count is_CallCodeGenerator l)
    /\ (fst (_execute_action action h) = Ret true -> 1 <= count is_CallExecute l).
Proof.
  unfold _execute_action, bind, get.
  destruct (attempt_trace (Z.to_nat (retry_attempts (config h))) action None h)
    as (l & L & B & X & G & T & _).
  exists l. repeat split; try assumption. intros Hr. apply G. lia.
Qed.

(** The calls of the loop over the queue. *)
Lemma action_loop_trace action_queue :
  forall all_success (h : heap W),
  exists l,
    calls (snd (action_loop action_queue all_success h)) = calls h ++ l
    /\ (fst (action_loop action_queue all_success h) = Ret true ->
        List.length action_queue <= count is_CallExecute l)
    /\ ((2 <= retry_attempts (config h))%Z ->
        forall r, fst (action_loop action_queue all_success h) = Ret r ->
                  List.length action_queue <= count is_CallCodeGenerator l)
    /\ count is_CallCodeGenerator l
       <= List.length action_queue * Z.to_nat (retry_attempts (config h))
    /\ count is_CallExecute l <= count is_CallCodeGenerator l.
Proof.
  induction action_queue as [|action rest IH]; intros all_success h;
    cbn [action_loop].
  { exists []. rewrite app_nil_r. cbn. repeat split; intros; lia. }
  unfold bind, get, ret.
  destruct (execute_action_trace action h) as (l1 & L1 & B1 & X1 & G1 & T1).
  pose proof (execute_action_config action h) as C.
  destruct (_execute_action action h) as [[success|e] h1]; cbn [fst snd] in *.
  - destruct success.
    + destruct (IH all_success h1) as (l2 & L2 & T2 & G2 & B2 & X2).
      rewrite C in G2, B2.
      exists (l1 ++ l2). rewrite L2, L1, <- app_assoc. split; [reflexivity|].
      rewrite !count_app. cbn [List.length Nat.mul]. repeat split; try lia.
      * intros Ht. specialize (T2 Ht). specialize (T1 eq_refl). lia.
      * intros Hr r Hret. specialize (G2 Hr r Hret).
        assert (1 <= count is_CallCodeGenerator l1) by (apply G1; lia). lia.
    + destruct (retry_attempts (config h1) <=? 1)%Z eqn:Hone; cbn [fst snd].
      * exists l1. split; [exact L1|]. cbn [List.length Nat.mul].
        repeat split; try lia; [discriminate|].
        intros Hr. apply Z.leb_le in Hone. rewrite C in Hone. lia.
      * destruct (IH false h1) as (l2 & L2 & T2 & G2 & B2 & X2).
        rewrite C in G2, B2.
        exists (l1 ++ l2). rewrite L2, L1, <- app_assoc. split; [reflexivity|].
        rewrite !count_app. cbn [List.length Nat.mul]. repeat split; try lia.
        -- intros Ht. exfalso.
           destruct (action_loop rest false h1) as [r h2] eqn:E.
           cbn [fst] in Ht. subst r. exact (action_loop_false _ _ _ E).
        -- intros Hr r Hret. specialize (G2 Hr r Hret).
           assert (1 <= count is_CallCodeGenerator l1) by (apply G1; lia). lia.
  - exists l1. split; [exact L1|]. cbn [List.length Nat.mul].
    repeat split; try lia; try discriminate.
Qed.

(** How [run] is made of its parts: the start of the browser, the loop
    over the parsed queue, the release of the browser. *)
Lemma run_trace (i : InstructionParser.instructions) (close_browser : bool)
      (h : heap W) :
  let queue := snd (InstructionParser.parse (parser h) i) in
  exists l0 lf,
    (l0 = [] \/ l0 = [CallCreateBrowser])
    /\ (lf = [] \/ lf = [CallQuit])
    /\ ((fst (_initialize_browser h) <> Ret tt
         /\ calls (snd (run i close_browser h)) = calls h ++ l0 ++ lf
         /\ fst (run i close_browser h) <> Ret true)
        \/ (fst (_initialize_browser h) = Ret tt
            /\ exists hp,
                config hp = config h
                /\ calls hp = calls h ++ l0
                /\ calls (snd (run i close_browser h))
                   = calls (snd (action_loop queue true hp)) ++ lf
                /\ (fst (run i close_browser h) = Ret true ->
                    fst (action_loop queue true hp) = Ret true))).
Proof.
  cbn zeta.
  set (finish := let* h0 := get in
                 if close_browser
                 then match engine h0 with
                      | Some _ => _cleanup
                      | None => ret tt
                      end
                 else ret tt).
  set (body := try_except
                 (let* _ := _initialize_browser in
                  let* action_queue := parse i in
                  action_loop action_queue true)
                 (fun e => let* _ := lift (exc_str e) in ret false)).
  assert (Hfin : forall (r : result bool) (hb : heap W),
             exists lf,
               (lf = [] \/ lf = [CallQuit])
               /\ try_finally (fun h0 => (r, h0)) finish hb
                  = (r, snd (try_finally (fun h0 => (r, h0)) finish hb))
               /\ calls (snd (try_finally (fun h0 => (r, h0)) finish hb))
                  = calls hb ++ lf).
  { intros r hb. subst finish.
    unfold try_finally, _cleanup, record, modify, bind, get, ret. cbv beta.
    destruct close_browser;
      [destruct (engine hb) as [self|] eqn:Heng; rewrite ?Heng|];
      cbn [fst snd calls set_engine set_world set_calls].
    - exists [CallQuit]. auto.
    - exists []. rewrite app_nil_r. auto.
    - exists []. rewrite app_nil_r. auto. }
  assert (Hrun : run i close_browser h
                 = try_finally (fun h0 => (fst (body h), h0)) finish (snd (body h))).
  { unfold run, try_finally. fold body. fold finish.
    destruct (body h) as [r hb]. reflexivity. }
  assert (Hinit : exists l0,
             (l0 = [] \/ l0 = [CallCreateBrowser])
             /\ calls (snd (_initialize_browser h)) = calls h ++ l0
             /\ config (snd (_initialize_browser h)) = config h
             /\ parser (snd (_initialize_browser h)) = parser h).
  { unfold _initialize_browser, bind, get, record, modify, ret.
    destruct (engine h) as [self|] eqn:Heng.
    - exists []. rewrite app_nil_r. cbn [snd]. repeat split; auto.
    - exists [CallCreateBrowser]. cbn [world set_calls].
      destruct (create_browser (world h)) as [w [e|]]; cbn [fst snd];
        repeat split; auto. }
  destruct Hinit as (l0 & Hl0 & L0 & C0 & P0).
  rewrite Hrun. clear Hrun.
  destruct (body h) as [r hb] eqn:Hbody.
  cbn [fst snd].
  destruct (Hfin r hb) as (lf & Hlf & Efin & Lfin).
  rewrite Efin. cbn [fst snd]. rewrite Lfin.
  exists l0, lf. split; [exact Hl0|]. split; [exact Hlf|].
  revert Hbody. subst body. unfold try_except. unfold bind at 1.
  destruct (_initialize_browser h) as [[[]|e0] ha]; cbn [fst snd] in *.
  - intros Hbody. right. split; [reflexivity|].
    revert Hbody. unfold bind at 1. unfold parse at 1. rewrite P0.
    destruct (InstructionParser.parse (parser h) i) as [p queue]. cbn [snd].
    intros Hbody. exists (set_parser p ha).
    split; [exact C0|]. split; [exact L0|].
    destruct (action_loop queue true (set_parser p ha)) as [[b|e1] h2];
      cbn [fst snd] in *.
    + injection Hbody as <- <-. split; [reflexivity|]. intros Hr. exact Hr.
    + unfold bind, lift, ret in Hbody.
      destruct (exc_is_Exception e1); [destruct (exc_str e1)|];
        injection Hbody as <- <-; (split; [reflexivity | discriminate]).
  - intros Hbody. left. split; [discriminate|].
    unfold bind, lift, ret in Hbody.
    destruct (exc_is_Exception e0); [destruct (exc_str e0)|];
      injection Hbody as <- <-; rewrite L0, <- app_assoc;
      (split; [reflexivity | discriminate]).
Qed.

Lemma generated_app l1 l2 : generated (l1 ++ l2) = generated l1 ++ generated l2.
Proof.
  induction l1 as [|e l1 IH]; [reflexivity|].
  destruct e; cbn [generated app]; now rewrite IH.
Qed.

Lemma ran_app l1 : forall current l2,
  ran current (l1 ++ l2) = ran current l1 ++ ran (asked current l1) l2.
Proof.
  induction l1 as [|e l1 IH]; intros current l2; [reflexivity|].
  destruct e; cbn [ran asked app]; try apply IH.
  destruct current; cbn [app]; now rewrite IH.
Qed.

(** Calls among which the generator is not asked. *)
Lemma not_asked l :
  count is_CallCodeGenerator l = 0 ->
  generated l = []
  /\ (forall current, asked current l = current)
  /\ (forall action, ran (Some action) l = List.repeat action (count is_CallExecute l))
  /\ ran None l = [].
Proof.
  induction l as [|e l IH]; [repeat split|].
  rewrite count_cons. intros Hc.
  destruct e; cbn [is_CallCodeGenerator] in Hc; try discriminate Hc;
    destruct (IH Hc) as (G & A & X & N);
    rewrite ?count_cons; cbn [generated asked ran is_CallExecute Nat.add List.repeat];
    repeat split; intros; rewrite ?G, ?A, ?X, ?N; reflexivity.
Qed.

(** The calls of the retry loop of an action that succeeded. *)
Lemma attempt_loop_ran remaining action :
  forall last_error (h : heap W),
    fst (attempt_loop remaining action last_error h) = Ret true ->
    exists l n,
      calls (snd (attempt_loop remaining action last_error h)) = calls h ++ l
      /\ 1 <= n
      /\ generated l = List.repeat action n
      /\ forall current, ran current l = List.repeat action n.
Proof.
  induction remaining as [|remaining IH]; intros last_error h;
    cbn [attempt_loop]; [discriminate|].
  unfold bind, try_except, ret, get.
  pose proof (generate_calls action None last_error h) as (_ & _ & lg & Lg & Gg & Eg).
  cbn zeta in Lg.
  destruct (CodeGenerator.generate action None last_error h) as [[code|e] h1];
    cbn [snd fst] in Lg |- *;
    [|destruct (exc_is_Exception e); discriminate].
  pose proof (execute_calls code h1) as (_ & le & Le & Ge & _ & Ee1).
  pose proof (execute_returns_engine code h1) as Hup.
  cbn zeta in Le.
  destruct (ActionEngine.execute code h1) as [[[success error]|e] h2];
    cbn [snd fst] in Le, Hup |- *; [|discriminate].
  specialize (Ee1 (Hup _ eq_refl)).
  assert (Hq : count is_CallCodeGenerator (lg ++ le) = 0
               /\ count is_CallExecute (lg ++ le) = 1)
    by (rewrite !count_app; lia).
  destruct Hq as [Hq1 Hq2].
  destruct (not_asked (lg ++ le) Hq1) as (G & A & X & _).
  assert (Hone : generated ((CallCodeGenerator action None last_error :: lg) ++ le)
                 = [action]
                 /\ forall current,
                     ran current ((CallCodeGenerator action None last_error :: lg) ++ le)
                     = [action]).
  { cbn [app generated ran]. rewrite G. split; [reflexivity|].
    intros _. rewrite X, Hq2. reflexivity. }
  destruct Hone as [Hg Hr].
  destruct success; cbn [snd fst].
  - intros _. exists ((CallCodeGenerator action None last_error :: lg) ++ le), 1.
    split; [rewrite Le, Lg, <- app_assoc; reflexivity|].
    repeat split; [lia | exact Hg | exact Hr].
  - destruct (retry_attempts (config h2) <=? 1)%Z; cbn [snd fst]; [discriminate|].
    intros Ht. destruct (IH error h2 Ht) as (l' & n & L' & Hn & G' & R').
    exists (((CallCodeGenerator action None last_error :: lg) ++ le) ++ l'), (S n).
    split; [rewrite L', Le, Lg, <- !app_assoc; reflexivity|].
    split; [lia|].
    rewrite generated_app, Hg, G'. split; [reflexivity|].
    intros current. rewrite ran_app, Hr, R'. reflexivity.
Qed.

Lemma repeated_cons action queue n times :
  repeated (action :: queue) (n :: times)
  = List.repeat action n ++ repeated queue times.
Proof. reflexivity. Qed.

(** The calls of a loop over the queue that answered [True]. *)
Lemma action_loop_ran action_queue :
  forall all_success (h : heap W),
    fst (action_loop action_queue all_success h) = Ret true ->
    exists l times,
      calls (snd (action_loop action_queue all_success h)) = calls h ++ l
      /\ List.length times = List.length action_queue
      /\ Forall (fun n => 1 <= n) times
      /\ generated l = repeated action_queue times
      /\ forall current, ran current l = repeated action_queue times.
Proof.
  induction action_queue as [|action rest IH]; intros all_success h;
    cbn [action_loop].
  { intros _. exists [], []. rewrite app_nil_r. repeat split. constructor. }
  unfold bind, get, ret.
  assert (Ha : fst (_execute_action action h) = Ret true ->
               exists l n,
                 calls (snd (_execute_action action h)) = calls h ++ l
                 /\ 1 <= n
                 /\ generated l = List.repeat action n
                 /\ forall current, ran current l = List.repeat action n)
    by (unfold _execute_action, bind, get; apply attempt_loop_ran).
  destruct (_execute_action action h) as [[success|e] h1]; cbn [fst snd] in *;
    [|discriminate].
  destruct success.
  - intros Ht. destruct (Ha eq_refl) as (l1 & n & L1 & Hn & G1 & R1).
    destruct (IH all_success h1 Ht) as (l2 & times & L2 & Hlen & Hall & G2 & R2).
    exists (l1 ++ l2), (n :: times).
    rewrite L2, L1, <- app_assoc. split; [reflexivity|].
    split; [cbn [List.length]; now rewrite Hlen|].
    split; [now constructor|].
    rewrite repeated_cons, generated_app, G1, G2. split; [reflexivity|].
    intros current. rewrite ran_app, R1, R2. reflexivity.
  - destruct (retry_attempts (config h1) <=? 1)%Z; cbn [fst snd]; [discriminate|].
    intros Ht. exfalso.
    destruct (action_loop rest false h1) as [r h2] eqn:E.
    cbn [fst] in Ht. subst r. exact (action_loop_false _ _ _ E).
Qed.

(** X28: a run that returns [True] worked through its whole queue in
    order: the generator was asked for each action of the queue, at least
    once, in the order of the queue and for nothing else, and after each
    of these requests the engine ran a snippet for that action. *)
Theorem run_true_ran_every_action (i : InstructionParser.instructions)
        (close_browser : bool) (h : heap W) :
  fst (run i close_browser h) = Ret true ->
  let queue := snd (InstructionParser.parse (parser h) i) in
  exists l times,
    calls (snd (run i close_browser h)) = calls h ++ l
    /\ List.length times = List.length queue
    /\ Forall (fun n => 1 <= n) times
    /\ generated l = repeated queue times
    /\ ran None l = repeated queue times.
Proof.
  intros Htrue.
  destruct (run_trace i close_browser h)
    as (l0 & lf & Hl0 & Hlf & [(_ & _ & Hno)|(_ & hp & C & L & Lr & Hr)]);
    [congruence|].
  cbn zeta in *.
  destruct (action_loop_ran (snd (InstructionParser.parse (parser h) i)) true hp
                            (Hr Htrue))
    as (l & times & Ll & Hlen & Hall & G & X).
  exists (l0 ++ l ++ lf), times. rewrite Lr, Ll, L, <- !app_assoc.
  split; [reflexivity|]. split; [exact Hlen|]. split; [exact Hall|].
  rewrite !generated_app, !ran_app, G, X.
  destruct Hl0 as [-> | ->], Hlf as [-> | ->];
    cbn [generated ran asked app]; rewrite ?app_nil_r; split; reflexivity.
Qed.




Lemma count_nil p : count p [] = 0.
Proof. reflexivity. Qed.

Lemma no_browser_call_app l1 l2 :
  no_browser_call (l1 ++ l2) = no_browser_call l1 && no_browser_call l2.
Proof. apply forallb_app. Qed.

Lemma no_browser_call_count l :
  no_browser_call l = true ->
  count is_CallCreateBrowser l = 0 /\ count is_CallQuit l = 0.
Proof.
  intros H.
  split;
    apply (count_none _ (fun e => negb (is_CallCreateBrowser e || is_CallQuit e)));
    try exact H; intros e He; apply negb_true_iff, orb_false_iff in He; tauto.
Qed.

Lemma backend_no_browser_call l :
  forallb is_backend l = true -> no_browser_call l = true.
Proof.
  unfold no_browser_call. rewrite !forallb_forall. intros H e He.
  specialize (H e He). destruct e; try discriminate H; reflexivity.
Qed.

Lemma generate_quiet instruction context retry_on_error (h : heap W) :
  exists l,
    calls (snd (CodeGenerator.generate instruction context retry_on_error h))
    = calls h ++ l
    /\ no_browser_call l = true.
Proof.
  pose proof (generate_spec instruction context retry_on_error h)
    as (_ & _ & _ & _ & l & L & Hit & Miss & _).
  cbn zeta in L, Hit, Miss.
  exists (CallCodeGenerator instruction context retry_on_error :: l).
  split; [exact L|].
  destruct (cache_enabled (code_generator h)) eqn:Hen.
  - destruct (_code_cache (code_generator h)
                !! CodeGenerator.cache_key instruction context retry_on_error)
      as [code|] eqn:Hlook.
    + destruct (Hit eq_refl code eq_refl) as (_ & -> & _). reflexivity.
    + destruct Miss as (l' & -> & Hl'); [now right|].
      cbn. now apply backend_no_browser_call.
  - destruct Miss as (l' & -> & Hl'); [now left|].
    cbn. now apply backend_no_browser_call.
Qed.

Lemma execute_quiet code (h : heap W) :
  exists l,
    calls (snd (ActionEngine.execute code h)) = calls h ++ l
    /\ no_browser_call l = true.
Proof.
  destruct (engine h) as [self|] eqn:Heng.
  2:{ unfold ActionEngine.execute, bind, get. rewrite Heng. cbn [raise snd].
      exists []. now rewrite app_nil_r. }
  pose proof (execute_outcome code h self Heng) as H. cbn zeta in H.
  destruct (snd (py_exec (world h) code)) as [e|];
    [destruct (exc_is_Exception e);
     [destruct (exc_str e) as [text|e'];
      [destruct H as (msg & _ & H);
       destruct (screenshot_on_error self);
       [destruct (snd (os_makedirs _ _)); destruct H as [w' H]|]|]|]|];
    rewrite H; eexists; split; reflexivity.
Qed.

Lemma attempt_loop_quiet remaining action :
  forall last_error (h : heap W),
  exists l,
    calls (snd (attempt_loop remaining action last_error h)) = calls h ++ l
    /\ no_browser_call l = true.
Proof.
  induction remaining as [|remaining IH]; intros last_error h;
    cbn [attempt_loop].
  { exists []. now rewrite app_nil_r. }
  unfold bind, try_except, ret, get.
  destruct (generate_quiet action None last_error h) as (lg & Lg & Qg).
  destruct (CodeGenerator.generate action None last_error h) as [[code|e] h1];
    cbn [snd fst] in Lg |- *.
  - destruct (execute_quiet code h1) as (le & Le & Qe).
    destruct (ActionEngine.execute code h1) as [[[success error]|e] h2];
      cbn [snd fst] in Le |- *.
    + destruct success; cbn [snd fst].
      * exists (lg ++ le). rewrite Le, Lg, <- app_assoc, no_browser_call_app, Qg, Qe.
        split; reflexivity.
      * destruct (retry_attempts (config h2) <=? 1)%Z; cbn [snd fst].
        -- exists (lg ++ le).
           rewrite Le, Lg, <- app_assoc, no_browser_call_app, Qg, Qe.
           split; reflexivity.
        -- destruct (IH error h2) as (l' & L' & Q').
           exists ((lg ++ le) ++ l').
           rewrite L', Le, Lg, <- !app_assoc, !no_browser_call_app, Qg, Qe, Q'.
           split; reflexivity.
    + exists (lg ++ le). rewrite Le, Lg, <- app_assoc, no_browser_call_app, Qg, Qe.
      split; reflexivity.
  - exists lg. split; [|exact Qg]. destruct (exc_is_Exception e); exact Lg.
Qed.

Lemma action_loop_quiet action_queue :
  forall all_success (h : heap W),
  exists l,
    calls (snd (action_loop action_queue all_success h)) = calls h ++ l
    /\ no_browser_call l = true.
Proof.
  induction action_queue as [|action rest IH]; intros all_success h;
    cbn [action_loop].
  { exists []. now rewrite app_nil_r. }
  unfold bind, get, ret.
  assert (Ha : exists l, calls (snd (_execute_action action h)) = calls h ++ l
                         /\ no_browser_call l = true)
    by (unfold _execute_action, bind, get; apply attempt_loop_quiet).
  destruct Ha as (l1 & L1 & Q1).
  destruct (_execute_action action h) as [[success|e] h1]; cbn [fst snd] in *;
    [|eauto].
  destruct success.
  - destruct (IH all_success h1) as (l2 & L2 & Q2).
    exists (l1 ++ l2). rewrite L2, L1, <- app_assoc, no_browser_call_app, Q1, Q2.
    split; reflexivity.
  - destruct (retry_attempts (config h1) <=? 1)%Z; cbn [fst snd]; [eauto|].
    destruct (IH false h1) as (l2 & L2 & Q2).
    exists (l1 ++ l2). rewrite L2, L1, <- app_assoc, no_browser_call_app, Q1, Q2.
    split; reflexivity.
Qed.

(** X30: the cost of a run is bounded: the generator is asked at most
    [retry_attempts] times for each action of the queue, the engine runs
    at most once for each time the generator was asked, the browser is
    started at most once and released at most once. *)
Theorem run_budget (i : InstructionParser.instructions) (close_browser : bool)
        (h : heap W) :
  exists l,
    calls (snd (run i close_browser h)) = calls h ++ l
    /\ count is_CallCodeGenerator l
       <= List.length (snd (InstructionParser.parse (parser h) i))
          * Z.to_nat (retry_attempts (config h))
    /\ count is_CallExecute l <= count is_CallCodeGenerator l
    /\ count is_CallCreateBrowser l <= 1
    /\ count is_CallQuit l <= 1.
Proof.
  destruct (run_trace i close_browser h)
    as (l0 & lf & Hl0 & Hlf & [(_ & L & _)|(_ & hp & C & L & Lr & Hr)]).
  - exists (l0 ++ lf). split; [exact L|]. rewrite !count_app.
    destruct Hl0 as [-> | ->], Hlf as [-> | ->];
      rewrite ?count_cons, ?count_nil;
      cbn [is_CallCodeGenerator is_CallExecute is_CallCreateBrowser is_CallQuit];
      repeat split; lia.
  - cbn zeta in *.
    destruct (action_loop_trace (snd (InstructionParser.parse (parser h) i)) true hp)
      as (l & Ll & _ & _ & B & X).
    destruct (action_loop_quiet (snd (InstructionParser.parse (parser h) i)) true hp)
      as (l' & Ll' & Q).
    rewrite Ll in Ll'. apply app_inv_head in Ll'. subst l'.
    apply no_browser_call_count in Q as [Qb Qq].
    exists (l0 ++ l ++ lf). rewrite Lr, Ll, L, <- !app_assoc.
    split; [reflexivity|]. rewrite !count_app, Qb, Qq. rewrite C in B.
    destruct Hl0 as [-> | ->], Hlf as [-> | ->];
      rewrite ?count_cons, ?count_nil;
      cbn [is_CallCodeGenerator is_CallExecute is_CallCreateBrowser is_CallQuit];
      repeat split; lia.
Qed.

End OrchestratorFurther.

Section OrchestratorWitnesses.
Import Py BrowserAutomator.

Lemma first_attempt_succeeds_witness :
  let h := READY ANSWERS (Scripted.config 3 true) in
  fst (_execute_action (R:=Scripted.runtime ANSWERS) "Wait" h) = Ret true
  /\ calls (snd (_execute_action (R:=Scripted.runtime ANSWERS) "Wait" h))
     = calls (snd (generate_in ANSWERS "Wait" None None h))
       ++ [CallExecute "env.wait(1)"].
Proof.
  apply (first_attempt_succeeds
           (R:=Scripted.runtime ANSWERS) "Wait" "env.wait(1)"
           (READY ANSWERS (Scripted.config 3 true))).
  - vm_compute. discriminate.
  - vm_compute. discriminate.
  - vm_compute. reflexivity.
  - vm_compute. reflexivity.
Defined.

Lemma retry_passes_error_witness :
  let h := READY SECOND_TIME (Scripted.config 3 true) in
  let h1 := snd (generate_in SECOND_TIME "Click" None None h) in
  let error :=
    match ActionEngine._format_error
            (Exc "ValueError" "boom" true (Python.traceback_of "ValueError" "boom"))
    with
    | Ret error_msg => Some error_msg
    | Raise _ => None
    end in
  exists l,
    calls (snd (_execute_action (R:=Scripted.runtime SECOND_TIME) "Click" h))
    = calls (snd (execute_in SECOND_TIME "raise ValueError('boom')" h1))
      ++ CallCodeGenerator "Click" None error :: l.
Proof.
  apply (retry_passes_error
           (R:=Scripted.runtime SECOND_TIME) "Click" "raise ValueError('boom')"
           (match ActionEngine._format_error
                    (Exc "ValueError" "boom" true
                         (Python.traceback_of "ValueError" "boom"))
            with
            | Ret error_msg => Some error_msg
            | Raise _ => None
            end)
           (READY SECOND_TIME (Scripted.config 3 true))).
  - vm_compute. discriminate.
  - vm_compute. reflexivity.
  - vm_compute. reflexivity.
Defined.


Lemma run_without_browser_witness :
  let h := BrowserAutomator.init (Scripted.config 3 true) 0 in
  run (R:=NO_BROWSER) THREE_STEPS true h
  = (Ret false, set_world 0 (set_calls (calls h ++ [CallCreateBrowser]) h)).
Proof.
  exact (run_without_browser
           (R:=NO_BROWSER) THREE_STEPS true
           (BrowserAutomator.init (Scripted.config 3 true) 0) 0
           (Exc "WebDriverException" "chrome not reachable" true EmptyString)
           eq_refl eq_refl eq_refl).
Defined.

Lemma initialize_browser_once_witness :
  let h1 := READY ANSWERS (Scripted.config 3 true) in
  engine h1 <> None
  /\ _initialize_browser (R:=Scripted.runtime ANSWERS) h1 = (Ret tt, h1).
Proof.
  exact (initialize_browser_once
           (R:=Scripted.runtime ANSWERS)
           (BrowserAutomator.init (Scripted.config 3 true) 0) eq_refl).
Defined.

Lemma run_true_ran_every_action_witness :
  let h := BrowserAutomator.init (Scripted.config 3 true) 0 in
  let queue := snd (InstructionParser.parse (parser h) THREE_STEPS) in
  exists l times,
    calls (snd (run_in ANSWERS THREE_STEPS true h)) = calls h ++ l
    /\ List.length times = List.length queue
    /\ Forall (fun n => 1 <= n) times
    /\ generated l = repeated queue times
    /\ ran None l = repeated queue times.
Proof.
  apply (run_true_ran_every_action
           (R:=Scripted.runtime ANSWERS) THREE_STEPS true
           (BrowserAutomator.init (Scripted.config 3 true) 0)).
  vm_compute. reflexivity.
Defined.


End OrchestratorWitnesses.
